(** * jsgf2fst: intent recognition with a grammar transducer (fstaccept.py)

    A shallow embedding of [src/jsgf2fst/fstaccept.py]: the symbol decoder
    [symbols2intent], the path enumerator [fstprintall], the acceptor
    builder [linear_fst] / [apply_fst] and the recognizer [fstaccept],
    followed by the properties of the specification that were checked
    against them.

    Conventions.
    - Python [str] values are [string]; lists are [list]; [None] is the
      [None] of an [option].
    - A raised exception is the [Raise] branch of [result]; the contents
      of the buffers at that moment are not kept.  A computation that does
      not come back (the recursion of [fstprintall] on a cyclic automaton)
      is the [None] of a fuel-indexed function.
    - The automaton library (pywrapfst) is not part of the repository: an
      automaton is a record of the observations the code makes of it, and
      the compiler, the composition and the projection are section
      variables.
    - [intent.confidence] is the exact rational of which the code holds
      the nearest floating point number.  [fstaccept] divides once, 0 or
      1 by the number of paths, so what is stated of the confidence of one
      record (zero or not, its bounds, the quotient it is) reads on the
      rounded quotient as well.  Sums of rounded shares are not modelled:
      of a sum, only that zeros add up to zero is stated.
    - Strings are read with their ASCII meaning (white space, lower case).
    - Of [main], the loop that fills the dictionary of results is
      modelled ([main_results]); the parsing of the command line, the
      reading of the grammar file and the JSON output are not, nor is
      Python's recursion limit. *)

From Stdlib Require Import ZArith QArith List String Ascii Bool Lia.
From Stdlib Require Import Numbers.DecimalString.
Import ListNotations.

Local Close Scope Q_scope.
Local Open Scope string_scope.
Local Open Scope list_scope.

(** ** Exceptions and results *)

Inductive exn : Type :=
| AssertionError (msg : string)
| UnboundLocalError (msg : string)
| FstError (msg : string).

Inductive result (A : Type) : Type :=
| Ok (a : A)
| Raise (e : exn).

Arguments Ok {A} a.
Arguments Raise {A} e.

Definition is_ok {A : Type} (r : result A) : bool :=
  match r with Ok _ => true | Raise _ => false end.

(** ** Python string primitives used by the code *)

Module Py.

(** [s.startswith(p)] *)
Definition startswith (s p : string) : bool := String.prefix p s.

(** [s[n:]] *)
Fixpoint slice_from (n : nat) (s : string) : string :=
  match n, s with
  | O, _ => s
  | S _, EmptyString => EmptyString
  | S n', String _ s' => slice_from n' s'
  end.

(** [c in s] for a one-character [c] *)
Fixpoint contains (c : ascii) (s : string) : bool :=
  match s with
  | EmptyString => false
  | String a s' => if Ascii.eqb a c then true else contains c s'
  end.

(** [s.split(c, maxsplit=1)] for an [s] that contains [c]: the text before
    the first [c] and the text after it.  Without a [c] the second
    component is empty (the code only splits after testing [c in s]). *)
Fixpoint split1 (c : ascii) (s : string) : string * string :=
  match s with
  | EmptyString => (EmptyString, EmptyString)
  | String a s' =>
      if Ascii.eqb a c then (EmptyString, s')
      else let (l, r) := split1 c s' in (String a l, r)
  end.

(** [sep.join(l)] *)
Definition join (sep : string) (l : list string) : string :=
  String.concat sep l.

(** truth value of an optional string: [None] and [""] are false *)
Definition truthy (s : option string) : bool :=
  match s with
  | Some (String _ _) => true
  | _ => false
  end.

(** [str(x)] for an optional string, as an f-string renders it *)
Definition str (s : option string) : string :=
  match s with
  | Some t => t
  | None => "None"
  end.

(** [str(n)] for a natural number *)
Definition str_nat (n : nat) : string :=
  NilZero.string_of_uint (Nat.to_uint n).

(** [c.isspace()] on the ASCII range: tab, line feed, vertical tab, form
    feed, carriage return, the four separators 28..31 and the space. *)
Definition isspace (c : ascii) : bool :=
  let n := nat_of_ascii c in
  (Nat.leb 9 n && Nat.leb n 13) || (Nat.leb 28 n && Nat.leb n 32).

(** [c.lower()] on the ASCII range *)
Definition lower_char (c : ascii) : ascii :=
  let n := nat_of_ascii c in
  if Nat.leb 65 n && Nat.leb n 90 then ascii_of_nat (n + 32) else c.

(** [s.lower()] *)
Fixpoint lower (s : string) : string :=
  match s with
  | EmptyString => EmptyString
  | String c s' => String (lower_char c) (lower s')
  end.

(** the line feed that [print] writes after its arguments *)
Definition newline : string := String (ascii_of_nat 10) EmptyString.

(** [s.lstrip()] *)
Fixpoint lstrip (s : string) : string :=
  match s with
  | EmptyString => EmptyString
  | String c s' => if isspace c then lstrip s' else s
  end.

(** [s.rstrip()] *)
Fixpoint rstrip (s : string) : string :=
  match s with
  | EmptyString => EmptyString
  | String c s' =>
      match rstrip s' with
      | EmptyString => if isspace c then EmptyString else String c EmptyString
      | t => String c t
      end
  end.

(** [s.strip()] *)
Definition strip (s : string) : string := rstrip (lstrip s).

(** [re.split(r"\s+", s)]: [cur] is the field being read, [insep] tells
    that the previous character was white space. *)
Fixpoint re_split_ws_aux (s : string) (cur : string) (insep : bool)
  : list string :=
  match s with
  | EmptyString => [cur]
  | String c s' =>
      if isspace c then
        if insep then re_split_ws_aux s' cur true
        else cur :: re_split_ws_aux s' EmptyString true
      else re_split_ws_aux s' (cur ++ String c EmptyString) false
  end.

Definition re_split_ws (s : string) : list string :=
  re_split_ws_aux s EmptyString false.

End Py.

(** ** Intent records *)

Record IntentInfo : Type := mkIntentInfo {
  name : string;
  confidence : Q
}.

Record Entity : Type := mkEntity {
  entity : string;
  value : string
}.

(** The dictionary built by [empty_intent] has no ["tokens"] key; the key is
    added by [symbols2intent].  [tokens = None] stands for the absent key. *)
Record Intent : Type := mkIntent {
  text : string;
  tokens : option (list string);
  intent : IntentInfo;
  entities : list Entity
}.

Definition empty_intent : Intent :=
  mkIntent "" None (mkIntentInfo "" 0%Q) [].

(** ** The symbol decoder: [symbols2intent] *)

(** Local variables of [symbols2intent] that the loop reads and writes.
    [intent_var] is the dictionary [intent]; the loop only appends to its
    ["entities"]. *)
Record locals : Type := mkLocals {
  tag : option string;
  tag_symbols : list string;
  out_symbols : list string;
  intent_var : Intent;
  intent_name : option string
}.

Definition append_entity (i : Intent) (e : Entity) : Intent :=
  mkIntent (text i) (tokens i) (intent i) (entities i ++ [e]).

(** The [assert] of the end-tag branch. *)
Definition mismatch (t : option string) (sym : string) : exn :=
  AssertionError
    ("Mismatched tags: " ++ Py.str t ++ " " ++ Py.slice_from 7 sym).

(** The end-tag branch once the assertion has passed: [t] is the open tag. *)
Definition end_tag (replace_tags : bool) (st : locals) (t : string) : locals :=
  let '(t', tag_value) :=
    if replace_tags && Py.contains ":" t
    then Py.split1 ":" t
    else (t, Py.join " " (tag_symbols st)) in
  mkLocals None (tag_symbols st) (out_symbols st)
           (append_entity (intent_var st) (mkEntity t' tag_value))
           (intent_name st).

(** One iteration of the [for sym in symbols] loop. *)
Definition step (replace_tags : bool) (st : locals) (sym : string)
  : result locals :=
  if String.eqb sym "<eps>" then Ok st
  else if Py.startswith sym "__begin__" then
    Ok (mkLocals (Some (Py.slice_from 9 sym)) [] (out_symbols st)
                 (intent_var st) (intent_name st))
  else if Py.startswith sym "__end__" then
    match tag st with
    | Some t =>
        if String.eqb t (Py.slice_from 7 sym)
        then Ok (end_tag replace_tags st t)
        else Raise (mismatch (tag st) sym)
    | None => Raise (mismatch None sym)
    end
  else if Py.startswith sym "__label__" then
    match intent_name st with
    | None =>
        Ok (mkLocals (tag st) (tag_symbols st) (out_symbols st)
                     (intent_var st) (Some (Py.slice_from 9 sym)))
    | Some _ => Ok st
    end
  else if Py.truthy (tag st) then
    Ok (mkLocals (tag st) (tag_symbols st ++ [sym]) (out_symbols st ++ [sym])
                 (intent_var st) (intent_name st))
  else
    Ok (mkLocals (tag st) (tag_symbols st) (out_symbols st ++ [sym])
                 (intent_var st) (intent_name st)).

(** The whole loop. *)
Fixpoint loop (replace_tags : bool) (st : locals) (symbols : list string)
  : result locals :=
  match symbols with
  | [] => Ok st
  | sym :: rest =>
      match step replace_tags st sym with
      | Ok st' => loop replace_tags st' rest
      | Raise e => Raise e
      end
  end.

(** The statements after the loop. *)
Definition finish (st : locals) : Intent :=
  let i := intent_var st in
  let info :=
    match out_symbols st with
    | [] => intent i
    | _ :: _ =>
        mkIntentInfo
          (match intent_name st with Some n => n | None => "" end) 1%Q
    end in
  mkIntent (Py.join " " (out_symbols st)) (Some (out_symbols st))
           info (entities i).

(** The locals at loop entry: [intent = intent or empty_intent()]; a
    dictionary with the keys of a record is never empty, hence true. *)
Definition init (intent0 : option Intent) (intent_name0 : option string)
  : locals :=
  mkLocals None [] []
           (match intent0 with Some i => i | None => empty_intent end)
           intent_name0.

(** [eps] is a parameter of the Python function that its body never reads:
    the loop compares with the literal ["<eps>"]. *)
Definition symbols2intent (symbols : list string) (eps : string)
  (intent0 : option Intent) (intent_name0 : option string)
  (replace_tags : bool) : result Intent :=
  match loop replace_tags (init intent0 intent_name0) symbols with
  | Ok st => Ok (finish st)
  | Raise e => Raise e
  end.

(** ** Automata, as the code observes them

    The automaton comes from pywrapfst.  The code reads its start state,
    the arcs of a state, the final weight of a state and the output symbol
    table; each of these is a field.  [None] for [arcs] and [final] is a
    state the library rejects (it raises); [None] for [output_symbols] is a
    label whose lookup-and-decode [out_syms.find(l).decode()] raises. *)

Inductive Weight : Type :=
| WZero
| WVal (v : Z).

Definition weight_eqb (a b : Weight) : bool :=
  match a, b with
  | WZero, WZero => true
  | WVal x, WVal y => Z.eqb x y
  | _, _ => false
  end.

Record Arc : Type := mkArc {
  ilabel : Z;
  olabel : Z;
  weight : Weight;
  nextstate : Z
}.

Record Fst : Type := mkFst {
  start : Z;
  arcs : Z -> option (list Arc);
  final : Z -> option Weight;
  output_symbols : Z -> option string
}.

(** [fst.Weight.Zero(in_fst.weight_type())] *)
Definition Weight_Zero (in_fst : Fst) : Weight := WZero.

(** ** The path enumerator: [fstprintall] *)

Definition sentence := list string.

(** What a call leaves behind when it returns: the returned list, the path
    buffer and the text written to [out_file] ([None] without a file). *)
Definition frame : Type := (list sentence * list Arc * option string)%type.

(** [path.pop()] *)
Definition pop (path : list Arc) : result (list Arc) :=
  match path with
  | [] => Raise (FstError "pop from empty list")
  | _ :: _ => Ok (removelast path)
  end.

(** The inner loop [for p_arc in path], run when the arc just pushed ends
    in a final state.  With a file the symbols are printed, each followed
    by a space; without one they are appended to [sentence]. *)
Fixpoint path_symbols (in_fst : Fst) (out_file : option string)
  (exclude_meta : bool) (eps : Z) (path : list Arc) (sent : sentence)
  : result (sentence * option string) :=
  match path with
  | [] => Ok (sent, out_file)
  | p_arc :: rest =>
      if Z.eqb (olabel p_arc) eps
      then path_symbols in_fst out_file exclude_meta eps rest sent
      else
        match output_symbols in_fst (olabel p_arc) with
        | None => Raise (FstError "output symbol")
        | Some osym =>
            if exclude_meta && Py.startswith osym "__"
            then path_symbols in_fst out_file exclude_meta eps rest sent
            else
              match out_file with
              | Some f =>
                  path_symbols in_fst (Some (f ++ osym ++ " ")%string)
                               exclude_meta eps rest sent
              | None =>
                  path_symbols in_fst None exclude_meta eps rest
                               (sent ++ [osym])
              end
        end
  end.

(** The loop [for arc in in_fst.arcs(state)].  [rec] is the recursive call
    on a destination state with the shared path buffer and file. *)
Fixpoint arcs_loop (rec : Z -> list Arc -> option string -> option (result frame))
  (in_fst : Fst) (exclude_meta : bool) (zero_weight : Weight) (eps : Z)
  (al : list Arc) (path : list Arc) (out_file : option string)
  (sentences : list sentence) : option (result frame) :=
  match al with
  | [] => Some (Ok (sentences, path, out_file))
  | arc :: rest =>
      let path1 := path ++ [arc] in
      match final in_fst (nextstate arc) with
      | None => Some (Raise (FstError "final"))
      | Some w =>
          if negb (weight_eqb w zero_weight) then
            match path_symbols in_fst out_file exclude_meta eps path1 [] with
            | Raise e => Some (Raise e)
            | Ok (sent, out_file1) =>
                let sentences1 :=
                  match out_file1 with
                  | Some _ => sentences
                  | None => sentences ++ [sent]
                  end in
                let out_file2 :=
                  match out_file1 with
                  | Some f => Some (f ++ Py.newline)%string
                  | None => None
                  end in
                match pop path1 with
                | Raise e => Some (Raise e)
                | Ok path2 =>
                    arcs_loop rec in_fst exclude_meta zero_weight eps
                              rest path2 out_file2 sentences1
                end
            end
          else
            match rec (nextstate arc) path1 out_file with
            | None => None
            | Some (Raise e) => Some (Raise e)
            | Some (Ok (more, path1', out_file1)) =>
                match pop path1' with
                | Raise e => Some (Raise e)
                | Ok path2 =>
                    arcs_loop rec in_fst exclude_meta zero_weight eps
                              rest path2 out_file1 (sentences ++ more)
                end
            end
      end
  end.

(** [state or in_fst.start()]: [None] and the state [0] are both false. *)
Definition state_or_start (in_fst : Fst) (state : option Z) : Z :=
  match state with
  | Some s => if Z.eqb s 0 then start in_fst else s
  | None => start in_fst
  end.

(** [path or []]: [None] and the empty list give a fresh list. *)
Definition path_or_new (path : option (list Arc)) : list Arc :=
  match path with
  | Some (a :: p) => a :: p
  | _ => []
  end.

(** The caller's buffer after the call: the local list when the two are the
    same object, else the caller's untouched value. *)
Definition caller_path (path : option (list Arc)) (local : list Arc)
  : option (list Arc) :=
  match path with
  | Some (_ :: _) => Some local
  | other => other
  end.

Definition buffer_of (path : option (list Arc)) : list Arc :=
  match path with Some p => p | None => [] end.

(** [fstprintall].  The result is the returned list, the caller's path
    buffer at return and the text written to [out_file].  [None] is a call
    that has not returned within [fuel] nested calls. *)
Fixpoint fstprintall (fuel : nat) (in_fst : Fst) (out_file : option string)
  (exclude_meta : bool) (state : option Z) (path : option (list Arc))
  (zero_weight : option Weight) (eps : Z) {struct fuel}
  : option (result (list sentence * option (list Arc) * option string)) :=
  match fuel with
  | O => None
  | S fuel' =>
      let local := path_or_new path in
      let state' := state_or_start in_fst state in
      let zero_weight' :=
        match zero_weight with
        | Some w => w
        | None => Weight_Zero in_fst
        end in
      match arcs in_fst state' with
      | None => Some (Raise (FstError "arcs"))
      | Some al =>
          let rec := fun (s : Z) (p : list Arc) (f : option string) =>
            match fstprintall fuel' in_fst f exclude_meta (Some s) (Some p)
                              (Some zero_weight') eps with
            | None => None
            | Some (Raise e) => Some (Raise e)
            | Some (Ok (ss, p', f')) => Some (Ok (ss, buffer_of p', f'))
            end in
          match arcs_loop rec in_fst exclude_meta zero_weight' eps
                          al local out_file [] with
          | None => None
          | Some (Raise e) => Some (Raise e)
          | Some (Ok (ss, local', f')) =>
              Some (Ok (ss, caller_path path local', f'))
          end
      end
  end.

(** ** The acceptor builder, the composer and the recognizer *)

Section Recognizer.

(** The library operations used by [linear_fst] and [apply_fst].
    [Compiler_new op acceptor keep_isymbols] is the construction
    [fst.Compiler(isymbols=op.input_symbols().copy(), acceptor=...,
    keep_isymbols=...)], which comes first in [linear_fst] and may raise
    (an automaton without an input table, a refusal of the library);
    [Compiler_compile op acceptor keep_isymbols text] is that compiler fed
    with [text] and compiled; [compose] is [fst.compose];
    [project out project_output] is the automaton [out] after
    [out.project(project_output=...)]. *)
Variable Compiler_new : Fst -> bool -> bool -> result unit.
Variable Compiler_compile : Fst -> bool -> bool -> string -> result Fst.
Variable compose : Fst -> Fst -> result Fst.
Variable project : Fst -> bool -> result Fst.

(** The lines printed to the compiler by the loop of [linear_fst], from
    index [i] on. *)
Fixpoint linear_lines (i : nat) (elements : list string) : string :=
  match elements with
  | [] => ""
  | el :: rest =>
      (Py.str_nat i ++ " " ++ Py.str_nat (i + 1) ++ " " ++ el
         ++ Py.newline ++ linear_lines (i + 1) rest)%string
  end.

(** [linear_fst].  The compiler is made before the loop, so its failure
    comes before anything else.  After the loop the code prints
    [str(i + 1)]: with no element the variable [i] was never bound. *)
Definition linear_fst (elements : list string) (automata_op : Fst)
  (keep_isymbols : bool) : result Fst :=
  match Compiler_new automata_op keep_isymbols keep_isymbols with
  | Raise e => Raise e
  | Ok _ =>
      match elements with
      | [] => Raise (UnboundLocalError "i")
      | _ :: _ =>
          Compiler_compile automata_op keep_isymbols keep_isymbols
            (linear_lines 0 elements
               ++ Py.str_nat (List.length elements) ++ Py.newline)%string
      end
  end.

(** [apply_fst] *)
Definition apply_fst (elements : list string) (automata_op : Fst)
  (is_project : bool) : result Fst :=
  match linear_fst elements automata_op true with
  | Raise e => Raise e
  | Ok linear_automata =>
      match compose linear_automata automata_op with
      | Raise e => Raise e
      | Ok out => if is_project then project out true else Ok out
      end
  end.

(** [intent["intent"]["confidence"] /= n]: the quotient, before the
    rounding of the floating point division. *)
Definition divide_confidence (i : Intent) (n : nat) : Intent :=
  mkIntent (text i) (tokens i)
           (mkIntentInfo (name (intent i))
                         (confidence (intent i) / inject_Z (Z.of_nat n))%Q)
           (entities i).

(** The loop [for out_sentence in out_sentences] inside the [try].  An
    exception leaves the loop for the handler; [intents] keeps what was
    appended before.  The second component tells whether the handler
    ran. *)
Fixpoint decode_paths (n : nat) (intent_name0 : option string)
  (replace_tags : bool) (todo : list sentence) (intents : list Intent)
  : list Intent * bool :=
  match todo with
  | [] => (intents, false)
  | out_sentence :: rest =>
      match symbols2intent out_sentence "<eps>" None intent_name0
                           replace_tags with
      | Raise _ => (intents, true)
      | Ok i =>
          decode_paths n intent_name0 replace_tags rest
                       (intents ++ [divide_confidence i n])
      end
  end.

(** [fstaccept].  The result is the returned list and the sentences
    passed to [logging.exception] (at most one).  [None] is a call whose
    path enumeration has not returned within [fuel] nested calls. *)
Definition fstaccept (fuel : nat) (in_fst : Fst) (sentence0 : string)
  (intent_name0 : option string) (replace_tags : bool)
  : option (list Intent * list string) :=
  let sentence1 := Py.lower (Py.strip sentence0) in
  let words := Py.re_split_ws sentence1 in
  match apply_fst words in_fst true with
  | Raise _ => Some ([], [sentence1])
  | Ok out_fst =>
      match fstprintall fuel out_fst None false None None None 0 with
      | None => None
      | Some (Raise _) => Some ([], [sentence1])
      | Some (Ok (out_sentences, _, _)) =>
          let '(intents, failed) :=
            decode_paths (List.length out_sentences) intent_name0
                         replace_tags out_sentences [] in
          Some (intents, if failed then [sentence1] else [])
      end
  end.

End Recognizer.

(** ** Vocabulary of the properties *)

(** The four ways the decoder reads a symbol that it does not keep. *)
Definition is_eps (sym : string) : bool := String.eqb sym "<eps>".
Definition is_begin (sym : string) : bool := Py.startswith sym "__begin__".
Definition is_end (sym : string) : bool := Py.startswith sym "__end__".
Definition is_label (sym : string) : bool := Py.startswith sym "__label__".

(** A literal token: a symbol that reaches one of the last two branches of
    the loop of [symbols2intent]. *)
Definition is_literal (sym : string) : bool :=
  negb (is_eps sym) && negb (is_begin sym) && negb (is_end sym)
  && negb (is_label sym).

Definition literals (symbols : list string) : list string :=
  filter is_literal symbols.

(** What literal-only mode of [fstprintall] keeps of a symbol sequence. *)
Definition strip_meta (symbols : list string) : list string :=
  filter (fun osym => negb (Py.startswith osym "__")) symbols.

(** The entity appended when the end marker of the open tag [t] is read in
    state [st]. *)
Definition emitted (replace_tags : bool) (st : locals) (t : string) : Entity :=
  if replace_tags && Py.contains ":" t
  then mkEntity (fst (Py.split1 ":" t)) (snd (Py.split1 ":" t))
  else mkEntity t (Py.join " " (tag_symbols st)).

(** The state right after a begin marker [sym] read in state [st]. *)
Definition opened (st : locals) (sym : string) : locals :=
  mkLocals (Some (Py.slice_from 9 sym)) [] (out_symbols st)
           (intent_var st) (intent_name st).

Definition sum_confidence (l : list Intent) : Q :=
  fold_right (fun i acc => (confidence (intent i) + acc)%Q) 0%Q l.

Definition has_tokens (i : Intent) : bool :=
  match tokens i with
  | Some (_ :: _) => true
  | _ => false
  end.

(** Paths of an automaton.  [path_from f s p t]: the arcs [p] lead from
    state [s] to state [t]. *)
Inductive path_from (f : Fst) : Z -> list Arc -> Z -> Prop :=
| path_nil : forall s, path_from f s [] s
| path_cons : forall s al a p t,
    arcs f s = Some al -> In a al ->
    path_from f (nextstate a) p t ->
    path_from f s (a :: p) t.

(** A state with non-zero final weight. *)
Definition accepting (f : Fst) (s : Z) : Prop :=
  exists w, final f s = Some w /\ w <> WZero.

(** [first_hit f s p]: [p] is a non-empty path from [s] whose last arc, and
    no earlier one, ends in an accepting state. *)
Inductive first_hit (f : Fst) : Z -> list Arc -> Prop :=
| hit_last : forall s al a w,
    arcs f s = Some al -> In a al ->
    final f (nextstate a) = Some w -> w <> WZero ->
    first_hit f s [a]
| hit_more : forall s al a p,
    arcs f s = Some al -> In a al ->
    final f (nextstate a) = Some WZero ->
    first_hit f (nextstate a) p ->
    first_hit f s (a :: p).

(** The output projection of a path: the output labels of its arcs in
    order, epsilon (label 0) left out, each resolved in the output symbol
    table; [None] when a label does not resolve. *)
Definition output_labels (p : list Arc) : list Z :=
  filter (fun l => negb (Z.eqb l 0)) (map olabel p).

Fixpoint resolve (f : Fst) (labels : list Z) : option sentence :=
  match labels with
  | [] => Some []
  | l :: rest =>
      match output_symbols f l, resolve f rest with
      | Some osym, Some sent => Some (osym :: sent)
      | _, _ => None
      end
  end.

Definition output_of (f : Fst) (p : list Arc) : option sentence :=
  resolve f (output_labels p).

(** An automaton without a cycle through non-accepting states: [rank]
    decreases along every arc into a non-accepting state. *)
Definition ranked (f : Fst) (rank : Z -> nat) : Prop :=
  forall s al a,
    arcs f s = Some al -> In a al ->
    final f (nextstate a) = Some WZero ->
    (rank (nextstate a) < rank s)%nat.

(** An automaton whose arcs lead to states the library knows and carry
    output labels that resolve. *)
Definition closed (f : Fst) : Prop :=
  arcs f (start f) <> None /\
  forall s al a,
    arcs f s = Some al -> In a al ->
    arcs f (nextstate a) <> None /\
    final f (nextstate a) <> None /\
    (olabel a <> 0%Z -> output_symbols f (olabel a) <> None).

(** A recursive call that gives the path buffer back as it got it. *)
Definition restores
  (rec : Z -> list Arc -> option string -> option (result frame)) : Prop :=
  forall s p fo ss p' fo',
    rec s p fo = Some (Ok (ss, p', fo')) -> p' = p.

(** The result of a call in literal-only mode, from the result of the same
    call in all-symbols mode. *)
Definition stripped (r : option (result frame)) : option (result frame) :=
  match r with
  | Some (Ok (ss, p, fo)) => Some (Ok (map strip_meta ss, p, fo))
  | other => other
  end.

(** How an arc [a] out of a state begins a path counted by [first_hit]: as
    its only arc, into an accepting state, or followed by such a path from
    a non-accepting destination. *)
Definition via (f : Fst) (a : Arc) (q : list Arc) : Prop :=
  (q = [] /\ exists w, final f (nextstate a) = Some w /\ w <> WZero) \/
  (final f (nextstate a) = Some WZero /\ first_hit f (nextstate a) q).

(** The contract of a recursive call of the enumerator on a non-empty
    buffer, in all-symbols mode and without a file. *)
Definition enumerates (f : Fst)
  (rec : Z -> list Arc -> option string -> option (result frame)) : Prop :=
  forall s p ss p' fo,
    p <> [] ->
    rec s p None = Some (Ok (ss, p', fo)) ->
    p' = p /\ fo = None /\
    forall sent,
      In sent ss <->
      exists q, first_hit f s q /\
                path_symbols f None false 0 (p ++ q) [] = Ok (sent, None).

(** Every output label on the path resolves. *)
Definition resolvable (f : Fst) (p : list Arc) : Prop :=
  forall a, In a p ->
    olabel a <> 0%Z -> output_symbols f (olabel a) <> None.

(** A recursive call that returns on the destinations it is given. *)
Definition returns_on (f : Fst)
  (rec : Z -> list Arc -> option string -> option (result frame))
  (al : list Arc) (path : list Arc) : Prop :=
  forall a, In a al -> final f (nextstate a) = Some WZero ->
    exists ss, rec (nextstate a) (path ++ [a]) None
               = Some (Ok (ss, path ++ [a], None)).

(** The record [fstaccept] appends for a path that decodes. *)
Definition decoded (name0 : option string) (replace_tags : bool)
  (n : nat) (s : sentence) : Intent :=
  match symbols2intent s "<eps>" None name0 replace_tags with
  | Ok r => divide_confidence r n
  | Raise _ => empty_intent
  end.


(** ** Concrete automata used to exercise the definitions *)

Module Examples.

(** An automaton given by the table of its states (final weight and
    arcs, indexed by state number) and its output symbol table (indexed
    by label); states and labels outside the tables are rejected. *)
Definition vector_fst (st : Z) (states : list (Weight * list Arc))
  (syms : list string) : Fst :=
  mkFst st
    (fun s => if Z.ltb s 0 then None
              else option_map snd (nth_error states (Z.to_nat s)))
    (fun s => if Z.ltb s 0 then None
              else option_map fst (nth_error states (Z.to_nat s)))
    (fun l => if Z.ltb l 0 then None else nth_error syms (Z.to_nat l)).

Definition symbols : list string :=
  ["<eps>"; "a"; "b"; "__end__x"; "__label__x"; "__foo";
   "__begin__city:Boston"; "boston"; "__end__city:Boston"].

Definition arc (label dest : Z) : Arc := mkArc label label (WVal 0) dest.

(** 0 -a-> 1 -b-> 2, states 1 and 2 accepting. *)
Definition two_finals : Fst :=
  vector_fst 0
    [(WZero, [arc 1 1]); (WVal 0, [arc 2 2]); (WVal 0, [])] symbols.

(** A single accepting state without arcs. *)
Definition only_start : Fst := vector_fst 0 [(WVal 0, [])] symbols.

(** Two paths: [a] and [__end__x]. *)
Definition good_then_bad : Fst :=
  vector_fst 0
    [(WZero, [arc 1 1; arc 3 2]); (WVal 0, []); (WVal 0, [])] symbols.

(** Two paths: [a] and [__label__x]. *)
Definition word_and_label : Fst :=
  vector_fst 0
    [(WZero, [arc 1 1; arc 4 2]); (WVal 0, []); (WVal 0, [])] symbols.

(** One path: [a __foo]. *)
Definition dunder : Fst :=
  vector_fst 0
    [(WZero, [arc 1 1]); (WZero, [arc 5 2]); (WVal 0, [])] symbols.

(** One path: [__begin__city:Boston boston __end__city:Boston __label__x],
    and a second one: [a b]. *)
Definition tagged : Fst :=
  vector_fst 0
    [(WZero, [arc 6 1; arc 1 5]); (WZero, [arc 7 2]); (WZero, [arc 8 3]);
     (WZero, [arc 4 4]); (WVal 0, []); (WZero, [arc 2 4])] symbols.

(** Start state 1: 1 -a-> 0 -b-> 2, state 2 accepting. *)
Definition start_is_1 : Fst :=
  vector_fst 1
    [(WZero, [arc 2 2]); (WZero, [arc 1 0]); (WVal 0, [])] symbols.

Definition rank_by_table (n : Z) (s : Z) : nat := Z.to_nat (n - s).

(** Library operations that hand back the grammar unchanged: the
    composed automaton of a call is then the automaton it was given. *)
Definition compiler_ok (op : Fst) (acceptor keep : bool) : result unit :=
  Ok tt.
Definition compile_id (op : Fst) (acceptor keep : bool) (text : string)
  : result Fst := Ok op.
Definition compose_right (a b : Fst) : result Fst := Ok b.
Definition project_id (f : Fst) (project_output : bool) : result Fst := Ok f.

(** A composition that fails. *)
Definition compose_fails (a b : Fst) : result Fst :=
  Raise (FstError "compose").

End Examples.
(** ** Vocabulary of the further properties *)

(** A symbol sequence cut into flat segments: stretches without begin or
    end marker, and tags with their body. *)
Inductive segment : Type :=
| Plain (syms : list string)
| Tagged (t : string) (body : list string).

Definition no_tag_marker (l : list string) : Prop :=
  forall sym, In sym l -> is_begin sym = false /\ is_end sym = false.

Definition segment_ok (s : segment) : Prop :=
  match s with
  | Plain l => no_tag_marker l
  | Tagged _ body => no_tag_marker body
  end.

Definition flatten1 (s : segment) : list string :=
  match s with
  | Plain l => l
  | Tagged t body =>
      ("__begin__" ++ t)%string :: body ++ [("__end__" ++ t)%string]
  end.

Definition flatten (segs : list segment) : list string :=
  flat_map flatten1 segs.

(** The entity a tag [t] with body [body] stands for. *)
Definition entity_of (replace_tags : bool) (t : string) (body : list string)
  : Entity :=
  if replace_tags && Py.contains ":" t
  then mkEntity (fst (Py.split1 ":" t)) (snd (Py.split1 ":" t))
  else mkEntity t (match t with
                   | EmptyString => ""
                   | String _ _ => Py.join " " (literals body)
                   end).

Fixpoint entities_of (replace_tags : bool) (segs : list segment)
  : list Entity :=
  match segs with
  | [] => []
  | Plain _ :: rest => entities_of replace_tags rest
  | Tagged t body :: rest =>
      entity_of replace_tags t body :: entities_of replace_tags rest
  end.

(** The name given by the first label marker of a sequence. *)
Definition first_label (symbols : list string) : option string :=
  match find is_label symbols with
  | Some sym => Some (Py.slice_from 9 sym)
  | None => None
  end.

(** The record the decoder starts from. *)
Definition initial_intent (intent0 : option Intent) : Intent :=
  match intent0 with Some i => i | None => empty_intent end.

(** Two decoder states that differ at most in the entities collected, of
    which they hold the same number. *)
Definition same_but_entities (a b : locals) : Prop :=
  tag a = tag b /\
  tag_symbols a = tag_symbols b /\
  out_symbols a = out_symbols b /\
  intent_name a = intent_name b /\
  intent (intent_var a) = intent (intent_var b) /\
  List.length (entities (intent_var a))
  = List.length (entities (intent_var b)).

(** Two outcomes of the decoder that agree: the same exception, or records
    that differ at most in their entities, of which they hold the same
    number. *)
Definition agree_but_entities (x y : result Intent) : Prop :=
  match x, y with
  | Ok r1, Ok r2 =>
      text r1 = text r2 /\ tokens r1 = tokens r2 /\ intent r1 = intent r2 /\
      List.length (entities r1) = List.length (entities r2)
  | Raise e1, Raise e2 => e1 = e2
  | _, _ => False
  end.

(** What [fstprintall] prints for one path, and for a list of paths: each
    symbol followed by a space, each path closed by a line feed. *)
Definition print_symbols (sent : sentence) : string :=
  fold_right (fun osym rest => (osym ++ " " ++ rest)%string) "" sent.

Definition print_lines (ss : list sentence) : string :=
  fold_right
    (fun sent rest => (print_symbols sent ++ Py.newline ++ rest)%string)
    "" ss.

(** The outcome of a call with a file that holds [t], from the outcome of
    the same call without a file. *)
Definition printed {P : Type} (t : string)
  (r : option (result (list sentence * P * option string)))
  : option (result (list sentence * P * option string)) :=
  match r with
  | Some (Ok (ss, p, _)) =>
      Some (Ok ([], p, Some (t ++ print_lines ss)%string))
  | other => other
  end.

(** A set of states that the enumeration cannot leave: from each of them
    some arc leads to a non-accepting state that is read as a state of the
    set again. *)
Definition trap (f : Fst) (S : Z -> Prop) : Prop :=
  forall s, S s ->
    exists al a,
      arcs f s = Some al /\ In a al /\
      final f (nextstate a) = Some WZero /\
      S (state_or_start f (Some (nextstate a))).

(** A call that has come back with a list. *)
Definition returned {A : Type} (r : option (result A)) : Prop :=
  exists a, r = Some (Ok a).

(** A recursive call that leaves no file behind when given none. *)
Definition keeps_no_file
  (rec : Z -> list Arc -> option string -> option (result frame)) : Prop :=
  forall s p ss p' fo, rec s p None = Some (Ok (ss, p', fo)) -> fo = None.

(** A recursive call that, given the buffer with the arcs [pth] in front,
    returns the same sentences with the symbols [pre] in front. *)
Definition prefixes (pth : list Arc) (pre : sentence)
  (rec : Z -> list Arc -> option string -> option (result frame)) : Prop :=
  forall s p ss p' fo,
    rec s p None = Some (Ok (ss, p', fo)) ->
    p' = p /\ fo = None /\
    rec s (pth ++ p) None = Some (Ok (map (app pre) ss, pth ++ p, None)).

(** Strings seen as sequences of characters. *)
Fixpoint all_chars (p : ascii -> bool) (s : string) : bool :=
  match s with
  | EmptyString => true
  | String c s' => p c && all_chars p s'
  end.

(** A string of white space only (the empty string included). *)
Definition blank (s : string) : bool := all_chars Py.isspace s.

Definition starts_nonspace (s : string) : bool :=
  match s with
  | EmptyString => false
  | String c _ => negb (Py.isspace c)
  end.

(** The empty string, or a string that does not end in white space. *)
Fixpoint ends_ok (s : string) : bool :=
  match s with
  | EmptyString => true
  | String c EmptyString => negb (Py.isspace c)
  | String _ s' => ends_ok s'
  end.

Definition nonspace (c : ascii) : bool := negb (Py.isspace c).

Definition lowered (c : ascii) : bool := Ascii.eqb (Py.lower_char c) c.

(** The words [fstaccept] makes of a sentence. *)
Definition sentence_words (sentence0 : string) : list string :=
  Py.re_split_ws (Py.lower (Py.strip sentence0)).

(** A word as tokenization gives them for a sentence that is not blank:
    not empty, without white space, without upper case letter. *)
Definition word_ok (w : string) : Prop :=
  w <> "" /\
  all_chars nonspace w = true /\
  all_chars lowered w = true.

(** Two records that differ at most in their entities, of which they hold
    the same number. *)
Definition alike (r1 r2 : Intent) : Prop :=
  text r1 = text r2 /\ tokens r1 = tokens r2 /\ intent r1 = intent r2 /\
  List.length (entities r1) = List.length (entities r2).

(** The number of paths at the front of the list that decode. *)
Fixpoint decodable_prefix (name0 : option string) (replace_tags : bool)
  (paths : list sentence) : nat :=
  match paths with
  | [] => 0
  | s :: rest =>
      if is_ok (symbols2intent s "<eps>" None name0 replace_tags)
      then S (decodable_prefix name0 replace_tags rest)
      else 0
  end.

Module MoreExamples.

(** A compiler that gives the automaton it is passed for the one-word
    sentence [a], and an automaton without path for any other text, with
    a composition that hands back its left operand: the composed
    automaton of a call then depends on the sentence. *)
Definition compile_word_a (op : Fst) (acceptor keep : bool) (text : string)
  : result Fst :=
  if String.eqb text ("0 1 a" ++ Py.newline ++ "1" ++ Py.newline)
  then Ok op
  else Ok (Examples.vector_fst 0 [(WZero, [])] Examples.symbols).
Definition compose_left (a b : Fst) : result Fst := Ok a.

(** 0 -a-> 1 -b-> 1, 1 -a-> 2, state 2 accepting: a loop on state 1. *)
Definition cyclic : Fst :=
  Examples.vector_fst 0
    [(WZero, [Examples.arc 1 1]);
     (WZero, [Examples.arc 1 2; Examples.arc 2 1]);
     (WVal 0, [])] Examples.symbols.

(** Two paths: [__end__x] and [a]. *)
Definition bad_then_good : Fst :=
  Examples.vector_fst 0
    [(WZero, [Examples.arc 3 1; Examples.arc 1 2]); (WVal 0, []);
     (WVal 0, [])] Examples.symbols.

(** Three paths: [a], [__end__x] and [b]. *)
Definition good_bad_good : Fst :=
  Examples.vector_fst 0
    [(WZero, [Examples.arc 1 1; Examples.arc 3 2; Examples.arc 2 3]);
     (WVal 0, []); (WVal 0, []); (WVal 0, [])] Examples.symbols.

End MoreExamples.

(** ** The command line: [main]

    [os.path] is read with its POSIX meaning. *)

Module OsPath.

(** [os.path.split(p)[1]]: what follows the last slash. *)
Fixpoint basename (p : string) : string :=
  match p with
  | EmptyString => EmptyString
  | String c p' =>
      if Py.contains "/" p' then basename p'
      else if Ascii.eqb c "/" then p' else p
  end.

(** The text before the last dot, if there is a dot. *)
Fixpoint before_last_dot (s : string) : option string :=
  match s with
  | EmptyString => None
  | String c s' =>
      match before_last_dot s' with
      | Some pre => Some (String c pre)
      | None => if Ascii.eqb c "." then Some EmptyString else None
      end
  end.

Fixpoint only_dots (s : string) : bool :=
  match s with
  | EmptyString => true
  | String c s' => Ascii.eqb c "." && only_dots s'
  end.

(** [os.path.splitext(t)[0]] for a [t] without slash: [t] up to its last
    dot, unless nothing but dots comes before that dot. *)
Definition splitext_root (t : string) : string :=
  match before_last_dot t with
  | Some pre => if only_dots pre then t else pre
  | None => t
  end.

End OsPath.

(** A dictionary with string keys, in insertion order. *)
Definition dict (V : Type) : Type := list (string * V).

(** [d[k] = v]: a present key keeps its place and takes the new value, an
    absent key is added at the end. *)
Fixpoint dict_set {V : Type} (d : dict V) (k : string) (v : V) : dict V :=
  match d with
  | [] => [(k, v)]
  | (k', v') :: rest =>
      if String.eqb k' k then (k, v) :: rest
      else (k', v') :: dict_set rest k v
  end.

Fixpoint dict_get {V : Type} (d : dict V) (k : string) : option V :=
  match d with
  | [] => None
  | (k', v') :: rest => if String.eqb k' k then Some v' else dict_get rest k
  end.

Section Main.

Variable Compiler_new : Fst -> bool -> bool -> result unit.
Variable Compiler_compile : Fst -> bool -> bool -> string -> result Fst.
Variable compose : Fst -> Fst -> result Fst.
Variable project : Fst -> bool -> result Fst.

(** The loop [for sentence in args.sentences] of [main]: [results] is the
    dictionary, [log] what has been passed to [logging.exception]. *)
Fixpoint main_loop (fuel : nat) (grammar_fst : Fst)
  (intent_name0 : string) (replace_tags : bool) (sentences : list string)
  (results : dict (list Intent)) (log : list string)
  : option (dict (list Intent) * list string) :=
  match sentences with
  | [] => Some (results, log)
  | sentence0 :: rest =>
      match fstaccept Compiler_new Compiler_compile compose project
                      fuel grammar_fst
                      sentence0 (Some intent_name0) replace_tags with
      | None => None
      | Some (intents, lg) =>
          main_loop fuel grammar_fst intent_name0 replace_tags rest
                    (dict_set results sentence0 intents) (log ++ lg)
      end
  end.

(** [main] from the parsed arguments to the dictionary it prints:
    [grammar_fst] is what [fst.Fst.read(args.fst)] returned, [fst_path] is
    [args.fst], [sentences] is [args.sentences] and [dont_replace] is
    [args.dont_replace].  Reading the file and printing the dictionary as
    JSON are left out. *)
Definition main_results (fuel : nat) (grammar_fst : Fst) (fst_path : string)
  (sentences : list string) (dont_replace : bool)
  : option (dict (list Intent) * list string) :=
  let intent_name0 := OsPath.splitext_root (OsPath.basename fst_path) in
  main_loop fuel grammar_fst intent_name0 (negb dont_replace) sentences
            [] [].

End Main.

(** Reading back the text handed to the compiler: its lines (each closed
    by a line feed) and the fields of a line (separated by white space). *)
Fixpoint split_lines_aux (s cur : string) : list string :=
  match s with
  | EmptyString =>
      match cur with
      | EmptyString => []
      | _ => [cur]
      end
  | String c s' =>
      if Ascii.eqb c (ascii_of_nat 10)
      then cur :: split_lines_aux s' EmptyString
      else split_lines_aux s' (cur ++ String c EmptyString)
  end.

Definition split_lines (s : string) : list string :=
  split_lines_aux s EmptyString.

(** The fields expected for the arcs of a chain over [ws], from state
    [i] on: source state, destination state, word. *)
Fixpoint chain_fields (i : nat) (ws : list string) : list (list string) :=
  match ws with
  | [] => []
  | w :: rest =>
      [Py.str_nat i; Py.str_nat (i + 1); w] :: chain_fields (i + 1) rest
  end.

(** ** Strings *)

Lemma prefix_split (p s : string) :
  String.prefix p s = true ->
  s = (p ++ Py.slice_from (String.length p) s)%string.
Proof.
  revert s.
  induction p as [|c p IH]; intros s H.
  - reflexivity.
  - destruct s as [|d s]; simpl in H; [discriminate|].
    destruct (ascii_dec c d) as [->|]; [|discriminate].
    simpl. f_equal. apply IH, H.
Qed.



(** ** Reading one symbol *)

Section Decoder.

Variable replace_tags : bool.

Lemma begin_not_eps sym : is_begin sym = true -> is_eps sym = false.
Proof.
  unfold is_begin, is_eps, Py.startswith. intros H.
  apply prefix_split in H. rewrite H. reflexivity.
Qed.

Lemma end_not_eps sym : is_end sym = true -> is_eps sym = false.
Proof.
  unfold is_end, is_eps, Py.startswith. intros H.
  apply prefix_split in H. rewrite H. reflexivity.
Qed.

Lemma end_not_begin sym : is_end sym = true -> is_begin sym = false.
Proof.
  unfold is_end, is_begin, Py.startswith. intros H.
  apply prefix_split in H. rewrite H. reflexivity.
Qed.

Lemma step_begin st sym :
  is_begin sym = true -> step replace_tags st sym = Ok (opened st sym).
Proof.
  intros H. unfold step.
  fold (is_eps sym). rewrite (begin_not_eps _ H).
  fold (is_begin sym). rewrite H. reflexivity.
Qed.

Lemma step_end st sym :
  is_end sym = true ->
  step replace_tags st sym =
  match tag st with
  | Some t =>
      if String.eqb t (Py.slice_from 7 sym)
      then Ok (end_tag replace_tags st t)
      else Raise (mismatch (tag st) sym)
  | None => Raise (mismatch None sym)
  end.
Proof.
  intros H. unfold step.
  fold (is_eps sym). rewrite (end_not_eps _ H).
  fold (is_begin sym). rewrite (end_not_begin _ H).
  fold (is_end sym). rewrite H. reflexivity.
Qed.

Lemma end_tag_entities st t :
  entities (intent_var (end_tag replace_tags st t)) =
  entities (intent_var st) ++ [emitted replace_tags st t].
Proof.
  unfold end_tag, emitted.
  destruct (replace_tags && Py.contains ":" t).
  - destruct (Py.split1 ":" t); reflexivity.
  - reflexivity.
Qed.

Lemma end_tag_out_symbols st t :
  out_symbols (end_tag replace_tags st t) = out_symbols st.
Proof.
  unfold end_tag.
  destruct (if replace_tags && Py.contains ":" t then _ else _); reflexivity.
Qed.

Lemma loop_app st l1 l2 :
  loop replace_tags st (l1 ++ l2) =
  match loop replace_tags st l1 with
  | Ok st' => loop replace_tags st' l2
  | Raise e => Raise e
  end.
Proof.
  revert st. induction l1 as [|sym l1 IH]; intros st; simpl.
  - reflexivity.
  - destruct (step replace_tags st sym); [apply IH|reflexivity].
Qed.

Lemma step_out_symbols st sym st' :
  step replace_tags st sym = Ok st' ->
  out_symbols st' = out_symbols st ++ literals [sym].
Proof.
  unfold step, literals, is_literal. simpl.
  fold (is_eps sym) (is_begin sym) (is_end sym) (is_label sym).
  destruct (is_eps sym); simpl.
  { intros [= <-]. now rewrite app_nil_r. }
  destruct (is_begin sym); simpl.
  { intros [= <-]. simpl. now rewrite app_nil_r. }
  destruct (is_end sym); simpl.
  { destruct (tag st) as [t|]; [|discriminate].
    destruct (String.eqb t _); [|discriminate].
    intros [= <-]. rewrite end_tag_out_symbols. now rewrite app_nil_r. }
  destruct (is_label sym); simpl.
  { destruct (intent_name st); intros [= <-]; simpl; now rewrite app_nil_r. }
  destruct (Py.truthy (tag st)); intros [= <-]; reflexivity.
Qed.

Lemma loop_out_symbols st l st' :
  loop replace_tags st l = Ok st' ->
  out_symbols st' = out_symbols st ++ literals l.
Proof.
  revert st. induction l as [|sym l IH]; intros st; simpl.
  - intros [= <-]. now rewrite app_nil_r.
  - destruct (step replace_tags st sym) as [st1|] eqn:E; [|discriminate].
    intros H. rewrite (IH _ H), (step_out_symbols _ _ _ E).
    rewrite <- app_assoc. f_equal.
    unfold literals. simpl. destruct (is_literal sym); reflexivity.
Qed.

End Decoder.

(** ** Entities and whole sequences *)

Section Sequences.

Variable replace_tags : bool.

Lemma step_entities st sym st' :
  step replace_tags st sym = Ok st' ->
  entities (intent_var st') = entities (intent_var st) \/
  (is_end sym = true /\ tag st = Some (Py.slice_from 7 sym) /\
   entities (intent_var st') =
   entities (intent_var st)
     ++ [emitted replace_tags st (Py.slice_from 7 sym)]).
Proof.
  unfold step.
  fold (is_eps sym) (is_begin sym) (is_end sym) (is_label sym).
  destruct (is_eps sym); [intros [= <-]; now left|].
  destruct (is_begin sym); [intros [= <-]; now left|].
  destruct (is_end sym).
  { destruct (tag st) as [t|]; [|discriminate].
    destruct (String.eqb_spec t (Py.slice_from 7 sym)) as [->|]; [|discriminate].
    intros [= <-]. right. repeat split. apply end_tag_entities. }
  destruct (is_label sym).
  { destruct (intent_name st); intros [= <-]; now left. }
  destruct (Py.truthy (tag st)); intros [= <-]; now left.
Qed.

Lemma loop_entities_prefix st l st' :
  loop replace_tags st l = Ok st' ->
  exists later,
    entities (intent_var st') = entities (intent_var st) ++ later.
Proof.
  revert st. induction l as [|sym l IH]; intros st; simpl.
  - intros [= <-]. exists []. now rewrite app_nil_r.
  - destruct (step replace_tags st sym) as [st1|] eqn:E; [|discriminate].
    intros H. destruct (IH _ H) as [later ->].
    destruct (step_entities _ _ _ E) as [->|(_ & _ & ->)].
    + now exists later.
    + rewrite <- app_assoc. eauto.
Qed.

(** Every entity of the final state was there at the start or was
    appended by an end marker that closed the open tag. *)
Lemma loop_entity_origin l : forall st st' e,
  loop replace_tags st l = Ok st' ->
  In e (entities (intent_var st')) ->
  In e (entities (intent_var st)) \/
  exists pre sym post stp,
    l = pre ++ sym :: post /\ is_end sym = true /\
    loop replace_tags st pre = Ok stp /\
    tag stp = Some (Py.slice_from 7 sym) /\
    e = emitted replace_tags stp (Py.slice_from 7 sym).
Proof.
  induction l as [|sym l IH]; intros st st' e; simpl.
  - intros [= <-] H. now left.
  - destruct (step replace_tags st sym) as [st1|] eqn:E; [|discriminate].
    intros H Hin.
    destruct (IH _ _ _ H Hin) as [Hin1|(pre & s & post & stp & -> & Hs & Hl & Ht & He)].
    + destruct (step_entities _ _ _ E) as [Heq|(Hend & Ht & Heq)];
        rewrite Heq in Hin1.
      * now left.
      * apply in_app_or in Hin1. destruct Hin1 as [Hin1|[<-|[]]].
        -- now left.
        -- right. exists [], sym, l, st. repeat split; auto.
    + right. exists (sym :: pre), s, post, stp. simpl. rewrite E.
      repeat split; auto.
Qed.

(** Two states with the same open tag and tag buffer read a sequence
    alike: both succeed, with the same entities appended. *)
Lemma loop_synchronised l : forall st1 st2 st1',
  tag st1 = tag st2 -> tag_symbols st1 = tag_symbols st2 ->
  loop replace_tags st1 l = Ok st1' ->
  exists st2' later,
    loop replace_tags st2 l = Ok st2' /\
    entities (intent_var st1') = entities (intent_var st1) ++ later /\
    entities (intent_var st2') = entities (intent_var st2) ++ later.
Proof.
  induction l as [|sym l IH]; intros st1 st2 st1' Ht Hb; simpl.
  - intros [= <-]. exists st2, []. now rewrite !app_nil_r.
  - unfold step.
    fold (is_eps sym) (is_begin sym) (is_end sym) (is_label sym).
    rewrite <- Ht.
    destruct (is_eps sym); [now apply IH|].
    destruct (is_begin sym).
    { intros H. exact (IH (opened st1 sym) (opened st2 sym) _ eq_refl eq_refl H). }
    destruct (is_end sym).
    { destruct (tag st1) as [t|]; [|discriminate].
      destruct (String.eqb t (Py.slice_from 7 sym)); [|discriminate].
      intros H.
      destruct (IH (end_tag replace_tags st1 t) (end_tag replace_tags st2 t)
                   st1') as (st2' & later & H2 & E1 & E2); auto.
      { unfold end_tag.
        destruct (if replace_tags && Py.contains ":" t then _ else _),
                 (if replace_tags && Py.contains ":" t then _ else _);
          reflexivity. }
      { unfold end_tag.
        destruct (if replace_tags && Py.contains ":" t then _ else _),
                 (if replace_tags && Py.contains ":" t then _ else _);
          simpl; auto. }
      exists st2', (emitted replace_tags st1 t :: later).
      split; [exact H2|].
      rewrite E1, E2, !end_tag_entities, <- !app_assoc. simpl.
      unfold emitted. rewrite Hb. auto. }
    destruct (is_label sym).
    { intros H.
      destruct (intent_name st1), (intent_name st2);
        refine (IH _ _ _ _ _ H); simpl; auto. }
    intros H.
    destruct (Py.truthy (tag st1));
      refine (IH _ _ _ _ _ H); simpl; auto; congruence.
Qed.

(** A tag that no later end marker names can be forgotten: the rest of
    the sequence reads as it would with no tag open. *)
Lemma loop_unclosed name l :
  ~ In ("__end__" ++ name)%string l ->
  forall st1 st2 st1',
  tag st1 = Some name -> tag st2 = None ->
  loop replace_tags st1 l = Ok st1' ->
  exists st2' later,
    loop replace_tags st2 l = Ok st2' /\
    entities (intent_var st1') = entities (intent_var st1) ++ later /\
    entities (intent_var st2') = entities (intent_var st2) ++ later.
Proof.
  induction l as [|sym l IH]; intros Hnot st1 st2 st1' H1 H2; simpl.
  - intros [= <-]. exists st2, []. now rewrite !app_nil_r.
  - assert (Hl : ~ In ("__end__" ++ name)%string l) by (intros ?; apply Hnot; now right).
    destruct (is_begin sym) eqn:Eb.
    { rewrite !step_begin by exact Eb. intros H.
      exact (loop_synchronised l (opened st1 sym) (opened st2 sym) _ eq_refl eq_refl H). }
    destruct (is_end sym) eqn:Ee.
    { rewrite (step_end _ st1) by exact Ee. rewrite H1.
      destruct (String.eqb_spec name (Py.slice_from 7 sym)) as [Hn|]; [|discriminate].
      exfalso. apply Hnot. left. rewrite Hn.
      exact (prefix_split "__end__" sym Ee). }
    unfold step.
    fold (is_eps sym) (is_begin sym) (is_end sym) (is_label sym).
    rewrite Eb, Ee.
    destruct (is_eps sym); [now apply IH|].
    destruct (is_label sym).
    { intros H.
      destruct (intent_name st1), (intent_name st2);
        refine (IH Hl _ _ _ _ _ H); simpl; auto. }
    rewrite H1, H2. intros H.
    destruct (Py.truthy (Some name));
      refine (IH Hl _ _ _ _ _ H); simpl; auto.
Qed.

Lemma finish_entities st :
  entities (finish st) = entities (intent_var st).
Proof. reflexivity. Qed.

Lemma literals_app l1 l2 : literals (l1 ++ l2) = literals l1 ++ literals l2.
Proof. apply filter_app. Qed.

Lemma begin_not_literal sym : is_begin sym = true -> is_literal sym = false.
Proof.
  intros H. unfold is_literal. rewrite H, !andb_false_r. reflexivity.
Qed.

Lemma literals_skip_begin pre sym post :
  is_begin sym = true ->
  literals (pre ++ sym :: post) = literals (pre ++ post).
Proof.
  intros H. rewrite !literals_app. f_equal.
  unfold literals. simpl. now rewrite (begin_not_literal _ H).
Qed.

(** The text and the tokens of a decoded sequence are its literal
    symbols, whatever the tags around them. *)
Lemma symbols2intent_tokens symbols eps intent0 name0 r :
  symbols2intent symbols eps intent0 name0 replace_tags = Ok r ->
  tokens r = Some (literals symbols) /\
  text r = Py.join " " (literals symbols).
Proof.
  unfold symbols2intent.
  destruct (loop replace_tags (init intent0 name0) symbols) as [st|] eqn:E;
    [|discriminate].
  intros [= <-]. apply loop_out_symbols in E. simpl in E.
  unfold finish. simpl. rewrite E. auto.
Qed.

End Sequences.

(** ** Properties of the symbol decoder *)

(** When the loop of [symbols2intent] reaches an end marker whose name
    differs from the open tag (or no tag is open), the call raises the
    assertion error of that marker, whatever follows it. *)
Lemma mismatched_end_raises (replace_tags : bool) (pre : list string)
  (sym : string) (post : list string) (eps : string)
  (intent0 : option Intent) (name0 : option string) (st : locals) :
  loop replace_tags (init intent0 name0) pre = Ok st ->
  is_end sym = true ->
  tag st <> Some (Py.slice_from 7 sym) ->
  symbols2intent (pre ++ sym :: post) eps intent0 name0 replace_tags
  = Raise (mismatch (tag st) sym).
Proof.
  intros Hpre Hend Hneq.
  unfold symbols2intent. rewrite loop_app, Hpre. simpl.
  rewrite (step_end _ _ _ Hend).
  destruct (tag st) as [t|]; [|reflexivity].
  destruct (String.eqb_spec t (Py.slice_from 7 sym)) as [->|]; [|reflexivity].
  now contradiction Hneq.
Qed.

(** C4, as stated, fails: with the replacement policy disabled the entity
    name of a tag [city:Boston] is the whole tag name, colon and suffix
    included, not the part before the colon. *)
Lemma entity_name_before_colon_counterexample :
  symbols2intent ["__begin__city:Boston"; "boston"; "__end__city:Boston"]
                 "<eps>" None None false
  = Ok (mkIntent "boston" (Some ["boston"]) (mkIntentInfo "" 1)
                 [mkEntity "city:Boston" "boston"])
  /\ "city:Boston" <> fst (Py.split1 ":" "city:Boston").
Proof. split; [reflexivity|vm_compute; discriminate]. Qed.

(** C4, amended.  Every entity of a decoded record was either in the
    record passed in or appended by an end marker [__end__<t>] read while
    the tag [t] was open.  When the replacement policy is enabled and [t]
    contains a colon, the entity name is the part of [t] before the first
    colon and the value the part after it; otherwise the entity name is [t]
    as a whole and the value the space-joined tag buffer. *)
Theorem entity_name_by_policy (replace_tags : bool) (symbols : list string)
  (eps : string) (intent0 : option Intent) (name0 : option string)
  (r : Intent) (e : Entity) :
  symbols2intent symbols eps intent0 name0 replace_tags = Ok r ->
  In e (entities r) ->
  In e (entities (intent_var (init intent0 name0))) \/
  exists pre sym post st t,
    symbols = pre ++ sym :: post /\
    sym = ("__end__" ++ t)%string /\
    loop replace_tags (init intent0 name0) pre = Ok st /\
    tag st = Some t /\
    entity e = (if replace_tags && Py.contains ":" t
                then fst (Py.split1 ":" t) else t) /\
    value e = (if replace_tags && Py.contains ":" t
               then snd (Py.split1 ":" t)
               else Py.join " " (tag_symbols st)).
Proof.
  unfold symbols2intent.
  destruct (loop replace_tags (init intent0 name0) symbols) as [st'|] eqn:E;
    [|discriminate].
  intros [= <-] Hin. rewrite finish_entities in Hin.
  destruct (loop_entity_origin _ _ _ _ _ E Hin)
    as [H|(pre & sym & post & stp & -> & Hend & Hl & Ht & ->)].
  - now left.
  - right. exists pre, sym, post, stp, (Py.slice_from 7 sym).
    repeat split; auto.
    + exact (prefix_split "__end__" sym Hend).
    + unfold emitted. now destruct (replace_tags && _).
    + unfold emitted. now destruct (replace_tags && _).
Qed.

Lemma entity_name_by_policy_witness :
  In (mkEntity "city:Boston" "boston")
     (entities (intent_var (init None None))) \/
  exists pre sym post st t,
    ["__begin__city:Boston"; "boston"; "__end__city:Boston"]
    = pre ++ sym :: post /\
    sym = ("__end__" ++ t)%string /\
    loop false (init None None) pre = Ok st /\
    tag st = Some t /\
    entity (mkEntity "city:Boston" "boston")
    = (if false && Py.contains ":" t then fst (Py.split1 ":" t) else t) /\
    value (mkEntity "city:Boston" "boston")
    = (if false && Py.contains ":" t then snd (Py.split1 ":" t)
       else Py.join " " (tag_symbols st)).
Proof.
  apply (entity_name_by_policy false
           ["__begin__city:Boston"; "boston"; "__end__city:Boston"] "<eps>"
           None None
           (mkIntent "boston" (Some ["boston"]) (mkIntentInfo "" 1)
                     [mkEntity "city:Boston" "boston"])).
  - reflexivity.
  - left. reflexivity.
Defined.

(** C8, as stated, fails: a sequence with a begin marker inside an open tag
    does raise as soon as the outer tag is closed, because the inner begin
    marker replaced the open tag. *)
Lemma nested_begin_no_error_counterexample :
  loop true (init None None) ["__begin__a"]
  = Ok (mkLocals (Some "a") [] [] empty_intent None)
  /\ is_begin "__begin__b" = true
  /\ symbols2intent
       (["__begin__a"] ++ "__begin__b" :: ["x"; "__end__b"; "__end__a"])
       "<eps>" None None true
     = Raise (AssertionError "Mismatched tags: None a").
Proof. repeat split. Qed.

(** C8, amended.  A begin marker [__begin__<b>] read while a tag [a] is
    open raises nothing by itself: the state after it has [b] as the open
    tag, an empty tag buffer, and the output buffer and entities of before
    (nothing is emitted for [a]).  The call then behaves as the rest of the
    sequence does from that state; when it returns, text and tokens are the
    literal symbols of the whole sequence, those read inside [a]
    included, and the entities of before are kept in front. *)
Theorem nested_begin_replaces_tag (replace_tags : bool) (pre : list string)
  (sym : string) (post : list string) (eps : string)
  (intent0 : option Intent) (name0 : option string) (st : locals)
  (a : string) :
  loop replace_tags (init intent0 name0) pre = Ok st ->
  tag st = Some a ->
  is_begin sym = true ->
  loop replace_tags (init intent0 name0) (pre ++ [sym])
  = Ok (mkLocals (Some (Py.slice_from 9 sym)) [] (out_symbols st)
                 (intent_var st) (intent_name st))
  /\ symbols2intent (pre ++ sym :: post) eps intent0 name0 replace_tags
     = match loop replace_tags (opened st sym) post with
       | Ok st' => Ok (finish st')
       | Raise e => Raise e
       end
  /\ forall r,
       symbols2intent (pre ++ sym :: post) eps intent0 name0 replace_tags
       = Ok r ->
       tokens r = Some (literals (pre ++ post)) /\
       text r = Py.join " " (literals (pre ++ post)) /\
       exists later, entities r = entities (intent_var st) ++ later.
Proof.
  intros Hpre Ha Hb.
  assert (Hcall : symbols2intent (pre ++ sym :: post) eps intent0 name0
                                 replace_tags
                  = match loop replace_tags (opened st sym) post with
                    | Ok st' => Ok (finish st')
                    | Raise e => Raise e
                    end).
  { unfold symbols2intent. rewrite loop_app, Hpre. simpl.
    now rewrite (step_begin _ _ _ Hb). }
  split; [|split].
  - rewrite loop_app, Hpre. simpl. now rewrite (step_begin _ _ _ Hb).
  - exact Hcall.
  - intros r Hr.
    destruct (symbols2intent_tokens _ _ _ _ _ _ Hr) as [Htok Htext].
    rewrite (literals_skip_begin _ _ _ Hb) in Htok, Htext.
    repeat split; auto.
    rewrite Hcall in Hr.
    destruct (loop replace_tags (opened st sym) post) as [st'|] eqn:E;
      [|discriminate].
    injection Hr as <-.
    destruct (loop_entities_prefix _ _ _ _ E) as [later Hl].
    exists later. rewrite finish_entities. exact Hl.
Qed.

Lemma nested_begin_replaces_tag_witness :
  loop true (init None None) (["__begin__a"; "x"] ++ ["__begin__b"])
  = Ok (mkLocals (Some "b") [] ["x"] empty_intent None)
  /\ symbols2intent (["__begin__a"; "x"] ++ "__begin__b" :: ["y"; "__end__b"])
                    "<eps>" None None true
     = match loop true
               (opened (mkLocals (Some "a") ["x"] ["x"] empty_intent None)
                       "__begin__b")
               ["y"; "__end__b"] with
       | Ok st' => Ok (finish st')
       | Raise e => Raise e
       end
  /\ forall r,
       symbols2intent (["__begin__a"; "x"] ++ "__begin__b" :: ["y"; "__end__b"])
                      "<eps>" None None true
       = Ok r ->
       tokens r = Some (literals (["__begin__a"; "x"] ++ ["y"; "__end__b"])) /\
       text r = Py.join " " (literals (["__begin__a"; "x"] ++ ["y"; "__end__b"])) /\
       exists later, entities r = entities empty_intent ++ later.
Proof.
  apply (nested_begin_replaces_tag true ["__begin__a"; "x"] "__begin__b"
           ["y"; "__end__b"] "<eps>" None None
           (mkLocals (Some "a") ["x"] ["x"] empty_intent None) "a").
  - reflexivity.
  - reflexivity.
  - reflexivity.
Defined.

(** C9, as stated, fails: a begin marker without a later matching end
    marker does not make the call return; an end marker of another name
    after it raises. *)
Lemma unclosed_tag_returns_counterexample :
  is_begin "__begin__a" = true
  /\ ~ In "__end__a" ["x"; "__end__b"]
  /\ symbols2intent ([] ++ "__begin__a" :: ["x"; "__end__b"]) "<eps>"
                    None None true
     = Raise (AssertionError "Mismatched tags: a b").
Proof.
  repeat split. simpl. intros [H|[H|[]]]; discriminate.
Qed.

(** C9, amended.  Take a begin marker [__begin__<name>] that is reached by
    the loop, with no [__end__<name>] after it and a rest that meets no
    mismatched end marker.  Then [symbols2intent] returns a record; its
    entities are those emitted before the marker followed by those the rest
    of the sequence yields when decoded by itself, so none comes from the
    unclosed tag; its text and tokens are the literal symbols of the whole
    sequence, those inside the unclosed tag included. *)
Theorem unclosed_tag_is_dropped (replace_tags : bool) (pre : list string)
  (sym : string) (post : list string) (eps : string)
  (intent0 : option Intent) (name0 : option string) (st st2 : locals) :
  loop replace_tags (init intent0 name0) pre = Ok st ->
  is_begin sym = true ->
  loop replace_tags (opened st sym) post = Ok st2 ->
  ~ In ("__end__" ++ Py.slice_from 9 sym)%string post ->
  exists r alone,
    symbols2intent (pre ++ sym :: post) eps intent0 name0 replace_tags = Ok r
    /\ tokens r = Some (literals (pre ++ post))
    /\ text r = Py.join " " (literals (pre ++ post))
    /\ symbols2intent post eps None None replace_tags = Ok alone
    /\ entities r = entities (intent_var st) ++ entities alone.
Proof.
  intros Hpre Hb Hpost Hnot.
  assert (Hcall : symbols2intent (pre ++ sym :: post) eps intent0 name0
                                 replace_tags = Ok (finish st2)).
  { unfold symbols2intent. rewrite loop_app, Hpre. simpl.
    now rewrite (step_begin _ _ _ Hb), Hpost. }
  destruct (loop_unclosed replace_tags _ _ Hnot (opened st sym)
                          (init None None) st2 eq_refl eq_refl Hpost)
    as (st0 & later & H0 & E1 & E0).
  exists (finish st2), (finish st0).
  destruct (symbols2intent_tokens _ _ _ _ _ _ Hcall) as [Htok Htext].
  rewrite (literals_skip_begin _ _ _ Hb) in Htok, Htext.
  repeat split; auto.
  - unfold symbols2intent. now rewrite H0.
  - rewrite !finish_entities, E1, E0. reflexivity.
Qed.

Lemma unclosed_tag_is_dropped_witness :
  exists r alone,
    symbols2intent (["go"] ++ "__begin__a" :: ["x"; "__begin__b"; "y"; "__end__b"])
                   "<eps>" None None true = Ok r
    /\ tokens r = Some (literals (["go"] ++ ["x"; "__begin__b"; "y"; "__end__b"]))
    /\ text r = Py.join " " (literals (["go"] ++ ["x"; "__begin__b"; "y"; "__end__b"]))
    /\ symbols2intent ["x"; "__begin__b"; "y"; "__end__b"] "<eps>" None None true
       = Ok alone
    /\ entities r = entities empty_intent ++ entities alone.
Proof.
  apply (unclosed_tag_is_dropped true ["go"] "__begin__a"
           ["x"; "__begin__b"; "y"; "__end__b"] "<eps>" None None
           (mkLocals None [] ["go"] empty_intent None)
           (mkLocals None ["y"] ["go"; "x"; "y"]
                     (append_entity empty_intent (mkEntity "b" "y")) None)).
  - reflexivity.
  - reflexivity.
  - reflexivity.
  - simpl. intros [H|[H|[H|[H|[]]]]]; discriminate.
Defined.

(** ** The path buffer of the enumerator *)

Lemma pop_push (path : list Arc) (a : Arc) : pop (path ++ [a]) = Ok path.
Proof.
  unfold pop. destruct (path ++ [a]) eqn:E.
  - now destruct path.
  - rewrite <- E. now rewrite removelast_last.
Qed.

Lemma caller_path_new (path : option (list Arc)) :
  caller_path path (path_or_new path) = path.
Proof. destruct path as [[|a p]|]; reflexivity. Qed.

Lemma arcs_loop_restores rec in_fst exclude_meta zero_weight eps :
  restores rec ->
  forall al path fo sents ss path' fo',
    arcs_loop rec in_fst exclude_meta zero_weight eps al path fo sents
    = Some (Ok (ss, path', fo')) ->
    path' = path.
Proof.
  intros Hrec. induction al as [|arc al IH]; intros path fo sents ss path' fo'.
  - simpl. now intros [= _ <- _].
  - simpl.
    destruct (final in_fst (nextstate arc)) as [w|]; [|discriminate].
    destruct (negb (weight_eqb w zero_weight)).
    + destruct (path_symbols _ _ _ _ _ _) as [[sent fo1]|]; [|discriminate].
      rewrite pop_push. apply IH.
    + destruct (rec (nextstate arc) (path ++ [arc]) fo)
        as [[[[more p1] fo1]|]|] eqn:E; try discriminate.
      apply Hrec in E. subst p1. rewrite pop_push. apply IH.
Qed.

Lemma fstprintall_restores fuel in_fst :
  forall out_file exclude_meta state path zero_weight eps ss path' out',
    fstprintall fuel in_fst out_file exclude_meta state path zero_weight eps
    = Some (Ok (ss, path', out')) ->
    path' = path.
Proof.
  induction fuel as [|fuel IH];
    intros out_file exclude_meta state path zero_weight eps ss path' out'.
  - discriminate.
  - simpl.
    destruct (arcs in_fst (state_or_start in_fst state)) as [al|];
      [|discriminate].
    match goal with
    | |- context [arcs_loop ?r ?f ?e ?z ?p ?a ?l ?o ?s] =>
        destruct (arcs_loop r f e z p a l o s)
          as [[[[ss1 local'] f1]|]|] eqn:E; try discriminate
    end.
    intros [= <- <- <-].
    apply arcs_loop_restores in E.
    + subst local'. apply caller_path_new.
    + intros s p fo ss2 p2 fo2.
      destruct (fstprintall fuel in_fst fo exclude_meta (Some s) (Some p) _ eps)
        as [[[[ss3 p3] f3]|]|] eqn:E3; try discriminate.
      intros [= <- <- <-]. apply IH in E3. now subst p3.
Qed.

(** C10.  Whenever [fstprintall] returns, the caller's path buffer has the
    value it had at entry: every arc pushed during the traversal has been
    popped again. *)
Theorem fstprintall_restores_path (fuel : nat) (in_fst : Fst)
  (out_file : option string) (exclude_meta : bool) (state : option Z)
  (path : list Arc) (zero_weight : option Weight) (eps : Z)
  (sentences : list sentence) (path' : option (list Arc))
  (out' : option string) :
  fstprintall fuel in_fst out_file exclude_meta state (Some path)
              zero_weight eps
  = Some (Ok (sentences, path', out')) ->
  path' = Some path.
Proof. apply fstprintall_restores. Qed.

Lemma fstprintall_restores_path_witness :
  fstprintall 4 Examples.tagged None false (Some 0%Z)
              (Some [Examples.arc 1 0]) None 0
  = Some (Ok ([["a"; "__begin__city:Boston"; "boston"; "__end__city:Boston";
                "__label__x"]; ["a"; "a"; "b"]],
              Some [Examples.arc 1 0], None))
  /\ Some [Examples.arc 1 0] = Some [Examples.arc 1 0].
Proof.
  split.
  - vm_compute. reflexivity.
  - apply (fstprintall_restores_path 4 Examples.tagged None false (Some 0%Z)
             [Examples.arc 1 0] None 0
             [["a"; "__begin__city:Boston"; "boston"; "__end__city:Boston";
               "__label__x"]; ["a"; "a"; "b"]]
             (Some [Examples.arc 1 0]) None).
    vm_compute. reflexivity.
Defined.

(** ** The two output modes of the enumerator *)

Section Modes.

Variable in_fst : Fst.
Variable eps : Z.

(** Without a file the inner loop leaves none behind, and its result is
    the accumulator followed by what the path contributes. *)
Lemma path_symbols_acc exclude_meta path : forall acc,
  path_symbols in_fst None exclude_meta eps path acc =
  match path_symbols in_fst None exclude_meta eps path [] with
  | Ok (sent, _) => Ok (acc ++ sent, None)
  | Raise e => Raise e
  end.
Proof.
  induction path as [|a path IH]; intros acc; simpl.
  - now rewrite app_nil_r.
  - destruct (Z.eqb (olabel a) eps); [apply IH|].
    destruct (output_symbols in_fst (olabel a)) as [osym|]; [|reflexivity].
    destruct (exclude_meta && Py.startswith osym "__"); [apply IH|].
    rewrite (IH (acc ++ [osym])), (IH [osym]).
    destruct (path_symbols in_fst None exclude_meta eps path [])
      as [[sent fo]|]; [|reflexivity].
    now rewrite <- app_assoc.
Qed.

Lemma path_symbols_no_file exclude_meta path acc sent fo :
  path_symbols in_fst None exclude_meta eps path acc = Ok (sent, fo) ->
  fo = None.
Proof.
  rewrite path_symbols_acc.
  destruct (path_symbols in_fst None exclude_meta eps path [])
    as [[s f]|]; [|discriminate].
  now intros [= _ <-].
Qed.


(** Literal-only mode keeps of each path what [strip_meta] keeps of its
    all-symbols output, and raises where all-symbols mode raises. *)
Lemma path_symbols_strip path :
  path_symbols in_fst None true eps path [] =
  match path_symbols in_fst None false eps path [] with
  | Ok (sent, _) => Ok (strip_meta sent, None)
  | Raise e => Raise e
  end.
Proof.
  induction path as [|a path IH]; simpl.
  - reflexivity.
  - destruct (Z.eqb (olabel a) eps); [exact IH|].
    destruct (output_symbols in_fst (olabel a)) as [osym|]; [|reflexivity].
    rewrite (path_symbols_acc false path [osym]).
    destruct (Py.startswith osym "__") eqn:E.
    + rewrite IH.
      destruct (path_symbols in_fst None false eps path [])
        as [[sent fo]|]; [|reflexivity].
      unfold strip_meta. simpl. now rewrite E.
    + rewrite (path_symbols_acc true path [osym]), IH.
      destruct (path_symbols in_fst None false eps path [])
        as [[sent fo]|]; [|reflexivity].
      unfold strip_meta. simpl. now rewrite E.
Qed.

Lemma arcs_loop_strip rec_all rec_lit zero_weight :
  (forall s p, rec_lit s p None = stripped (rec_all s p None)) ->
  (forall s p ss p' fo,
      rec_all s p None = Some (Ok (ss, p', fo)) -> fo = None) ->
  forall al path sents,
    arcs_loop rec_lit in_fst true zero_weight eps al path None
              (map strip_meta sents)
    = stripped (arcs_loop rec_all in_fst false zero_weight eps al path None
                          sents).
Proof.
  intros Hrec Hfile.
  induction al as [|arc al IH]; intros path sents; simpl.
  - reflexivity.
  - destruct (final in_fst (nextstate arc)) as [w|]; [|reflexivity].
    destruct (negb (weight_eqb w zero_weight)).
    + rewrite path_symbols_strip.
      destruct (path_symbols in_fst None false eps (path ++ [arc]) [])
        as [[sent fo]|] eqn:E; [|reflexivity].
      apply path_symbols_no_file in E. subst fo.
      rewrite pop_push.
      rewrite <- IH. now rewrite map_app.
    + rewrite Hrec.
      destruct (rec_all (nextstate arc) (path ++ [arc]) None)
        as [[[[more p1] fo1]|]|] eqn:E; try reflexivity.
      simpl. apply Hfile in E. subst fo1.
      destruct (pop p1); [|reflexivity].
      rewrite <- IH. now rewrite map_app.
Qed.

End Modes.

Lemma arcs_loop_no_file rec in_fst exclude_meta zero_weight eps :
  (forall s p ss p' fo, rec s p None = Some (Ok (ss, p', fo)) -> fo = None) ->
  forall al path sents ss path' fo,
    arcs_loop rec in_fst exclude_meta zero_weight eps al path None sents
    = Some (Ok (ss, path', fo)) ->
    fo = None.
Proof.
  intros Hrec. induction al as [|arc al IH]; intros path sents ss path' fo.
  - simpl. now intros [= _ _ <-].
  - simpl.
    destruct (final in_fst (nextstate arc)) as [w|]; [|discriminate].
    destruct (negb (weight_eqb w zero_weight)).
    + destruct (path_symbols _ _ _ _ _ _) as [[sent fo1]|] eqn:E;
        [|discriminate].
      apply path_symbols_no_file in E. subst fo1.
      destruct (pop (path ++ [arc])); [apply IH|discriminate].
    + destruct (rec (nextstate arc) (path ++ [arc]) None)
        as [[[[more p1] fo1]|]|] eqn:E; try discriminate.
      apply Hrec in E. subst fo1.
      destruct (pop p1); [apply IH|discriminate].
Qed.

Lemma fstprintall_no_file fuel in_fst :
  forall exclude_meta state path zero_weight eps ss path' fo,
    fstprintall fuel in_fst None exclude_meta state path zero_weight eps
    = Some (Ok (ss, path', fo)) ->
    fo = None.
Proof.
  induction fuel as [|fuel IH];
    intros exclude_meta state path zero_weight eps ss path' fo.
  - discriminate.
  - simpl.
    destruct (arcs in_fst (state_or_start in_fst state)) as [al|];
      [|discriminate].
    match goal with
    | |- context [arcs_loop ?r ?f ?e ?z ?p ?a ?l ?o ?s] =>
        destruct (arcs_loop r f e z p a l o s)
          as [[[[ss1 local'] f1]|]|] eqn:E; try discriminate
    end.
    intros [= <- <- <-].
    apply arcs_loop_no_file in E; [exact E|].
    intros s p ss2 p2 fo2.
    destruct (fstprintall fuel in_fst None exclude_meta (Some s) (Some p) _ eps)
      as [[[[ss3 p3] f3]|]|] eqn:E3; try discriminate.
    intros [= <- <- <-]. now apply IH in E3.
Qed.

Lemma fstprintall_strip fuel in_fst :
  forall state path zero_weight eps,
    fstprintall fuel in_fst None true state path zero_weight eps =
    match fstprintall fuel in_fst None false state path zero_weight eps with
    | Some (Ok (ss, p, fo)) => Some (Ok (map strip_meta ss, p, fo))
    | other => other
    end.
Proof.
  induction fuel as [|fuel IH]; intros state path zero_weight eps.
  - reflexivity.
  - simpl.
    destruct (arcs in_fst (state_or_start in_fst state)) as [al|];
      [|reflexivity].
    match goal with
    | |- context [arcs_loop ?r ?f false ?z ?p ?a ?l ?o ?s] =>
        set (rec_all := r)
    end.
    match goal with
    | |- context [arcs_loop ?r ?f true ?z ?p ?a ?l ?o ?s] =>
        set (rec_lit := r)
    end.
    change (@nil sentence) with (map strip_meta []) at 1.
    rewrite (arcs_loop_strip in_fst eps rec_all rec_lit).
    + destruct (arcs_loop rec_all _ _ _ _ _ _ _ _) as [[[[ss p] fo]|]|];
        reflexivity.
    + intros s p. unfold rec_lit, rec_all. rewrite IH.
      destruct (fstprintall fuel in_fst None false (Some s) (Some p) _ eps)
        as [[[[ss3 p3] f3]|]|]; reflexivity.
    + intros s p ss p' fo. unfold rec_all.
      destruct (fstprintall fuel in_fst None false (Some s) (Some p) _ eps)
        as [[[[ss3 p3] f3]|]|] eqn:E3; try discriminate.
      intros [= <- <- <-]. now apply fstprintall_no_file in E3.
Qed.

Lemma marker_has_prefix sym :
  is_begin sym || is_end sym || is_label sym = true ->
  Py.startswith sym "__" = true.
Proof.
  unfold is_begin, is_end, is_label, Py.startswith. intros H.
  apply orb_true_iff in H. destruct H as [H|H];
    [apply orb_true_iff in H; destruct H as [H|H]|];
    apply prefix_split in H; rewrite H; reflexivity.
Qed.

(** On sequences without the string ["<eps>"] whose symbols with the
    two-underscore prefix are all begin, end or label markers, the two
    notions of visible symbol agree. *)
Lemma strip_meta_literals (s : list string) :
  (forall sym, In sym s ->
     sym <> "<eps>" /\
     (Py.startswith sym "__" = true ->
      is_begin sym || is_end sym || is_label sym = true)) ->
  strip_meta s = literals s.
Proof.
  intros H. apply filter_ext_in. intros sym Hin.
  destruct (H sym Hin) as [Heps Hmark].
  unfold is_literal.
  assert (He : is_eps sym = false).
  { unfold is_eps. now apply String.eqb_neq. }
  rewrite He. simpl.
  destruct (Py.startswith sym "__") eqn:E.
  - specialize (Hmark eq_refl).
    destruct (is_begin sym), (is_end sym), (is_label sym);
      simpl in *; congruence.
  - destruct (is_begin sym || is_end sym || is_label sym) eqn:M.
    + apply marker_has_prefix in M. congruence.
    + apply orb_false_iff in M. destruct M as [M ->].
      apply orb_false_iff in M. destruct M as [-> ->]. reflexivity.
Qed.

(** C6, as stated, fails: a symbol [__foo] has the two-underscore prefix,
    so literal-only mode skips it, but it is none of the three markers, so
    the decoder keeps it as a token. *)
Lemma literal_mode_text_counterexample :
  fstprintall 3 Examples.dunder None false None None None 0
  = Some (Ok ([["a"; "__foo"]], None, None))
  /\ fstprintall 3 Examples.dunder None true None None None 0
     = Some (Ok ([["a"]], None, None))
  /\ symbols2intent ["a"; "__foo"] "<eps>" None None true
     = Ok (mkIntent "a __foo" (Some ["a"; "__foo"]) (mkIntentInfo "" 1) [])
  /\ Py.join " " ["a"] <> "a __foo".
Proof.
  repeat split; try (vm_compute; reflexivity).
  vm_compute. discriminate.
Qed.

(** C6, amended.  Literal-only mode yields, path by path, the all-symbols
    output with the symbols of two-underscore prefix removed.  For a path
    output that decodes without error, does not contain the string
    ["<eps>"] and has no symbol of two-underscore prefix other than begin,
    end and label markers, the space-joined literal-only output is the
    [text] of the decoded record. *)
Theorem literal_mode_text (fuel : nat) (in_fst : Fst) (state : option Z)
  (path : option (list Arc)) (zero_weight : option Weight) (eps : Z)
  (all : list sentence) (path' : option (list Arc)) (fo : option string) :
  fstprintall fuel in_fst None false state path zero_weight eps
  = Some (Ok (all, path', fo)) ->
  fstprintall fuel in_fst None true state path zero_weight eps
  = Some (Ok (map strip_meta all, path', fo))
  /\ forall s name0 replace_tags r,
       In s all ->
       (forall sym, In sym s ->
          sym <> "<eps>" /\
          (Py.startswith sym "__" = true ->
           is_begin sym || is_end sym || is_label sym = true)) ->
       symbols2intent s "<eps>" None name0 replace_tags = Ok r ->
       Py.join " " (strip_meta s) = text r.
Proof.
  intros H. split.
  - now rewrite fstprintall_strip, H.
  - intros s name0 replace_tags r _ Hs Hr.
    rewrite (strip_meta_literals s Hs).
    symmetry. now apply (symbols2intent_tokens _ _ _ _ _ _ Hr).
Qed.

Lemma literal_mode_text_witness :
  fstprintall 5 Examples.tagged None true None None None 0
  = Some (Ok (map strip_meta
                  [["__begin__city:Boston"; "boston"; "__end__city:Boston";
                    "__label__x"]; ["a"; "b"]], None, None))
  /\ forall s name0 replace_tags r,
       In s [["__begin__city:Boston"; "boston"; "__end__city:Boston";
              "__label__x"]; ["a"; "b"]] ->
       (forall sym, In sym s ->
          sym <> "<eps>" /\
          (Py.startswith sym "__" = true ->
           is_begin sym || is_end sym || is_label sym = true)) ->
       symbols2intent s "<eps>" None name0 replace_tags = Ok r ->
       Py.join " " (strip_meta s) = text r.
Proof.
  apply (literal_mode_text 5 Examples.tagged None None None 0).
  vm_compute. reflexivity.
Defined.

(** In all-symbols mode and without a file the inner loop computes the
    output projection of the path. *)
Lemma path_symbols_output (f : Fst) (p : list Arc) :
  path_symbols f None false 0 p [] =
  match output_of f p with
  | Some sent => Ok (sent, None)
  | None => Raise (FstError "output symbol")
  end.
Proof.
  unfold output_of, output_labels.
  induction p as [|a p IH]; simpl.
  - reflexivity.
  - destruct (Z.eqb (olabel a) 0); simpl; [exact IH|].
    destruct (output_symbols f (olabel a)) as [osym|]; [|reflexivity].
    rewrite (path_symbols_acc f 0 false p [osym]), IH.
    destruct (resolve f _); reflexivity.
Qed.

(** ** What the enumerator enumerates *)

Lemma weight_eqb_eq (a b : Weight) : weight_eqb a b = true <-> a = b.
Proof.
  destruct a as [|x], b as [|y]; simpl; split; try congruence; auto.
  - intros H. apply Z.eqb_eq in H. now subst.
  - intros [= ->]. apply Z.eqb_refl.
Qed.

Section Enumeration.

Variable f : Fst.
Hypothesis start_is_0 : start f = 0%Z.

Lemma state_or_start_some s : state_or_start f (Some s) = s.
Proof.
  unfold state_or_start. destruct (Z.eqb_spec s 0); congruence.
Qed.

Lemma first_hit_via s p :
  first_hit f s p <->
  exists al a q, p = a :: q /\ arcs f s = Some al /\ In a al /\ via f a q.
Proof.
  split.
  - intros H. destruct H as [s al a w Ha Hin Hf Hw|s al a p Ha Hin Hf Hp].
    + exists al, a, []. repeat split; auto. left. eauto.
    + exists al, a, p. repeat split; auto. right. auto.
  - intros (al & a & q & -> & Ha & Hin & [[-> (w & Hf & Hw)]|[Hf Hq]]).
    + eapply hit_last; eauto.
    + eapply hit_more; eauto.
Qed.

Lemma arcs_loop_enumerates rec :
  enumerates f rec ->
  forall al path sents ss path' fo,
    arcs_loop rec f false WZero 0 al path None sents
    = Some (Ok (ss, path', fo)) ->
    forall sent,
      In sent ss <->
      In sent sents \/
      exists a q, In a al /\ via f a q /\
                  path_symbols f None false 0 (path ++ a :: q) []
                  = Ok (sent, None).
Proof.
  intros Hrec.
  induction al as [|arc al IH]; intros path sents ss path' fo.
  - simpl. intros [= <- _ _] sent. split; [now left|].
    intros [H|(a & q & [] & _)]. exact H.
  - simpl.
    destruct (final f (nextstate arc)) as [w|] eqn:Hf; [|discriminate].
    destruct (weight_eqb w WZero) eqn:Hw; simpl.
    + apply weight_eqb_eq in Hw. subst w.
      destruct (rec (nextstate arc) (path ++ [arc]) None)
        as [[[[more p1] fo1]|]|] eqn:E; try discriminate.
      assert (Hp : path ++ [arc] <> []) by (destruct path; discriminate).
      destruct (Hrec _ _ _ _ _ Hp E) as (-> & -> & Hmore).
      rewrite pop_push. intros H sent.
      rewrite (IH _ _ _ _ _ H sent), in_app_iff, Hmore.
      split.
      * intros [[Hs|(q & Hq & Hout)]|(a & q & Hin & Hv & Hout)].
        -- now left.
        -- right. exists arc, q.
           split; [now left|]. split; [now right|].
           now rewrite <- app_assoc in Hout.
        -- right. exists a, q. split; [now right|]. split; assumption.
      * intros [Hs|(a & q & [<-|Hin] & Hv & Hout)].
        -- left. now left.
        -- left. right.
           destruct Hv as [[_ (w & Hf' & Hw)]|[_ Hq]]; [congruence|].
           exists q. split; [exact Hq|]. now rewrite <- app_assoc.
        -- right. exists a, q. auto.
    + assert (Hne : w <> WZero).
      { intros ->. discriminate. }
      destruct (path_symbols f None false 0 (path ++ [arc]) [])
        as [[sent0 fo1]|] eqn:E; [|discriminate].
      pose proof (path_symbols_no_file _ _ _ _ _ _ _ E) as ->.
      rewrite pop_push. intros H sent.
      rewrite (IH _ _ _ _ _ H sent), in_app_iff.
      split.
      * intros [[Hs|[<-|[]]]|(a & q & Hin & Hv & Hout)].
        -- now left.
        -- right. exists arc, [].
           split; [now left|]. split; [|exact E].
           left. split; [reflexivity|]. eauto.
        -- right. exists a, q. split; [now right|]. split; assumption.
      * intros [Hs|(a & q & [<-|Hin] & Hv & Hout)].
        -- left. now left.
        -- left. right. left.
           destruct Hv as [[-> _]|[Hf' _]]; [|congruence].
           congruence.
        -- right. exists a, q. auto.
Qed.

Lemma fstprintall_enumerates fuel :
  forall state path zero_weight ss path' fo,
    zero_weight = None \/ zero_weight = Some WZero ->
    fstprintall fuel f None false state path zero_weight 0
    = Some (Ok (ss, path', fo)) ->
    forall sent,
      In sent ss <->
      exists q, first_hit f (state_or_start f state) q /\
                path_symbols f None false 0 (path_or_new path ++ q) []
                = Ok (sent, None).
Proof.
  induction fuel as [|fuel IH]; intros state path zero_weight ss path' fo Hz.
  - discriminate.
  - simpl.
    assert (Hzw : match zero_weight with
                  | Some w => w
                  | None => Weight_Zero f
                  end = WZero) by (destruct Hz; subst; reflexivity).
    rewrite Hzw.
    destruct (arcs f (state_or_start f state)) as [al|] eqn:Ha;
      [|discriminate].
    match goal with
    | |- context [arcs_loop ?r _ _ _ _ _ _ _ _] => set (rec := r)
    end.
    destruct (arcs_loop rec f false WZero 0 al (path_or_new path) None [])
      as [[[[ss1 local'] f1]|]|] eqn:E; try discriminate.
    intros [= <- <- <-] sent.
    assert (Hrec : enumerates f rec).
    { intros s p ss2 p2 fo2 Hp. unfold rec.
      destruct (fstprintall fuel f None false (Some s) (Some p)
                            (Some WZero) 0)
        as [[[[ss3 p3] f3]|]|] eqn:E3; try discriminate.
      intros [= <- <- <-].
      pose proof (fstprintall_restores _ _ _ _ _ _ _ _ _ _ _ E3) as ->.
      pose proof (fstprintall_no_file _ _ _ _ _ _ _ _ _ _ E3) as ->.
      repeat split; auto.
      - intros Hin. apply (IH _ _ _ _ _ _ (or_intror eq_refl) E3) in Hin.
        rewrite state_or_start_some in Hin.
        destruct p; [congruence|exact Hin].
      - intros Hq. apply (IH _ _ _ _ _ _ (or_intror eq_refl) E3).
        rewrite state_or_start_some.
        destruct p; [congruence|exact Hq]. }
    rewrite (arcs_loop_enumerates rec Hrec _ _ _ _ _ _ E sent).
    split.
    + intros [[]|(a & q & Hin & Hv & Hout)].
      exists (a :: q). split; [|exact Hout].
      apply first_hit_via. exists al, a, q. auto.
    + intros (p & Hp & Hout). right.
      apply first_hit_via in Hp.
      destruct Hp as (al' & a & q & -> & Ha' & Hin & Hv).
      exists a, q. repeat split; auto. congruence.
Qed.

End Enumeration.

(** ** When the enumerator returns *)

Section Termination.

Variable f : Fst.
Variable rank : Z -> nat.
Hypothesis start_is_0 : start f = 0%Z.
Hypothesis f_ranked : ranked f rank.
Hypothesis f_closed : closed f.

Lemma resolvable_snoc p a al s :
  resolvable f p -> arcs f s = Some al -> In a al ->
  resolvable f (p ++ [a]).
Proof.
  intros Hp Ha Hin b Hb. apply in_app_or in Hb.
  destruct Hb as [Hb|[<-|[]]]; [now apply Hp|].
  now apply (proj2 f_closed s al a Ha Hin).
Qed.

Lemma path_symbols_total p :
  resolvable f p ->
  exists sent, path_symbols f None false 0 p [] = Ok (sent, None).
Proof.
  generalize (@nil string) as acc.
  induction p as [|a p IH]; intros acc Hp; simpl.
  - eauto.
  - assert (Hp' : resolvable f p) by (intros b Hb; apply Hp; now right).
    destruct (Z.eqb_spec (olabel a) 0) as [|Hne]; [now apply IH|].
    destruct (output_symbols f (olabel a)) as [osym|] eqn:E.
    + now apply IH.
    + exfalso. exact (Hp a (or_introl eq_refl) Hne E).
Qed.

Lemma arcs_loop_total rec s all_arcs :
  arcs f s = Some all_arcs ->
  forall al path sents,
    incl al all_arcs ->
    resolvable f path ->
    returns_on f rec al path ->
    exists ss,
      arcs_loop rec f false WZero 0 al path None sents
      = Some (Ok (ss, path, None)).
Proof.
  intros Hs. induction al as [|arc al IH]; intros path sents Hincl Hp Hrec.
  - simpl. eauto.
  - simpl.
    assert (Hin : In arc all_arcs) by (apply Hincl; now left).
    assert (Hincl' : incl al all_arcs)
      by (intros b Hb; apply Hincl; now right).
    assert (Hrec' : returns_on f rec al path)
      by (intros b Hb; apply Hrec; now right).
    destruct (proj2 f_closed s all_arcs arc Hs Hin) as (_ & Hfin & _).
    destruct (final f (nextstate arc)) as [w|] eqn:Hf; [|congruence].
    destruct (weight_eqb w WZero) eqn:Hw; simpl.
    + apply weight_eqb_eq in Hw. subst w.
      destruct (Hrec arc (or_introl eq_refl) Hf) as [more ->].
      rewrite pop_push. now apply IH.
    + destruct (path_symbols_total (path ++ [arc])) as [sent ->].
      { eapply resolvable_snoc; eauto. }
      rewrite pop_push. now apply IH.
Qed.

Lemma fstprintall_total n :
  forall state path,
    (rank (state_or_start f state) < n)%nat ->
    arcs f (state_or_start f state) <> None ->
    resolvable f (path_or_new path) ->
    exists ss,
      fstprintall n f None false state path (Some WZero) 0
      = Some (Ok (ss, path, None)).
Proof.
  induction n as [|n IH]; intros state path Hlt Ha Hp.
  - lia.
  - simpl.
    destruct (arcs f (state_or_start f state)) as [al|] eqn:E;
      [|congruence].
    match goal with
    | |- context [arcs_loop ?r _ _ _ _ _ _ _ _] => set (rec := r)
    end.
    destruct (arcs_loop_total rec _ al E al (path_or_new path) [])
      as [ss ->].
    + apply incl_refl.
    + exact Hp.
    + intros a Hin Hf. unfold rec.
      destruct (IH (Some (nextstate a)) (Some (path_or_new path ++ [a])))
        as [ss ->].
      * rewrite state_or_start_some by exact start_is_0.
        pose proof (f_ranked _ _ _ E Hin Hf). lia.
      * rewrite state_or_start_some by exact start_is_0.
        now apply (proj2 f_closed _ _ _ E Hin).
      * assert (Hres : resolvable f (path_or_new path ++ [a]))
          by (eapply resolvable_snoc; eauto).
        destruct (path_or_new path ++ [a]); exact Hres.
      * simpl. eauto.
    + rewrite caller_path_new. eauto.
Qed.

End Termination.

(** ** The example automaton [tagged] meets the conditions of termination *)

Lemma vector_fst_state st states syms s al :
  arcs (Examples.vector_fst st states syms) s = Some al ->
  exists k, s = Z.of_nat k /\ (k < List.length states)%nat.
Proof.
  simpl. destruct (Z.ltb_spec s 0) as [|Hs]; [discriminate|].
  intros Ha. exists (Z.to_nat s). split; [lia|].
  apply nth_error_Some. intros E. now rewrite E in Ha.
Qed.

Example tagged_ranked :
  ranked Examples.tagged (Examples.rank_by_table 6).
Proof.
  intros s al a Ha Hin Hf.
  destruct (vector_fst_state _ _ _ _ _ Ha) as (k & -> & Hlt).
  simpl in Hlt.
  destruct k as [|[|[|[|[|[|k]]]]]]; try lia;
    vm_compute in Ha; injection Ha as <-;
    repeat (destruct Hin as [<-|Hin]; [|]); try destruct Hin;
    vm_compute in Hf; try discriminate Hf;
    vm_compute; lia.
Qed.

Example tagged_closed : closed Examples.tagged.
Proof.
  split; [discriminate|].
  intros s al a Ha Hin.
  destruct (vector_fst_state _ _ _ _ _ Ha) as (k & -> & Hlt).
  simpl in Hlt.
  destruct k as [|[|[|[|[|[|k]]]]]]; try lia;
    vm_compute in Ha; injection Ha as <-;
    repeat (destruct Hin as [<-|Hin]; [|]); try destruct Hin;
    repeat split; discriminate.
Qed.

(** A destination state 0 is read as "no state given": the traversal goes
    on from the start state.  In [start_is_1] the path [a b] through state
    0 is accepting, but the call on state 0 restarts at state 1 and no
    amount of fuel lets the enumeration return. *)
Example destination_zero_restarts n :
  forall state path zero_weight,
    In state [None; Some 0%Z; Some 1%Z] ->
    In zero_weight [None; Some WZero] ->
    fstprintall n Examples.start_is_1 None false state path zero_weight 0
    = None.
Proof.
  induction n as [|n IH]; intros state path zero_weight Hs Hz.
  - reflexivity.
  - assert (E : state_or_start Examples.start_is_1 state = 1%Z).
    { destruct Hs as [<-|[<-|[<-|[]]]]; reflexivity. }
    assert (Ez : match zero_weight with
                 | Some w => w
                 | None => Weight_Zero Examples.start_is_1
                 end = WZero).
    { destruct Hz as [<-|[<-|[]]]; reflexivity. }
    simpl. rewrite E, Ez. simpl.
    rewrite IH; [reflexivity| |]; simpl; auto.
Qed.

Example start_is_1_accepts :
  path_from Examples.start_is_1 (start Examples.start_is_1)
            [Examples.arc 1 0; Examples.arc 2 2] 2
  /\ accepting Examples.start_is_1 2.
Proof.
  split.
  - eapply path_cons; [reflexivity|now left|].
    eapply path_cons; [reflexivity|now left|].
    apply path_nil.
  - exists (WVal 0). split; [reflexivity|discriminate].
Qed.

(** C2, as stated, fails.  In [two_finals] the path [a b] ends in an
    accepting state but passes through one, and is not produced; in
    [only_start] the empty path ends in the accepting start state, and
    nothing is produced. *)
Lemma every_accepting_path_counterexample :
  (path_from Examples.two_finals (start Examples.two_finals)
             [Examples.arc 1 1; Examples.arc 2 2] 2
   /\ accepting Examples.two_finals 2
   /\ output_of Examples.two_finals [Examples.arc 1 1; Examples.arc 2 2]
      = Some ["a"; "b"]
   /\ fstprintall 3 Examples.two_finals None false None None None 0
      = Some (Ok ([["a"]], None, None))
   /\ ~ In ["a"; "b"] [["a"]])
  /\
  (path_from Examples.only_start (start Examples.only_start) [] 0
   /\ accepting Examples.only_start 0
   /\ output_of Examples.only_start [] = Some []
   /\ fstprintall 1 Examples.only_start None false None None None 0
      = Some (Ok ([], None, None))).
Proof.
  split; [split; [|split; [|split; [|split]]]|split; [|split; [|split]]].
  - eapply path_cons; [reflexivity|now left|].
    eapply path_cons; [reflexivity|now left|].
    apply path_nil.
  - exists (WVal 0). split; [reflexivity|discriminate].
  - reflexivity.
  - vm_compute. reflexivity.
  - intros [H|[]]. discriminate.
  - apply path_nil.
  - exists (WVal 0). split; [reflexivity|discriminate].
  - reflexivity.
  - vm_compute. reflexivity.
Qed.

(** C2, amended.  On an automaton whose start state is numbered 0,
    whenever [fstprintall] returns in all-symbols mode it has produced
    exactly the output-label sequences of the non-empty paths from the
    start state whose last arc, and no earlier one, ends in a state with
    non-zero final weight.  It does return, within [rank (start f) + 1]
    nested calls, when [rank] decreases along the arcs into non-accepting
    states and the arcs lead to known states and labels. *)
Theorem fstprintall_first_hits (f : Fst) :
  start f = 0%Z ->
  (forall rank, ranked f rank -> closed f ->
     exists ss,
       fstprintall (S (rank (start f))) f None false None None None 0
       = Some (Ok (ss, None, None)))
  /\
  (forall fuel ss path' fo,
     fstprintall fuel f None false None None None 0
     = Some (Ok (ss, path', fo)) ->
     forall sent,
       In sent ss <->
       exists p, first_hit f (start f) p /\ output_of f p = Some sent).
Proof.
  intros H0. split.
  - intros rank Hr Hc.
    assert (Hfuel : forall n state path,
               fstprintall n f None false state path None 0
               = fstprintall n f None false state path (Some WZero) 0)
      by (intros [|n] state path; reflexivity).
    rewrite Hfuel.
    apply (fstprintall_total f rank H0 Hr Hc).
    + simpl. lia.
    + exact (proj1 Hc).
    + intros a [].
  - intros fuel ss path' fo H sent.
    rewrite (fstprintall_enumerates f H0 fuel None None None ss path' fo
               (or_introl eq_refl) H sent).
    simpl.
    split; intros (p & Hp & Hout); exists p; split; auto.
    + rewrite path_symbols_output in Hout.
      destruct (output_of f p); [congruence|discriminate].
    + now rewrite path_symbols_output, Hout.
Qed.

Lemma fstprintall_first_hits_witness :
  (exists ss,
     fstprintall (S (Examples.rank_by_table 6 (start Examples.tagged)))
                 Examples.tagged None false None None None 0
     = Some (Ok (ss, None, None)))
  /\
  (forall fuel ss path' fo,
     fstprintall fuel Examples.tagged None false None None None 0
     = Some (Ok (ss, path', fo)) ->
     forall sent,
       In sent ss <->
       exists p, first_hit Examples.tagged (start Examples.tagged) p /\
                 output_of Examples.tagged p = Some sent).
Proof.
  destruct (fstprintall_first_hits Examples.tagged eq_refl) as [Hret Hchar].
  split.
  - apply (Hret (Examples.rank_by_table 6)).
    + exact tagged_ranked.
    + exact tagged_closed.
  - exact Hchar.
Defined.

(** ** Confidence of the returned records *)

Lemma step_intent_info replace_tags st sym st' :
  step replace_tags st sym = Ok st' ->
  intent (intent_var st') = intent (intent_var st).
Proof.
  unfold step.
  destruct (String.eqb sym "<eps>"); [now intros [= <-]|].
  destruct (Py.startswith sym "__begin__"); [now intros [= <-]|].
  destruct (Py.startswith sym "__end__").
  { destruct (tag st) as [t|]; [|discriminate].
    destruct (String.eqb t _); [|discriminate].
    intros [= <-]. unfold end_tag.
    now destruct (if replace_tags && Py.contains ":" t then _ else _). }
  destruct (Py.startswith sym "__label__").
  { destruct (intent_name st); now intros [= <-]. }
  destruct (Py.truthy (tag st)); now intros [= <-].
Qed.

Lemma loop_intent_info replace_tags l : forall st st',
  loop replace_tags st l = Ok st' ->
  intent (intent_var st') = intent (intent_var st).
Proof.
  induction l as [|sym l IH]; intros st st'; simpl.
  - now intros [= <-].
  - destruct (step replace_tags st sym) as [st1|] eqn:E; [|discriminate].
    intros H. rewrite (IH _ _ H). eapply step_intent_info, E.
Qed.

(** A record decoded from scratch has confidence 1 when it has tokens and
    confidence 0 when it has none. *)
Lemma symbols2intent_confidence s eps name0 replace_tags r :
  symbols2intent s eps None name0 replace_tags = Ok r ->
  confidence (intent r) = (if has_tokens r then 1 else 0)%Q /\
  (has_tokens r = false -> tokens r = Some []).
Proof.
  unfold symbols2intent.
  destruct (loop replace_tags (init None name0) s) as [st|] eqn:E;
    [|discriminate].
  intros [= <-]. apply loop_intent_info in E.
  unfold finish, has_tokens. simpl.
  destruct (out_symbols st); simpl.
  - rewrite E. auto.
  - split; [reflexivity|discriminate].
Qed.


(** Where the records of the returned list come from. *)
Lemma decode_paths_origin n name0 replace_tags todo :
  forall intents intents' failed r,
    decode_paths n name0 replace_tags todo intents = (intents', failed) ->
    In r intents' ->
    In r intents \/
    exists s r0,
      In s todo /\
      symbols2intent s "<eps>" None name0 replace_tags = Ok r0 /\
      r = divide_confidence r0 n.
Proof.
  induction todo as [|s todo IH]; intros intents intents' failed r; simpl.
  - intros [= <- _] H. now left.
  - destruct (symbols2intent s "<eps>" None name0 replace_tags)
      as [r0|] eqn:E.
    + intros H Hin. destruct (IH _ _ _ _ H Hin) as [H1|(s1 & r1 & H1 & H2 & H3)].
      * apply in_app_or in H1. destruct H1 as [H1|[<-|[]]]; [now left|].
        right. exists s, r0. auto.
      * right. exists s1, r1. auto.
    + intros [= <- _] H. now left.
Qed.

Lemma decode_paths_all n name0 replace_tags todo :
  Forall (fun s => is_ok (symbols2intent s "<eps>" None name0 replace_tags)
                   = true) todo ->
  forall intents,
    decode_paths n name0 replace_tags todo intents
    = (intents ++ map (decoded name0 replace_tags n) todo, false).
Proof.
  induction 1 as [|s todo Hs _ IH]; intros intents; simpl.
  - now rewrite app_nil_r.
  - unfold decoded at 1.
    destruct (symbols2intent s "<eps>" None name0 replace_tags);
      [|discriminate].
    rewrite IH, <- app_assoc. reflexivity.
Qed.

Local Open Scope Q_scope.

Lemma decoded_confidence name0 replace_tags n s :
  is_ok (symbols2intent s "<eps>" None name0 replace_tags) = true ->
  confidence (intent (decoded name0 replace_tags n s))
  = (if has_tokens (decoded name0 replace_tags n s) then 1 else 0)
    / inject_Z (Z.of_nat n).
Proof.
  unfold decoded.
  destruct (symbols2intent s "<eps>" None name0 replace_tags) as [r|] eqn:E;
    [|discriminate].
  intros _. destruct (symbols2intent_confidence _ _ _ _ _ E) as [Hc _].
  cbn [divide_confidence intent confidence]. now rewrite Hc.
Qed.

Lemma decoded_tokens name0 replace_tags n s :
  is_ok (symbols2intent s "<eps>" None name0 replace_tags) = true ->
  tokens (decoded name0 replace_tags n s) = Some (literals s).
Proof.
  unfold decoded.
  destruct (symbols2intent s "<eps>" None name0 replace_tags) as [r|] eqn:E;
    [|discriminate].
  intros _. cbn [divide_confidence tokens].
  now destruct (symbols2intent_tokens _ _ _ _ _ _ E).
Qed.

(** Records without tokens add nothing up. *)
Lemma sum_confidence_none (n : nat) (l : list Intent) :
  Forall (fun r => confidence (intent r)
                   = (if has_tokens r then 1 else 0)
                     / inject_Z (Z.of_nat n)) l ->
  Forall (fun r => has_tokens r = false) l ->
  sum_confidence l == 0.
Proof.
  induction 1 as [|r l Hr _ IH]; intros Hn; simpl; [reflexivity|].
  inversion Hn as [|r' l' Hr0 Hl]; subst.
  rewrite (IH Hl), Hr, Hr0. unfold Qdiv. ring.
Qed.

Lemma share_positive (n : nat) :
  (0 < n)%nat -> 0 < 1 / inject_Z (Z.of_nat n).
Proof.
  intros H. unfold Qdiv. rewrite Qmult_1_l.
  apply Qinv_lt_0_compat. unfold Qlt. simpl. lia.
Qed.

Local Close Scope Q_scope.

(** ** Properties of the recognizer *)

Section RecognizerProperties.

Variable Compiler_new : Fst -> bool -> bool -> result unit.
Variable Compiler_compile : Fst -> bool -> bool -> string -> result Fst.
Variable compose : Fst -> Fst -> result Fst.
Variable project : Fst -> bool -> result Fst.

Let words (sentence0 : string) : list string :=
  Py.re_split_ws (Py.lower (Py.strip sentence0)).

(** A failure while composing or enumerating leaves the list empty. *)
Lemma fstaccept_blank_before_decoding fuel in_fst sentence0 name0
  replace_tags :
  (exists e, apply_fst Compiler_new Compiler_compile compose project
                       (words sentence0) in_fst true = Raise e) \/
  (exists out_fst e,
      apply_fst Compiler_new Compiler_compile compose project
                (words sentence0) in_fst true = Ok out_fst /\
      fstprintall fuel out_fst None false None None None 0
      = Some (Raise e)) ->
  fstaccept Compiler_new Compiler_compile compose project
            fuel in_fst sentence0 name0
            replace_tags
  = Some ([], [Py.lower (Py.strip sentence0)]).
Proof.
  unfold fstaccept, words.
  intros [(e & ->)|(out_fst & e & -> & ->)]; reflexivity.
Qed.

Example fstaccept_blank_when_compose_fails :
  fstaccept Examples.compiler_ok Examples.compile_id
            Examples.compose_fails Examples.project_id
            3 Examples.tagged " Go  To Boston " None true
  = Some ([], ["go  to boston"]).
Proof. reflexivity. Qed.

(** C7.  A record returned by [fstaccept] has confidence 0 exactly when
    its token list is empty; a record with tokens has confidence 1
    divided by the number of enumerated paths, which is positive. *)
Theorem confidence_zero_iff_no_tokens (fuel : nat) (in_fst : Fst)
  (sentence0 : string) (name0 : option string) (replace_tags : bool)
  (intents : list Intent) (log : list string) (r : Intent) :
  fstaccept Compiler_new Compiler_compile compose project
            fuel in_fst sentence0 name0
            replace_tags = Some (intents, log) ->
  In r intents ->
  exists out_fst out_sentences path' fo,
    apply_fst Compiler_new Compiler_compile compose project
              (words sentence0) in_fst true
    = Ok out_fst /\
    fstprintall fuel out_fst None false None None None 0
    = Some (Ok (out_sentences, path', fo)) /\
    (0 < List.length out_sentences)%nat /\
    (confidence (intent r) == 0 <-> tokens r = Some [])%Q /\
    (tokens r <> Some [] ->
     confidence (intent r)
     = (1 / inject_Z (Z.of_nat (List.length out_sentences)))%Q /\
     (0 < confidence (intent r))%Q).
Proof.
  unfold fstaccept. fold (words sentence0).
  destruct (apply_fst Compiler_new Compiler_compile compose project
                      (words sentence0)
                      in_fst true) as [out_fst|];
    [|intros [= <- _] []].
  destruct (fstprintall fuel out_fst None false None None None 0)
    as [[[[out_sentences path'] fo]|]|] eqn:E;
    [|intros [= <- _] []|discriminate].
  destruct (decode_paths (List.length out_sentences) name0 replace_tags
                         out_sentences []) as [intents' failed] eqn:D.
  intros [= <- _] Hin.
  destruct (decode_paths_origin _ _ _ _ _ _ _ _ D Hin)
    as [[]|(s & r0 & Hs & Hr0 & ->)].
  assert (Hn : (0 < List.length out_sentences)%nat).
  { destruct out_sentences; [destruct Hs|simpl; lia]. }
  exists out_fst, out_sentences, path', fo.
  repeat split; auto.
  - intros H0.
    destruct (symbols2intent_confidence _ _ _ _ _ Hr0) as [Hc Ht].
    simpl in *. destruct (has_tokens r0) eqn:Eh; [|auto].
    rewrite Hc in H0. exfalso.
    pose proof (share_positive _ Hn) as Hp.
    rewrite H0 in Hp. now apply Qlt_irrefl in Hp.
  - intros Ht.
    destruct (symbols2intent_confidence _ _ _ _ _ Hr0) as [Hc _].
    simpl in *. rewrite Hc. unfold has_tokens. rewrite Ht.
    unfold Qdiv. ring.
  - destruct (symbols2intent_confidence _ _ _ _ _ Hr0) as [Hc Ht].
    simpl in *. rewrite Hc.
    destruct (has_tokens r0) eqn:Eh; [reflexivity|].
    now contradiction (H (Ht eq_refl)).
  - destruct (symbols2intent_confidence _ _ _ _ _ Hr0) as [Hc Ht].
    simpl in *. rewrite Hc.
    destruct (has_tokens r0) eqn:Eh; [|now contradiction (H (Ht eq_refl))].
    now apply share_positive.
Qed.

(** C3, amended.  When every enumerated path decodes, [fstaccept]
    returns one record per path, in path order.  The tokens of a record
    are the literal symbols of its path; the record of a path with tokens
    carries the confidence 1 divided by the number of all enumerated
    paths, those without tokens included, and the record of a path
    without tokens carries 0.  The confidences add up to 0 when no record
    has tokens. *)
Theorem confidence_is_a_share_of_all_paths (fuel : nat) (in_fst : Fst)
  (sentence0 : string) (name0 : option string) (replace_tags : bool)
  (out_fst : Fst) (out_sentences : list sentence)
  (path' : option (list Arc)) (fo : option string) :
  apply_fst Compiler_new Compiler_compile compose project (words sentence0)
            in_fst true
  = Ok out_fst ->
  fstprintall fuel out_fst None false None None None 0
  = Some (Ok (out_sentences, path', fo)) ->
  Forall (fun s => is_ok (symbols2intent s "<eps>" None name0 replace_tags)
                   = true) out_sentences ->
  exists intents,
    fstaccept Compiler_new Compiler_compile compose project fuel in_fst
              sentence0 name0 replace_tags = Some (intents, []) /\
    List.length intents = List.length out_sentences /\
    Forall2 (fun s r =>
               tokens r = Some (literals s) /\
               confidence (intent r)
               = ((if has_tokens r then 1 else 0)
                  / inject_Z (Z.of_nat (List.length out_sentences)))%Q)
            out_sentences intents /\
    (Forall (fun r => has_tokens r = false) intents ->
     sum_confidence intents == 0)%Q.
Proof.
  intros Ha He Hall.
  unfold fstaccept. fold (words sentence0). rewrite Ha, He.
  rewrite (decode_paths_all _ _ _ _ Hall). simpl.
  set (n := List.length out_sentences).
  set (intents := map (decoded name0 replace_tags n) out_sentences).
  assert (Hrec : Forall2 (fun s r =>
                            tokens r = Some (literals s) /\
                            confidence (intent r)
                            = ((if has_tokens r then 1 else 0)
                               / inject_Z (Z.of_nat n))%Q)
                         out_sentences intents).
  { unfold intents. clearbody n. clear Ha He.
    induction Hall as [|s l Hs _ IH]; simpl; constructor; [|exact IH].
    split; [now apply decoded_tokens|now apply decoded_confidence]. }
  exists intents. split; [reflexivity|].
  split; [apply length_map|].
  split; [exact Hrec|].
  apply sum_confidence_none with (n := n).
  unfold intents. apply Forall_map. revert Hall. apply Forall_impl.
  intros s Hs. now apply decoded_confidence.
Qed.

End RecognizerProperties.

(** C1: the handler of [fstaccept] does not clear the list.  On an
    automaton with the paths [a] and [__end__x] the first record has been
    appended when the second path fails to decode, and is returned. *)
Lemma fstaccept_keeps_records_before_error :
  fstaccept Examples.compiler_ok Examples.compile_id
            Examples.compose_right Examples.project_id
            3 Examples.good_then_bad "a" None true
  = Some ([mkIntent "a" (Some ["a"]) (mkIntentInfo "" (1 # 2)) []], ["a"])
  /\ fstprintall 3 Examples.good_then_bad None false None None None 0
     = Some (Ok ([["a"]; ["__end__x"]], None, None))
  /\ symbols2intent ["__end__x"] "<eps>" None None true
     = Raise (AssertionError "Mismatched tags: None x").
Proof. repeat split; vm_compute; reflexivity. Qed.

Lemma confidence_zero_iff_no_tokens_witness :
  exists out_fst out_sentences path' fo,
    apply_fst Examples.compiler_ok Examples.compile_id
              Examples.compose_right Examples.project_id
              (Py.re_split_ws (Py.lower (Py.strip "A B")))
              Examples.word_and_label true
    = Ok out_fst /\
    fstprintall 3 out_fst None false None None None 0
    = Some (Ok (out_sentences, path', fo)) /\
    (0 < List.length out_sentences)%nat /\
    (confidence (intent (mkIntent "a" (Some ["a"]) (mkIntentInfo "" (1 # 2)) []))
     == 0 <-> Some ["a"] = Some [])%Q /\
    (Some ["a"] <> Some [] ->
     confidence (intent (mkIntent "a" (Some ["a"]) (mkIntentInfo "" (1 # 2)) []))
     = (1 / inject_Z (Z.of_nat (List.length out_sentences)))%Q /\
     (0 < confidence
            (intent (mkIntent "a" (Some ["a"]) (mkIntentInfo "" (1 # 2)) [])))%Q).
Proof.
  apply (confidence_zero_iff_no_tokens
           Examples.compiler_ok Examples.compile_id
           Examples.compose_right Examples.project_id
           3 Examples.word_and_label "A B" None true
           [mkIntent "a" (Some ["a"]) (mkIntentInfo "" (1 # 2)) [];
            mkIntent "" (Some []) (mkIntentInfo "" (0 # 2)) []]
           []
           (mkIntent "a" (Some ["a"]) (mkIntentInfo "" (1 # 2)) [])).
  - vm_compute. reflexivity.
  - left. reflexivity.
Defined.

(** C3, as stated, fails: with the paths [a] and [__label__x] one path
    decodes with tokens, the other without, and the confidences add up to
    one half. *)
Lemma confidence_sum_counterexample :
  fstaccept Examples.compiler_ok Examples.compile_id
            Examples.compose_right Examples.project_id
            3 Examples.word_and_label "a" None true
  = Some ([mkIntent "a" (Some ["a"]) (mkIntentInfo "" (1 # 2)) [];
           mkIntent "" (Some []) (mkIntentInfo "" (0 # 2)) []], [])
  /\ (sum_confidence
        [mkIntent "a" (Some ["a"]) (mkIntentInfo "" (1 # 2)) [];
         mkIntent "" (Some []) (mkIntentInfo "" (0 # 2)) []] == 1 # 2)%Q
  /\ ~ (sum_confidence
          [mkIntent "a" (Some ["a"]) (mkIntentInfo "" (1 # 2)) [];
           mkIntent "" (Some []) (mkIntentInfo "" (0 # 2)) []] == 1)%Q.
Proof.
  split; [vm_compute; reflexivity|].
  split; [reflexivity|].
  intros H. vm_compute in H. discriminate H.
Qed.

Lemma confidence_is_a_share_of_all_paths_witness :
  exists intents,
    fstaccept Examples.compiler_ok Examples.compile_id Examples.compose_right
              Examples.project_id
              3 Examples.word_and_label "a" None true
    = Some (intents, []) /\
    List.length intents = 2%nat /\
    Forall2 (fun s r =>
               tokens r = Some (literals s) /\
               confidence (intent r)
               = ((if has_tokens r then 1 else 0)
                  / inject_Z (Z.of_nat 2))%Q)
            [["a"]; ["__label__x"]] intents /\
    (Forall (fun r => has_tokens r = false) intents ->
     sum_confidence intents == 0)%Q.
Proof.
  apply (confidence_is_a_share_of_all_paths
           Examples.compiler_ok Examples.compile_id Examples.compose_right
           Examples.project_id
           3 Examples.word_and_label "a" None true Examples.word_and_label
           [["a"]; ["__label__x"]] None None).
  - reflexivity.
  - vm_compute. reflexivity.
  - repeat constructor.
Defined.

(** ** Further properties of the symbol decoder *)

Section DecoderMore.

Variable replace_tags : bool.

Lemma label_not_eps sym : is_label sym = true -> is_eps sym = false.
Proof.
  unfold is_label, is_eps, Py.startswith. intros H.
  apply prefix_split in H. rewrite H. reflexivity.
Qed.

Lemma label_not_begin sym : is_label sym = true -> is_begin sym = false.
Proof.
  unfold is_label, is_begin, Py.startswith. intros H.
  apply prefix_split in H. rewrite H. reflexivity.
Qed.

Lemma label_not_end sym : is_label sym = true -> is_end sym = false.
Proof.
  unfold is_label, is_end, Py.startswith. intros H.
  apply prefix_split in H. rewrite H. reflexivity.
Qed.

(** A symbol that is neither begin nor end marker leaves the tag and the
    entities alone; a literal goes to the output buffer, and to the tag
    buffer when a tag with a non-empty name is open. *)
Lemma step_plain st sym :
  is_begin sym = false -> is_end sym = false ->
  exists st',
    step replace_tags st sym = Ok st' /\
    tag st' = tag st /\
    intent_var st' = intent_var st /\
    out_symbols st' = out_symbols st ++ literals [sym] /\
    tag_symbols st' =
      tag_symbols st ++ (if Py.truthy (tag st) then literals [sym] else []) /\
    intent_name st' =
      match intent_name st with
      | Some n => Some n
      | None => first_label [sym]
      end.
Proof.
  intros Hb He. unfold step, literals, first_label, is_literal. simpl.
  fold (is_eps sym) (is_begin sym) (is_end sym) (is_label sym).
  rewrite Hb, He.
  destruct (is_eps sym) eqn:Ee; simpl.
  { exists st. rewrite !app_nil_r.
    destruct (is_label sym) eqn:El.
    - apply label_not_eps in El. congruence.
    - destruct (Py.truthy (tag st)), (intent_name st);
        rewrite ?app_nil_r; auto 10. }
  destruct (is_label sym) eqn:El; simpl.
  { destruct (intent_name st) eqn:En; eexists; split; try reflexivity;
      simpl; rewrite ?app_nil_r;
      destruct (Py.truthy (tag st)); rewrite ?app_nil_r; auto 10. }
  destruct (Py.truthy (tag st)) eqn:Et; eexists; split; try reflexivity;
    simpl; rewrite ?app_nil_r; destruct (intent_name st); auto 10.
Qed.

Lemma first_label_cons sym l :
  first_label (sym :: l) =
  match first_label [sym] with
  | Some n => Some n
  | None => first_label l
  end.
Proof.
  unfold first_label. simpl. destruct (is_label sym); reflexivity.
Qed.

Lemma literals_cons sym l :
  literals (sym :: l) = literals [sym] ++ literals l.
Proof. exact (literals_app [sym] l). Qed.

Lemma loop_plain l : forall st,
  no_tag_marker l ->
  exists st',
    loop replace_tags st l = Ok st' /\
    tag st' = tag st /\
    intent_var st' = intent_var st /\
    out_symbols st' = out_symbols st ++ literals l /\
    tag_symbols st' =
      tag_symbols st ++ (if Py.truthy (tag st) then literals l else []) /\
    intent_name st' =
      match intent_name st with
      | Some n => Some n
      | None => first_label l
      end.
Proof.
  induction l as [|sym l IH]; intros st Hl.
  - exists st. simpl. rewrite !app_nil_r.
    destruct (Py.truthy (tag st)), (intent_name st);
      rewrite ?app_nil_r; auto 10.
  - destruct (Hl sym (or_introl eq_refl)) as [Hb He].
    destruct (step_plain st sym Hb He) as (st1 & E1 & T1 & I1 & O1 & B1 & N1).
    destruct (IH st1) as (st2 & E2 & T2 & I2 & O2 & B2 & N2).
    { intros s Hs. apply Hl. now right. }
    exists st2. cbn [loop]. rewrite E1.
    split; [exact E2|].
    rewrite T2, I2, O2, B2, N2, T1, I1, O1, B1, N1.
    rewrite <- !app_assoc.
    rewrite (literals_cons sym l), (first_label_cons sym l).
    split; [reflexivity|]. split; [reflexivity|]. split; [reflexivity|].
    split.
    + destruct (Py.truthy (tag st)); [reflexivity|now rewrite !app_nil_r].
    + destruct (intent_name st); [reflexivity|].
      now destruct (first_label [sym]).
Qed.

Lemma end_tag_fields st t :
  tag (end_tag replace_tags st t) = None /\
  intent_name (end_tag replace_tags st t) = intent_name st /\
  intent (intent_var (end_tag replace_tags st t)) = intent (intent_var st) /\
  tag_symbols (end_tag replace_tags st t) = tag_symbols st.
Proof.
  unfold end_tag.
  destruct (if replace_tags && Py.contains ":" t then _ else _);
    repeat split.
Qed.

(** One tag with its body, from any state. *)
Lemma loop_tagged t body st :
  no_tag_marker body ->
  exists st',
    loop replace_tags st (flatten1 (Tagged t body)) = Ok st' /\
    tag st' = None /\
    entities (intent_var st') =
      entities (intent_var st) ++ [entity_of replace_tags t body] /\
    intent (intent_var st') = intent (intent_var st) /\
    out_symbols st' = out_symbols st ++ literals body /\
    intent_name st' =
      match intent_name st with
      | Some n => Some n
      | None => first_label body
      end.
Proof.
  intros Hbody.
  destruct (loop_plain body (opened st ("__begin__" ++ t)) Hbody)
    as (st1 & E1 & T1 & I1 & O1 & B1 & N1).
  assert (Hslice9 : Py.slice_from 9 ("__begin__" ++ t) = t) by reflexivity.
  assert (Hslice7 : Py.slice_from 7 ("__end__" ++ t) = t) by reflexivity.
  assert (Hend : is_end ("__end__" ++ t) = true).
  { unfold is_end, Py.startswith. simpl.
    repeat (destruct (ascii_dec _ _); [|congruence]).
    now destruct t. }
  assert (Hbegin : is_begin ("__begin__" ++ t) = true).
  { unfold is_begin, Py.startswith. simpl.
    repeat (destruct (ascii_dec _ _); [|congruence]).
    now destruct t. }
  exists (end_tag replace_tags st1 t).
  split.
  - unfold flatten1. cbn [loop].
    rewrite (step_begin _ _ _ Hbegin), loop_app, E1. cbn [loop].
    rewrite (step_end _ _ _ Hend), T1. cbn [tag opened].
    rewrite Hslice9, Hslice7, String.eqb_refl. reflexivity.
  - destruct (end_tag_fields st1 t) as (F1 & F2 & F3 & _).
    rewrite end_tag_entities, end_tag_out_symbols, F1, F2, F3, I1, O1, N1.
    split; [reflexivity|]. split; [|auto].
    cbn [opened intent_var entities]. do 2 f_equal.
    unfold emitted, entity_of.
    destruct (replace_tags && Py.contains ":" t); [reflexivity|].
    rewrite B1. cbn [opened tag tag_symbols]. rewrite Hslice9.
    destruct t; reflexivity.
Qed.

End DecoderMore.

Section DecoderTheorems.

Variable replace_tags : bool.

Lemma loop_segments segs : forall st,
  Forall segment_ok segs ->
  exists st',
    loop replace_tags st (flatten segs) = Ok st' /\
    entities (intent_var st') =
      entities (intent_var st) ++ entities_of replace_tags segs.
Proof.
  induction segs as [|seg segs IH]; intros st Hok.
  - exists st. simpl. now rewrite app_nil_r.
  - inversion Hok as [|? ? Hseg Hrest]; subst.
    unfold flatten. cbn [flat_map]. fold (flatten segs).
    rewrite loop_app.
    destruct seg as [l|t body].
    + destruct (loop_plain replace_tags l st Hseg)
        as (st1 & E1 & _ & I1 & _).
      cbn [flatten1]. rewrite E1.
      destruct (IH st1 Hrest) as (st2 & E2 & H2).
      exists st2. split; [exact E2|]. now rewrite H2, I1.
    + destruct (loop_tagged replace_tags t body st Hseg)
        as (st1 & E1 & _ & H1 & _).
      rewrite E1.
      destruct (IH st1 Hrest) as (st2 & E2 & H2).
      exists st2. split; [exact E2|].
      rewrite H2, H1, <- app_assoc. reflexivity.
Qed.

Lemma begin_not_label sym : is_begin sym = true -> is_label sym = false.
Proof.
  unfold is_label, is_begin, Py.startswith. intros H.
  apply prefix_split in H. rewrite H. reflexivity.
Qed.

Lemma end_not_label sym : is_end sym = true -> is_label sym = false.
Proof.
  unfold is_label, is_end, Py.startswith. intros H.
  apply prefix_split in H. rewrite H. reflexivity.
Qed.

Lemma step_intent_name st sym st' :
  step replace_tags st sym = Ok st' ->
  intent_name st' =
  match intent_name st with
  | Some n => Some n
  | None => first_label [sym]
  end.
Proof.
  destruct (is_begin sym) eqn:Eb.
  { rewrite (step_begin _ _ _ Eb). intros [= <-]. simpl.
    unfold first_label. simpl. rewrite (begin_not_label _ Eb).
    now destruct (intent_name st). }
  destruct (is_end sym) eqn:Ee.
  { rewrite (step_end _ _ _ Ee).
    destruct (tag st) as [t|]; [|discriminate].
    destruct (String.eqb t _); [|discriminate].
    intros [= <-].
    destruct (end_tag_fields replace_tags st t) as (_ & -> & _).
    unfold first_label. simpl. rewrite (end_not_label _ Ee).
    now destruct (intent_name st). }
  destruct (step_plain replace_tags st sym Eb Ee) as (st1 & E1 & _ & _ & _ & _ & N1).
  rewrite E1. now intros [= <-].
Qed.

Lemma loop_intent_name l : forall st st',
  loop replace_tags st l = Ok st' ->
  intent_name st' =
  match intent_name st with
  | Some n => Some n
  | None => first_label l
  end.
Proof.
  induction l as [|sym l IH]; intros st st'; cbn [loop].
  - intros [= <-]. now destruct (intent_name st).
  - destruct (step replace_tags st sym) as [st1|] eqn:E; [|discriminate].
    intros H. rewrite (IH _ _ H), (step_intent_name _ _ _ E).
    rewrite (first_label_cons sym l).
    destruct (intent_name st); [reflexivity|].
    now destruct (first_label [sym]).
Qed.

(** X1.  A sequence made of flat segments (stretches without begin or end
    marker, and tags [__begin__<t> body __end__<t>] whose body has none)
    always decodes.  The entities of the record are those of the record
    passed in followed by one entity per tag, in order: name and value are
    the two sides of the first colon of [t] when the replacement policy is
    on and [t] has a colon; otherwise the name is [t] and the value the
    space-joined literal symbols of the body, or the empty string when [t]
    is empty. *)
Theorem flat_tags_decode (segs : list segment) (eps : string)
  (intent0 : option Intent) (name0 : option string) :
  Forall segment_ok segs ->
  exists r,
    symbols2intent (flatten segs) eps intent0 name0 replace_tags = Ok r /\
    entities r =
      entities (initial_intent intent0) ++ entities_of replace_tags segs /\
    tokens r = Some (literals (flatten segs)).
Proof.
  intros Hok.
  destruct (loop_segments segs (init intent0 name0) Hok) as (st & E & He).
  exists (finish st).
  assert (Hr : symbols2intent (flatten segs) eps intent0 name0 replace_tags
               = Ok (finish st)).
  { unfold symbols2intent. now rewrite E. }
  split; [exact Hr|]. split.
  - rewrite finish_entities, He. reflexivity.
  - now apply (symbols2intent_tokens _ _ _ _ _ _ Hr).
Qed.

(** X2.  The tokens of a decoded record are the symbols of the sequence
    that are neither the string ["<eps>"] nor a begin, end or label
    marker, in order and whether inside a tag or not; the text is these
    tokens joined by single spaces. *)
Theorem text_and_tokens_are_literals (symbols : list string) (eps : string)
  (intent0 : option Intent) (name0 : option string) (r : Intent) :
  symbols2intent symbols eps intent0 name0 replace_tags = Ok r ->
  tokens r = Some (literals symbols) /\
  text r = Py.join " " (literals symbols).
Proof. apply symbols2intent_tokens. Qed.


Lemma symbols2intent_name symbols eps intent0 name0 r :
  symbols2intent symbols eps intent0 name0 replace_tags = Ok r ->
  (literals symbols <> [] ->
   name (intent r) =
     match name0 with
     | Some n => n
     | None => match first_label symbols with Some n => n | None => "" end
     end /\
   confidence (intent r) = 1%Q) /\
  (literals symbols = [] -> intent r = intent (initial_intent intent0)).
Proof.
  unfold symbols2intent.
  destruct (loop replace_tags (init intent0 name0) symbols) as [st|] eqn:E;
    [|discriminate].
  intros [= <-].
  pose proof (loop_out_symbols _ _ _ _ E) as Ho.
  pose proof (loop_intent_name _ _ _ E) as Hn.
  pose proof (loop_intent_info _ _ _ _ E) as Hi.
  cbn [init out_symbols intent_name intent_var app] in Ho, Hn, Hi.
  unfold finish. rewrite Ho. cbn [intent name confidence].
  split.
  - intros Hne. destruct (literals symbols) as [|x xs]; [congruence|].
    cbn [intent name confidence]. rewrite Hn.
    split; [|reflexivity].
    destruct name0; [reflexivity|]. now destruct (first_label symbols).
  - intros ->. cbn [intent]. exact Hi.
Qed.

(** X3.  The intent name of a decoded record with at least one token is
    the name passed in when there is one (even the empty string), else
    the name of the first label marker of the sequence, else the empty
    string; its confidence is 1.  A record without token keeps the name
    and confidence of the record passed in (empty name and 0 for a fresh
    one). *)
Theorem intent_name_resolution (symbols : list string) (eps : string)
  (intent0 : option Intent) (name0 : option string) (r : Intent) :
  symbols2intent symbols eps intent0 name0 replace_tags = Ok r ->
  (literals symbols <> [] ->
   name (intent r) =
     match name0 with
     | Some n => n
     | None => match first_label symbols with Some n => n | None => "" end
     end /\
   confidence (intent r) = 1%Q) /\
  (literals symbols = [] -> intent r = intent (initial_intent intent0)).
Proof. apply symbols2intent_name. Qed.

(** X4.  A sequence without end marker never fails to decode, however
    many begin markers it has, and adds no entity to the record. *)
Theorem no_end_marker_never_raises (symbols : list string) (eps : string)
  (intent0 : option Intent) (name0 : option string) :
  (forall sym, In sym symbols -> is_end sym = false) ->
  exists r,
    symbols2intent symbols eps intent0 name0 replace_tags = Ok r /\
    entities r = entities (initial_intent intent0).
Proof.
  intros Hno.
  assert (H : forall l st,
             (forall sym, In sym l -> is_end sym = false) ->
             exists st', loop replace_tags st l = Ok st' /\
                         entities (intent_var st') = entities (intent_var st)).
  { induction l as [|sym l IH]; intros st Hl.
    - exists st. auto.
    - cbn [loop].
      assert (Hl' : forall s, In s l -> is_end s = false)
        by (intros s Hs; apply Hl; now right).
      destruct (is_begin sym) eqn:Eb.
      + rewrite (step_begin _ _ _ Eb).
        destruct (IH (opened st sym) Hl') as (st' & E & He).
        exists st'. auto.
      + destruct (step_plain replace_tags st sym Eb (Hl sym (or_introl eq_refl)))
          as (st1 & E1 & _ & I1 & _).
        rewrite E1.
        destruct (IH st1 Hl') as (st' & E & He).
        exists st'. split; [exact E|]. now rewrite He, I1. }
  destruct (H symbols (init intent0 name0) Hno) as (st & E & He).
  exists (finish st). unfold symbols2intent. rewrite E.
  split; [reflexivity|]. rewrite finish_entities. exact He.
Qed.

End DecoderTheorems.

Lemma step_flag rt1 rt2 a b sym :
  same_but_entities a b ->
  match step rt1 a sym, step rt2 b sym with
  | Ok a', Ok b' => same_but_entities a' b'
  | Raise e1, Raise e2 => e1 = e2
  | _, _ => False
  end.
Proof.
  intros (Ht & Hb & Ho & Hn & Hi & Hl).
  unfold step. rewrite <- Ht, <- Hb, <- Ho, <- Hn.
  destruct (String.eqb sym "<eps>"); [repeat split; auto|].
  destruct (Py.startswith sym "__begin__"); [repeat split; auto|].
  destruct (Py.startswith sym "__end__").
  { destruct (tag a) as [t|]; [|reflexivity].
    destruct (String.eqb t (Py.slice_from 7 sym)); [|reflexivity].
    destruct (end_tag_fields rt1 a t) as (A1 & A2 & A3 & A4).
    destruct (end_tag_fields rt2 b t) as (B1 & B2 & B3 & B4).
    unfold same_but_entities.
    rewrite A1, A2, A3, A4, B1, B2, B3, B4, !end_tag_out_symbols,
      !end_tag_entities, !length_app.
    repeat split; auto; simpl; lia. }
  destruct (Py.startswith sym "__label__").
  { destruct (intent_name a) eqn:En; repeat split; auto; congruence. }
  destruct (Py.truthy (tag a)); repeat split; auto.
Qed.

Lemma loop_flag rt1 rt2 l : forall a b,
  same_but_entities a b ->
  match loop rt1 a l, loop rt2 b l with
  | Ok a', Ok b' => same_but_entities a' b'
  | Raise e1, Raise e2 => e1 = e2
  | _, _ => False
  end.
Proof.
  induction l as [|sym l IH]; intros a b H; cbn [loop].
  - exact H.
  - pose proof (step_flag rt1 rt2 a b sym H) as Hs.
    destruct (step rt1 a sym) as [a'|e1], (step rt2 b sym) as [b'|e2];
      try contradiction.
    + now apply IH.
    + exact Hs.
Qed.

Lemma symbols2intent_flag symbols eps intent0 name0 rt1 rt2 :
  agree_but_entities
    (symbols2intent symbols eps intent0 name0 rt1)
    (symbols2intent symbols eps intent0 name0 rt2).
Proof.
  unfold symbols2intent, agree_but_entities.
  assert (H0 : same_but_entities (init intent0 name0) (init intent0 name0))
    by (repeat split).
  pose proof (loop_flag rt1 rt2 symbols _ _ H0) as H.
  destruct (loop rt1 (init intent0 name0) symbols) as [a|e1],
           (loop rt2 (init intent0 name0) symbols) as [b|e2];
    try contradiction; [|exact H].
  destruct H as (Ht & Hb & Ho & Hn & Hi & Hl).
  unfold finish. rewrite Ho, Hn, Hi. cbn [text tokens intent entities].
  repeat split; auto.
Qed.

(** X5.  Whether a sequence decodes, and with which exception it fails,
    does not depend on the replacement policy; nor do the text, the
    tokens, the intent name, the confidence and the number of entities of
    the record.  The policy only changes the entities themselves. *)
Theorem policy_changes_entities_only (symbols : list string) (eps : string)
  (intent0 : option Intent) (name0 : option string) (rt1 rt2 : bool) :
  agree_but_entities
    (symbols2intent symbols eps intent0 name0 rt1)
    (symbols2intent symbols eps intent0 name0 rt2).
Proof. apply symbols2intent_flag. Qed.

(** ** Further properties of the path enumerator *)

Lemma string_app_assoc (a b c : string) :
  ((a ++ b) ++ c = a ++ (b ++ c))%string.
Proof. induction a as [|x a IH]; simpl; [reflexivity|now rewrite IH]. Qed.

Lemma string_app_nil_r (a : string) : (a ++ "")%string = a.
Proof. induction a as [|x a IH]; simpl; [reflexivity|now rewrite IH]. Qed.

Lemma print_lines_app (l1 l2 : list sentence) :
  print_lines (l1 ++ l2) = (print_lines l1 ++ print_lines l2)%string.
Proof.
  induction l1 as [|s l1 IH]; simpl; [reflexivity|].
  now rewrite IH, !string_app_assoc.
Qed.

Lemma print_symbols_app (l1 l2 : sentence) :
  print_symbols (l1 ++ l2) = (print_symbols l1 ++ print_symbols l2)%string.
Proof.
  induction l1 as [|s l1 IH]; simpl; [reflexivity|].
  now rewrite IH, !string_app_assoc.
Qed.

Section FileMode.

Variable in_fst : Fst.
Variable exclude_meta : bool.
Variable eps : Z.

Lemma path_symbols_file path : forall t acc,
  path_symbols in_fst (Some t) exclude_meta eps path acc =
  match path_symbols in_fst None exclude_meta eps path [] with
  | Ok (sent, _) => Ok (acc, Some (t ++ print_symbols sent)%string)
  | Raise e => Raise e
  end.
Proof.
  induction path as [|a path IH]; intros t acc; cbn [path_symbols].
  - simpl. now rewrite string_app_nil_r.
  - destruct (Z.eqb (olabel a) eps); [apply IH|].
    destruct (output_symbols in_fst (olabel a)) as [osym|]; [|reflexivity].
    destruct (exclude_meta && Py.startswith osym "__"); [apply IH|].
    rewrite IH. cbn [app].
    rewrite (path_symbols_acc in_fst eps exclude_meta path [osym]).
    destruct (path_symbols in_fst None exclude_meta eps path [])
      as [[sent fo]|]; [|reflexivity].
    cbn [app print_symbols fold_right].
    now rewrite !string_app_assoc.
Qed.

Lemma arcs_loop_acc rec zero_weight (al : list Arc) :
  forall path out_file sents,
    arcs_loop rec in_fst exclude_meta zero_weight eps al path out_file sents =
    match arcs_loop rec in_fst exclude_meta zero_weight eps al path out_file []
    with
    | Some (Ok (ss, p, fo)) => Some (Ok (sents ++ ss, p, fo))
    | other => other
    end.
Proof.
  induction al as [|arc al IH]; intros path out_file sents; cbn [arcs_loop].
  - now rewrite app_nil_r.
  - destruct (final in_fst (nextstate arc)) as [w|]; [|reflexivity].
    destruct (negb (weight_eqb w zero_weight)).
    + destruct (path_symbols in_fst out_file exclude_meta eps
                             (path ++ [arc]) [])
        as [[sent fo1]|]; [|reflexivity].
      destruct (pop (path ++ [arc])) as [path2|]; [|reflexivity].
      destruct fo1 as [t|].
      * apply IH.
      * rewrite (IH path2 None (sents ++ [sent])),
          (IH path2 None ([] ++ [sent])).
        destruct (arcs_loop rec in_fst exclude_meta zero_weight eps al path2
                            None []) as [[[[ss p] fo]|]|]; try reflexivity.
        now rewrite <- app_assoc.
    + destruct (rec (nextstate arc) (path ++ [arc]) out_file)
        as [[[[more p1] fo1]|]|]; try reflexivity.
      destruct (pop p1) as [path2|]; [|reflexivity].
      rewrite (IH path2 fo1 (sents ++ more)), (IH path2 fo1 ([] ++ more)).
      destruct (arcs_loop rec in_fst exclude_meta zero_weight eps al path2
                          fo1 []) as [[[[ss p] fo]|]|]; try reflexivity.
      now rewrite <- app_assoc.
Qed.

Lemma arcs_loop_file rec zero_weight :
  (forall s p t, rec s p (Some t) = printed t (rec s p None)) ->
  keeps_no_file rec ->
  forall al path t sents,
    arcs_loop rec in_fst exclude_meta zero_weight eps al path (Some t) sents =
    match arcs_loop rec in_fst exclude_meta zero_weight eps al path None []
    with
    | Some (Ok (ss, p, _)) =>
        Some (Ok (sents, p, Some (t ++ print_lines ss)%string))
    | other => other
    end.
Proof.
  intros Hrec Hfile.
  induction al as [|arc al IH]; intros path t sents; cbn [arcs_loop].
  - simpl. now rewrite string_app_nil_r.
  - destruct (final in_fst (nextstate arc)) as [w|]; [|reflexivity].
    destruct (negb (weight_eqb w zero_weight)).
    + rewrite path_symbols_file.
      destruct (path_symbols in_fst None exclude_meta eps (path ++ [arc]) [])
        as [[sent fo1]|] eqn:E; [|reflexivity].
      apply path_symbols_no_file in E. subst fo1.
      destruct (pop (path ++ [arc])) as [path2|]; [|reflexivity].
      rewrite IH, (arcs_loop_acc rec zero_weight al path2 None ([] ++ [sent])).
      destruct (arcs_loop rec in_fst exclude_meta zero_weight eps al path2
                          None []) as [[[[ss p] fo]|]|]; try reflexivity.
      cbn [app print_lines fold_right]. now rewrite !string_app_assoc.
    + rewrite Hrec.
      destruct (rec (nextstate arc) (path ++ [arc]) None)
        as [[[[more p1] fo1]|]|] eqn:E; try reflexivity.
      apply Hfile in E. subst fo1. cbn [printed].
      destruct (pop p1) as [path2|]; [|reflexivity].
      rewrite IH, (arcs_loop_acc rec zero_weight al path2 None ([] ++ more)).
      destruct (arcs_loop rec in_fst exclude_meta zero_weight eps al path2
                          None []) as [[[[ss p] fo]|]|]; try reflexivity.
      cbn [app]. now rewrite app_nil_r, print_lines_app, string_app_assoc.
Qed.

End FileMode.

(** X6.  With a file, [fstprintall] returns the empty list and appends
    to the file one line per path that the same call without a file
    returns a sentence for, in the same order: the symbols of the
    sentence, each followed by a space, then a line feed.  It raises or
    fails to come back exactly when the call without a file does. *)
Theorem file_mode_prints_the_sentences (fuel : nat) (in_fst : Fst)
  (t : string) (exclude_meta : bool) (state : option Z)
  (path : option (list Arc)) (zero_weight : option Weight) (eps : Z) :
  fstprintall fuel in_fst (Some t) exclude_meta state path zero_weight eps =
  printed t
    (fstprintall fuel in_fst None exclude_meta state path zero_weight eps).
Proof.
  revert t state path zero_weight.
  induction fuel as [|fuel IH]; intros t state path zero_weight.
  - reflexivity.
  - cbn [fstprintall].
    destruct (arcs in_fst (state_or_start in_fst state)) as [al|];
      [|reflexivity].
    match goal with
    | |- context [arcs_loop ?r _ _ _ _ _ _ None _] => set (rec := r)
    end.
    rewrite (arcs_loop_file in_fst exclude_meta eps rec).
    + destruct (arcs_loop rec in_fst exclude_meta _ eps al _ None [])
        as [[[[ss p] fo]|]|]; reflexivity.
    + intros s p t'. unfold rec. rewrite IH.
      destruct (fstprintall fuel in_fst None exclude_meta (Some s) (Some p)
                            _ eps) as [[[[ss p'] fo]|]|]; reflexivity.
    + intros s p ss p' fo. unfold rec.
      destruct (fstprintall fuel in_fst None exclude_meta (Some s) (Some p)
                            _ eps) as [[[[ss3 p3] f3]|]|] eqn:E3;
        try discriminate.
      intros [= <- <- <-]. now apply fstprintall_no_file in E3.
Qed.

(** X7.  Literal-only mode returns one sentence per sentence of
    all-symbols mode, the same with the symbols of two-underscore prefix
    removed (a path of such symbols only gives an empty sentence); it
    raises the same exception, or fails to come back, exactly when
    all-symbols mode does. *)
Theorem literal_mode_same_outcome (fuel : nat) (in_fst : Fst)
  (state : option Z) (path : option (list Arc))
  (zero_weight : option Weight) (eps : Z) :
  match fstprintall fuel in_fst None true state path zero_weight eps,
        fstprintall fuel in_fst None false state path zero_weight eps with
  | Some (Ok (lit, p1, _)), Some (Ok (all, p2, _)) =>
      lit = map strip_meta all /\ List.length lit = List.length all /\ p1 = p2
  | Some (Raise e1), Some (Raise e2) => e1 = e2
  | None, None => True
  | _, _ => False
  end.
Proof.
  rewrite fstprintall_strip.
  destruct (fstprintall fuel in_fst None false state path zero_weight eps)
    as [[[[all p] fo]|e]|]; auto.
  repeat split. now rewrite length_map.
Qed.

Section Cycles.

Variable f : Fst.
Variable S : Z -> Prop.
Hypothesis f_trap : trap f S.

Lemma arcs_loop_trapped rec exclude_meta eps al :
  (exists a, In a al /\ final f (nextstate a) = Some WZero /\
             forall p fo, ~ returned (rec (nextstate a) p fo)) ->
  forall path fo sents,
    ~ returned (arcs_loop rec f exclude_meta WZero eps al path fo sents).
Proof.
  induction al as [|arc al IH]; intros (a & Hin & Hf & Hrec) path fo sents.
  - destruct Hin.
  - cbn [arcs_loop].
    assert (Hrest : a <> arc ->
                    forall path fo sents,
                      ~ returned (arcs_loop rec f exclude_meta WZero eps al
                                            path fo sents)).
    { intros Hne. apply IH. exists a. repeat split; auto.
      destruct Hin as [->|Hin]; [congruence|exact Hin]. }
    destruct (final f (nextstate arc)) as [w|] eqn:Hfa;
      [|intros [x Hx]; discriminate].
    destruct (weight_eqb w WZero) eqn:Hw; cbn [negb].
    + destruct (rec (nextstate arc) (path ++ [arc]) fo)
        as [[[[more p1] fo1]|]|] eqn:E;
        try (intros [x Hx]; discriminate).
      destruct Hin as [<-|Hin].
      * exfalso. apply (Hrec (path ++ [arc]) fo). rewrite E.
        now eexists.
      * destruct (pop p1); [|intros [x Hx]; discriminate].
        apply IH. exists a. auto.
    + assert (Hne : a <> arc).
      { intros ->. rewrite Hf in Hfa. injection Hfa as <-. discriminate. }
      destruct (path_symbols f fo exclude_meta eps (path ++ [arc]) [])
        as [[sent fo1]|]; [|intros [x Hx]; discriminate].
      destruct (pop (path ++ [arc])); [|intros [x Hx]; discriminate].
      now apply Hrest.
Qed.

(** X8.  [fstprintall] has no guard against cycles: called on a state of
    a set that the enumeration cannot leave (a cycle of arcs between
    non-accepting states, say) it never returns a list, whatever the
    number of nested calls allowed; it can only raise or go on. *)
Theorem no_return_from_a_cycle (fuel : nat) (out_file : option string)
  (exclude_meta : bool) (state : option Z) (path : option (list Arc))
  (zero_weight : option Weight) (eps : Z) :
  S (state_or_start f state) ->
  zero_weight = None \/ zero_weight = Some WZero ->
  ~ returned (fstprintall fuel f out_file exclude_meta state path
                          zero_weight eps).
Proof.
  revert out_file state path zero_weight.
  induction fuel as [|fuel IH]; intros out_file state path zero_weight Hs Hz.
  - intros [x Hx]. discriminate.
  - cbn [fstprintall].
    assert (Hzw : match zero_weight with
                  | Some w => w
                  | None => Weight_Zero f
                  end = WZero) by (destruct Hz; subst; reflexivity).
    rewrite Hzw.
    destruct (f_trap _ Hs) as (al & a & Ha & Hin & Hf & Hnext).
    rewrite Ha.
    match goal with
    | |- context [arcs_loop ?r _ _ _ _ _ _ _ _] => set (rec := r)
    end.
    assert (Hloop : ~ returned (arcs_loop rec f exclude_meta WZero eps al
                                          (path_or_new path) out_file [])).
    { apply arcs_loop_trapped. exists a. repeat split; auto.
      intros p fo [x Hx]. unfold rec in Hx.
      destruct (fstprintall fuel f fo exclude_meta (Some (nextstate a))
                            (Some p) (Some WZero) eps)
        as [[[[ss p'] fo']|]|] eqn:E; try discriminate.
      apply (IH fo (Some (nextstate a)) (Some p) (Some WZero) Hnext
                (or_intror eq_refl)).
      rewrite E. now eexists. }
    intros [x Hx]. apply Hloop.
    destruct (arcs_loop rec f exclude_meta WZero eps al (path_or_new path)
                        out_file []) as [[[[ss p'] fo']|]|];
      try discriminate.
    now eexists.
Qed.

End Cycles.

Lemma no_return_from_a_cycle_witness :
  ~ returned (fstprintall 50 MoreExamples.cyclic None false None None None 0).
Proof.
  apply (no_return_from_a_cycle MoreExamples.cyclic
           (fun s => s = 0%Z \/ s = 1%Z)).
  - intros s [->| ->].
    + exists [Examples.arc 1 1], (Examples.arc 1 1).
      repeat split; [now left|now right].
    + exists [Examples.arc 1 2; Examples.arc 2 1], (Examples.arc 2 1).
      repeat split; [right; now left|now right].
  - now left.
  - now left.
Defined.

Section PathPrefix.

Variable f : Fst.
Variable exclude_meta : bool.
Variable eps : Z.

Lemma path_symbols_concat p q :
  path_symbols f None exclude_meta eps (p ++ q) [] =
  match path_symbols f None exclude_meta eps p [] with
  | Ok (s1, _) =>
      match path_symbols f None exclude_meta eps q [] with
      | Ok (s2, _) => Ok (s1 ++ s2, None)
      | Raise e => Raise e
      end
  | Raise e => Raise e
  end.
Proof.
  induction p as [|a p IH]; cbn [app path_symbols].
  - destruct (path_symbols f None exclude_meta eps q []) as [[s2 fo]|] eqn:E;
      [|reflexivity].
    now apply path_symbols_no_file in E; subst.
  - destruct (Z.eqb (olabel a) eps); [exact IH|].
    destruct (output_symbols f (olabel a)) as [osym|]; [|reflexivity].
    destruct (exclude_meta && Py.startswith osym "__"); [exact IH|].
    rewrite (path_symbols_acc f eps exclude_meta (p ++ q) [osym]),
      (path_symbols_acc f eps exclude_meta p [osym]), IH.
    destruct (path_symbols f None exclude_meta eps p []) as [[s1 fo1]|];
      [|reflexivity].
    destruct (path_symbols f None exclude_meta eps q []) as [[s2 fo2]|];
      reflexivity.
Qed.

Variable pth : list Arc.
Variable pre : sentence.
Hypothesis pth_output :
  path_symbols f None exclude_meta eps pth [] = Ok (pre, None).

Lemma arcs_loop_prefix rec zero_weight :
  prefixes pth pre rec ->
  forall al p sents ss p' fo,
    arcs_loop rec f exclude_meta zero_weight eps al p None sents
    = Some (Ok (ss, p', fo)) ->
    arcs_loop rec f exclude_meta zero_weight eps al (pth ++ p) None
              (map (app pre) sents)
    = Some (Ok (map (app pre) ss, pth ++ p, None)).
Proof.
  intros Hrec.
  induction al as [|arc al IH]; intros p sents ss p' fo; cbn [arcs_loop].
  - now intros [= <- _ _].
  - destruct (final f (nextstate arc)) as [w|]; [|discriminate].
    rewrite <- (app_assoc pth p [arc]).
    destruct (negb (weight_eqb w zero_weight)).
    + rewrite (path_symbols_concat pth (p ++ [arc])), pth_output.
      destruct (path_symbols f None exclude_meta eps (p ++ [arc]) [])
        as [[sent fo1]|] eqn:E; [|discriminate].
      apply path_symbols_no_file in E. subst fo1.
      rewrite (app_assoc pth p [arc]), !pop_push.
      intros H. apply IH in H.
      now rewrite map_app in H.
    + destruct (rec (nextstate arc) (p ++ [arc]) None)
        as [[[[more p1] fo1]|]|] eqn:E; try discriminate.
      destruct (Hrec _ _ _ _ _ E) as (-> & -> & E2).
      rewrite E2.
      rewrite (app_assoc pth p [arc]), !pop_push.
      intros H. apply IH in H. now rewrite map_app in H.
Qed.

End PathPrefix.

Lemma path_or_new_some (l : list Arc) : path_or_new (Some l) = l.
Proof. now destruct l. Qed.

Lemma fstprintall_prefix (f : Fst) (exclude_meta : bool) (eps : Z)
  (pth : list Arc) (pre : sentence) :
  path_symbols f None exclude_meta eps pth [] = Ok (pre, None) ->
  forall fuel state path zero_weight ss p' fo,
    fstprintall fuel f None exclude_meta state path zero_weight eps
    = Some (Ok (ss, p', fo)) ->
    fstprintall fuel f None exclude_meta state
                (Some (pth ++ path_or_new path)) zero_weight eps
    = Some (Ok (map (app pre) ss, Some (pth ++ path_or_new path), None)).
Proof.
  intros Hpre.
  induction fuel as [|fuel IH]; intros state path zero_weight ss p' fo.
  - discriminate.
  - cbn [fstprintall]. rewrite path_or_new_some.
    destruct (arcs f (state_or_start f state)) as [al|]; [|discriminate].
    match goal with
    | |- context [arcs_loop ?r _ _ _ _ _ _ _ _] => set (rec := r)
    end.
    destruct (arcs_loop rec f exclude_meta _ eps al (path_or_new path)
                        None []) as [[[[ss1 local'] f1]|]|] eqn:E;
      try discriminate.
    intros [= <- _ _].
    apply (arcs_loop_prefix f exclude_meta eps pth pre Hpre rec) in E.
    + cbn [map] in E.
      match goal with
      | |- match ?X with _ => _ end = _ =>
          replace X with (Some (Ok (map (app pre) ss1,
                                    pth ++ path_or_new path, @None string)))
            by (symmetry; exact E)
      end.
      do 3 f_equal.
      destruct (pth ++ path_or_new path); reflexivity.
    + intros s p ss2 p2 fo2. unfold rec.
      destruct (fstprintall fuel f None exclude_meta (Some s) (Some p) _ eps)
        as [[[[ss3 p3] f3]|]|] eqn:E3; try discriminate.
      intros [= <- <- <-].
      pose proof (fstprintall_restores _ _ _ _ _ _ _ _ _ _ _ E3) as ->.
      pose proof (fstprintall_no_file _ _ _ _ _ _ _ _ _ _ E3) as ->.
      apply IH in E3. rewrite path_or_new_some in E3. rewrite E3.
      repeat split.
Qed.

(** X9.  A path buffer supplied by the caller acts as a prefix: when its
    output symbols resolve to [pre], the call returns the sentences of the
    call without a buffer, each with [pre] in front and in the same order,
    and gives the buffer back unchanged. *)
Theorem supplied_path_is_a_prefix (fuel : nat) (f : Fst)
  (exclude_meta : bool) (state : option Z) (pth : list Arc)
  (zero_weight : option Weight) (eps : Z) (pre : sentence)
  (ss : list sentence) (p' : option (list Arc)) (fo : option string) :
  path_symbols f None exclude_meta eps pth [] = Ok (pre, None) ->
  fstprintall fuel f None exclude_meta state None zero_weight eps
  = Some (Ok (ss, p', fo)) ->
  fstprintall fuel f None exclude_meta state (Some pth) zero_weight eps
  = Some (Ok (map (app pre) ss, Some pth, None)).
Proof.
  intros Hpre H.
  pose proof (fstprintall_prefix f exclude_meta eps pth pre Hpre
                fuel state None zero_weight ss p' fo H) as H'.
  cbn [path_or_new] in H'. now rewrite app_nil_r in H'.
Qed.

Lemma supplied_path_is_a_prefix_witness :
  fstprintall 5 Examples.tagged None true None
              (Some [Examples.arc 1 0; Examples.arc 4 0]) None 0
  = Some (Ok (map (app ["a"]) [["boston"]; ["a"; "b"]],
              Some [Examples.arc 1 0; Examples.arc 4 0], None)).
Proof.
  apply (supplied_path_is_a_prefix 5 Examples.tagged true None
           [Examples.arc 1 0; Examples.arc 4 0] None 0 ["a"]
           [["boston"]; ["a"; "b"]] None None).
  - reflexivity.
  - vm_compute. reflexivity.
Defined.

(** ** The allowance of nested calls

    The number of nested calls allowed belongs to the embedding, not to
    the code.  The two lemmas below only show that it is harmless: an
    outcome reached within an allowance is the outcome within any larger
    one. *)

Lemma arcs_loop_mono rec1 rec2 in_fst exclude_meta zero_weight eps :
  (forall s p fo r, rec1 s p fo = Some r -> rec2 s p fo = Some r) ->
  forall al path fo sents r,
    arcs_loop rec1 in_fst exclude_meta zero_weight eps al path fo sents
    = Some r ->
    arcs_loop rec2 in_fst exclude_meta zero_weight eps al path fo sents
    = Some r.
Proof.
  intros Hrec.
  induction al as [|arc al IH]; intros path fo sents r; cbn [arcs_loop].
  - auto.
  - destruct (final in_fst (nextstate arc)) as [w|]; [|auto].
    destruct (negb (weight_eqb w zero_weight)).
    + destruct (path_symbols in_fst fo exclude_meta eps (path ++ [arc]) [])
        as [[sent fo1]|]; [|auto].
      destruct (pop (path ++ [arc])); [apply IH|auto].
    + destruct (rec1 (nextstate arc) (path ++ [arc]) fo) as [r1|] eqn:E;
        [|discriminate].
      rewrite (Hrec _ _ _ _ E).
      destruct r1 as [[[more p1] fo1]|]; [|auto].
      destruct (pop p1); [apply IH|auto].
Qed.

Lemma fstprintall_step_mono fuel in_fst :
  forall out_file exclude_meta state path zero_weight eps r,
    fstprintall fuel in_fst out_file exclude_meta state path zero_weight eps
    = Some r ->
    fstprintall (S fuel) in_fst out_file exclude_meta state path
                zero_weight eps
    = Some r.
Proof.
  induction fuel as [|fuel IH];
    intros out_file exclude_meta state path zero_weight eps r.
  - discriminate.
  - intros H.
    change (fstprintall (S (S fuel)) in_fst out_file exclude_meta state path
                        zero_weight eps)
      with (match arcs in_fst (state_or_start in_fst state) with
            | None => Some (Raise (FstError "arcs"))
            | Some al =>
                match arcs_loop
                        (fun s p f =>
                           match fstprintall (S fuel) in_fst f exclude_meta
                                             (Some s) (Some p)
                                             (Some match zero_weight with
                                                   | Some w => w
                                                   | None => Weight_Zero in_fst
                                                   end) eps with
                           | None => None
                           | Some (Raise e) => Some (Raise e)
                           | Some (Ok (ss, p', f')) =>
                               Some (Ok (ss, buffer_of p', f'))
                           end)
                        in_fst exclude_meta
                        match zero_weight with
                        | Some w => w
                        | None => Weight_Zero in_fst
                        end eps al (path_or_new path) out_file [] with
                | None => None
                | Some (Raise e) => Some (Raise e)
                | Some (Ok (ss, local', f')) =>
                    Some (Ok (ss, caller_path path local', f'))
                end
            end).
    cbn [fstprintall] in H.
    destruct (arcs in_fst (state_or_start in_fst state)) as [al|];
      [|exact H].
    match type of H with
    | context [arcs_loop ?r1 _ _ _ _ _ _ _ _] => set (rec1 := r1) in H
    end.
    match goal with
    | |- context [arcs_loop ?r2 _ _ _ _ _ _ _ _] => set (rec2 := r2)
    end.
    assert (Hrec : forall s p fo r0,
               rec1 s p fo = Some r0 -> rec2 s p fo = Some r0).
    { intros s p fo r0. unfold rec1, rec2.
      destruct (fstprintall fuel in_fst fo exclude_meta (Some s) (Some p)
                            _ eps) as [r'|] eqn:E'; [|discriminate].
      now rewrite (IH _ _ _ _ _ _ _ E'). }
    destruct (arcs_loop rec1 in_fst exclude_meta _ eps al (path_or_new path)
                        out_file []) as [r1|] eqn:E; [|discriminate].
    rewrite (arcs_loop_mono rec1 rec2 _ _ _ _ Hrec _ _ _ _ _ E).
    exact H.
Qed.

(** ** Normalisation and tokenization of the sentence *)

Lemma isspace_lower_char (c : ascii) :
  Py.isspace (Py.lower_char c) = Py.isspace c.
Proof. destruct c as [[] [] [] [] [] [] [] []]; reflexivity. Qed.

Lemma lower_char_idem (c : ascii) :
  Py.lower_char (Py.lower_char c) = Py.lower_char c.
Proof. destruct c as [[] [] [] [] [] [] [] []]; reflexivity. Qed.

Lemma lower_idem (s : string) : Py.lower (Py.lower s) = Py.lower s.
Proof.
  induction s as [|c s IH]; simpl; [reflexivity|].
  now rewrite lower_char_idem, IH.
Qed.

Lemma lower_lowered (s : string) : all_chars lowered (Py.lower s) = true.
Proof.
  induction s as [|c s IH]; simpl; [reflexivity|].
  rewrite IH, andb_true_r. unfold lowered.
  rewrite lower_char_idem. apply Ascii.eqb_refl.
Qed.

Lemma lower_fixed (w : string) :
  all_chars lowered w = true -> Py.lower w = w.
Proof.
  induction w as [|c w IH]; simpl; [reflexivity|].
  intros H. apply andb_true_iff in H. destruct H as [Hc Hw].
  apply Ascii.eqb_eq in Hc. now rewrite Hc, IH.
Qed.

Lemma starts_nonspace_lower (s : string) :
  starts_nonspace (Py.lower s) = starts_nonspace s.
Proof. destruct s; simpl; [reflexivity|now rewrite isspace_lower_char]. Qed.

Lemma ends_ok_lower (s : string) : ends_ok (Py.lower s) = ends_ok s.
Proof.
  induction s as [|c s IH]; [reflexivity|].
  destruct s as [|d s].
  - simpl. now rewrite isspace_lower_char.
  - exact IH.
Qed.

Lemma lstrip_blank (s : string) : blank s = true -> Py.lstrip s = "".
Proof.
  unfold blank. induction s as [|c s IH]; simpl; [reflexivity|].
  intros H. apply andb_true_iff in H. destruct H as [-> Hs]. now apply IH.
Qed.

Lemma lstrip_not_blank (s : string) :
  blank s = false -> starts_nonspace (Py.lstrip s) = true.
Proof.
  unfold blank. induction s as [|c s IH]; simpl; [discriminate|].
  destruct (Py.isspace c) eqn:E; simpl.
  - exact IH.
  - intros _. now rewrite E.
Qed.

Lemma lstrip_fixed (s : string) :
  s = "" \/ starts_nonspace s = true -> Py.lstrip s = s.
Proof.
  intros [->|H]; [reflexivity|].
  destruct s as [|c s]; [discriminate|]. simpl in *.
  now destruct (Py.isspace c).
Qed.

Lemma rstrip_ends_ok (s : string) : ends_ok (Py.rstrip s) = true.
Proof.
  induction s as [|c s IH]; [reflexivity|]. simpl.
  destruct (Py.rstrip s) as [|d t] eqn:E.
  - destruct (Py.isspace c) eqn:Ec; simpl; [reflexivity|now rewrite Ec].
  - exact IH.
Qed.

Lemma rstrip_starts (s : string) :
  starts_nonspace s = true -> starts_nonspace (Py.rstrip s) = true.
Proof.
  destruct s as [|c s]; [discriminate|]. simpl. intros H.
  destruct (Py.rstrip s).
  - destruct (Py.isspace c) eqn:Ec; [discriminate|].
    simpl. now rewrite Ec.
  - exact H.
Qed.

Lemma rstrip_fixed (s : string) : ends_ok s = true -> Py.rstrip s = s.
Proof.
  induction s as [|c s IH]; [reflexivity|].
  destruct s as [|d s].
  - simpl. now destruct (Py.isspace c).
  - intros H. change (ends_ok (String d s) = true) in H.
    change (Py.rstrip (String c (String d s)))
      with (match Py.rstrip (String d s) with
            | EmptyString =>
                if Py.isspace c then EmptyString else String c EmptyString
            | String e t => String c (String e t)
            end).
    now rewrite (IH H).
Qed.

Lemma strip_blank (s : string) : blank s = true -> Py.strip s = "".
Proof. intros H. unfold Py.strip. now rewrite (lstrip_blank s H). Qed.

Lemma strip_not_blank (s : string) :
  blank s = false ->
  starts_nonspace (Py.strip s) = true /\ ends_ok (Py.strip s) = true.
Proof.
  intros H. unfold Py.strip. split.
  - apply rstrip_starts, lstrip_not_blank, H.
  - apply rstrip_ends_ok.
Qed.

(** The normal form of a sentence is its own normal form. *)
Lemma normalise_idem (s : string) :
  Py.lower (Py.strip (Py.lower (Py.strip s))) = Py.lower (Py.strip s).
Proof.
  assert (H : Py.strip (Py.lower (Py.strip s)) = Py.lower (Py.strip s)).
  { unfold Py.strip at 1.
    destruct (blank s) eqn:B.
    - now rewrite (strip_blank s B).
    - destruct (strip_not_blank s B) as [H1 H2].
      rewrite lstrip_fixed.
      + apply rstrip_fixed. now rewrite ends_ok_lower.
      + right. now rewrite starts_nonspace_lower. }
  now rewrite H, lower_idem.
Qed.

Lemma all_chars_snoc p (s : string) (c : ascii) :
  all_chars p (s ++ String c "") = all_chars p s && p c.
Proof.
  induction s as [|d s IH]; simpl.
  - now rewrite andb_true_r.
  - now rewrite IH, andb_assoc.
Qed.

Lemma split_never_empty s : forall cur insep,
  Py.re_split_ws_aux s cur insep <> [].
Proof.
  induction s as [|c s IH]; intros cur insep; simpl; [discriminate|].
  destruct (Py.isspace c); [destruct insep|]; auto; discriminate.
Qed.

(** A property of characters that holds along the text holds along each
    field. *)
Lemma split_fields_chars p s : forall cur insep,
  all_chars p s = true -> all_chars p cur = true ->
  Forall (fun w => all_chars p w = true) (Py.re_split_ws_aux s cur insep).
Proof.
  induction s as [|c s IH]; intros cur insep Hs Hcur; simpl.
  - now constructor.
  - simpl in Hs. apply andb_true_iff in Hs. destruct Hs as [Hc Hs].
    destruct (Py.isspace c); [destruct insep|].
    + now apply IH.
    + constructor; [exact Hcur|]. now apply IH.
    + apply IH; [exact Hs|]. now rewrite all_chars_snoc, Hcur, Hc.
Qed.

(** No field holds white space. *)
Lemma split_fields_nonspace s : forall cur insep,
  all_chars (fun c => negb (Py.isspace c)) cur = true ->
  Forall (fun w => all_chars (fun c => negb (Py.isspace c)) w = true)
         (Py.re_split_ws_aux s cur insep).
Proof.
  induction s as [|c s IH]; intros cur insep Hcur; simpl.
  - now constructor.
  - destruct (Py.isspace c) eqn:Ec; [destruct insep|].
    + now apply IH.
    + constructor; [exact Hcur|]. now apply IH.
    + apply IH. now rewrite all_chars_snoc, Hcur, Ec.
Qed.

(** No field is empty when the text neither starts nor ends in white
    space. *)
Lemma split_fields_nonempty s : forall cur insep,
  ends_ok s = true ->
  (insep = true -> s <> "") ->
  (insep = false -> cur <> "" \/ starts_nonspace s = true) ->
  Forall (fun w => w <> "") (Py.re_split_ws_aux s cur insep).
Proof.
  induction s as [|c s IH]; intros cur insep He Hsep Hcur; simpl.
  - constructor; [|constructor].
    destruct insep; [now contradiction (Hsep eq_refl)|].
    destruct (Hcur eq_refl) as [H|H]; [exact H|discriminate].
  - assert (Hs : Py.isspace c = true -> s <> "" /\ ends_ok s = true).
    { intros Ec. destruct s as [|d s].
      - simpl in He. now rewrite Ec in He.
      - split; [discriminate|exact He]. }
    assert (Hs' : ends_ok s = true).
    { destruct s as [|d s]; [reflexivity|exact He]. }
    destruct (Py.isspace c) eqn:Ec; [destruct insep|].
    + destruct (Hs eq_refl) as [Hne _]. apply IH; auto. discriminate.
    + destruct (Hs eq_refl) as [Hne _].
      constructor.
      * destruct (Hcur eq_refl) as [H|H]; [exact H|].
        simpl in H. now rewrite Ec in H.
      * apply IH; auto. discriminate.
    + apply IH; auto; [discriminate|].
      intros _. left. now destruct cur.
Qed.

(** X11.  A sentence that is empty or made of white space only is
    tokenized into a single word, the empty string. *)
Theorem blank_sentence_is_one_empty_word (sentence0 : string) :
  blank sentence0 = true -> sentence_words sentence0 = [""].
Proof.
  intros H. unfold sentence_words. now rewrite (strip_blank _ H).
Qed.

Lemma blank_sentence_is_one_empty_word_witness :
  sentence_words (String (ascii_of_nat 9) "  ") = [""].
Proof.
  apply (blank_sentence_is_one_empty_word (String (ascii_of_nat 9) "  ")).
  reflexivity.
Defined.

Lemma Forall_and3 {A : Type} (P Q R : A -> Prop) l :
  Forall P l -> Forall Q l -> Forall R l ->
  Forall (fun x => P x /\ Q x /\ R x) l.
Proof.
  induction 1 as [|x l Hx _ IH]; intros HQ HR; constructor.
  - inversion HQ; inversion HR; auto.
  - inversion HQ; inversion HR; auto.
Qed.

(** X12.  A sentence that is not blank is tokenized into at least one
    word, and none of its words is empty, holds white space or holds an
    upper case letter. *)
Theorem words_of_a_sentence (sentence0 : string) :
  blank sentence0 = false ->
  sentence_words sentence0 <> [] /\ Forall word_ok (sentence_words sentence0).
Proof.
  intros H. unfold sentence_words, Py.re_split_ws. split.
  - apply split_never_empty.
  - destruct (strip_not_blank _ H) as [H1 H2].
    apply Forall_and3.
    + apply split_fields_nonempty.
      * now rewrite ends_ok_lower.
      * discriminate.
      * intros _. right. now rewrite starts_nonspace_lower.
    + now apply split_fields_nonspace.
    + apply split_fields_chars; [apply lower_lowered|reflexivity].
Qed.

Lemma words_of_a_sentence_witness :
  sentence_words "  Turn ON the  Light " <> [] /\
  Forall word_ok (sentence_words "  Turn ON the  Light ").
Proof.
  apply (words_of_a_sentence "  Turn ON the  Light "). reflexivity.
Defined.

(** ** Further properties of the recognizer *)

(** The loop of [fstaccept] decodes the paths up to the first one that
    fails. *)
Lemma decode_paths_prefix n name0 replace_tags paths : forall intents,
  decode_paths n name0 replace_tags paths intents =
  (intents ++ map (decoded name0 replace_tags n)
                  (firstn (decodable_prefix name0 replace_tags paths) paths),
   negb (Nat.eqb (decodable_prefix name0 replace_tags paths)
                 (List.length paths))).
Proof.
  induction paths as [|s paths IH]; intros intents; cbn [decode_paths].
  - simpl. now rewrite app_nil_r.
  - cbn [decodable_prefix].
    destruct (symbols2intent s "<eps>" None name0 replace_tags) as [r|]
      eqn:E; cbn [is_ok].
    + rewrite IH. cbn [firstn map List.length Nat.eqb].
      unfold decoded at 2. rewrite E.
      now rewrite <- app_assoc.
    + simpl. now rewrite app_nil_r.
Qed.

Lemma decodable_prefix_le name0 replace_tags paths :
  (decodable_prefix name0 replace_tags paths <= List.length paths)%nat.
Proof.
  induction paths as [|s paths IH]; simpl; [lia|].
  destruct (is_ok _); simpl; lia.
Qed.

Lemma decodable_prefix_ok name0 replace_tags paths :
  Forall (fun s => is_ok (symbols2intent s "<eps>" None name0 replace_tags)
                   = true)
         (firstn (decodable_prefix name0 replace_tags paths) paths).
Proof.
  induction paths as [|s paths IH]; simpl; [constructor|].
  destruct (is_ok _) eqn:E; simpl; constructor; auto.
Qed.

Lemma decodable_prefix_stop name0 replace_tags paths :
  (decodable_prefix name0 replace_tags paths < List.length paths)%nat ->
  exists s,
    nth_error paths (decodable_prefix name0 replace_tags paths) = Some s /\
    is_ok (symbols2intent s "<eps>" None name0 replace_tags) = false.
Proof.
  induction paths as [|s paths IH]; simpl; [lia|].
  destruct (is_ok _) eqn:E; simpl.
  - intros H. apply IH. lia.
  - intros _. exists s. auto.
Qed.

Lemma decodable_prefix_flag name0 rt1 rt2 paths :
  decodable_prefix name0 rt1 paths = decodable_prefix name0 rt2 paths.
Proof.
  induction paths as [|s paths IH]; simpl; [reflexivity|].
  pose proof (symbols2intent_flag s "<eps>" None name0 rt1 rt2) as H.
  unfold agree_but_entities in H.
  destruct (symbols2intent s "<eps>" None name0 rt1),
           (symbols2intent s "<eps>" None name0 rt2);
    try contradiction; simpl; congruence.
Qed.

(** A path that fails to decode stops the count of the paths that
    decode. *)
Lemma decodable_prefix_app name0 replace_tags before bad after :
  is_ok (symbols2intent bad "<eps>" None name0 replace_tags) = false ->
  decodable_prefix name0 replace_tags (before ++ bad :: after)
  = decodable_prefix name0 replace_tags before.
Proof.
  intros Hbad. induction before as [|s before IH]; simpl.
  - now rewrite Hbad.
  - now rewrite IH.
Qed.

Section RecognizerMore.

Variable Compiler_new : Fst -> bool -> bool -> result unit.
Variable Compiler_compile : Fst -> bool -> bool -> string -> result Fst.
Variable compose : Fst -> Fst -> result Fst.
Variable project : Fst -> bool -> result Fst.

(** C5, amended.  When the loop of [symbols2intent] reaches an end
    marker whose name differs from the open tag (or no tag is open), the
    call raises the assertion error of that marker.  In [fstaccept] the
    error is not confined to that path: it ends the decoding of the paths
    of the recognition call.  The call logs the sentence and returns
    records of paths enumerated before that one only, in path order: no
    record for that path, and none for any path enumerated after it. *)
Theorem mismatched_end_ends_the_call (replace_tags : bool)
  (name0 : option string) (pre : list string) (sym : string)
  (post : list string) :
  is_end sym = true ->
  (forall (eps : string) (intent0 : option Intent) (st : locals),
      loop replace_tags (init intent0 name0) pre = Ok st ->
      tag st <> Some (Py.slice_from 7 sym) ->
      symbols2intent (pre ++ sym :: post) eps intent0 name0 replace_tags
      = Raise (mismatch (tag st) sym)) /\
  (forall (fuel : nat) (in_fst : Fst) (sentence0 : string) (out_fst : Fst)
          (before after : list sentence) (path' : option (list Arc))
          (fo : option string) (st : locals),
      loop replace_tags (init None name0) pre = Ok st ->
      tag st <> Some (Py.slice_from 7 sym) ->
      apply_fst Compiler_new Compiler_compile compose project
                (sentence_words sentence0) in_fst true = Ok out_fst ->
      fstprintall fuel out_fst None false None None None 0
      = Some (Ok (before ++ (pre ++ sym :: post) :: after, path', fo)) ->
      exists k,
        (k <= List.length before)%nat /\
        fstaccept Compiler_new Compiler_compile compose project fuel in_fst
                  sentence0 name0 replace_tags
        = Some (map (decoded name0 replace_tags
                       (List.length
                          (before ++ (pre ++ sym :: post) :: after)))
                    (firstn k before),
                [Py.lower (Py.strip sentence0)])).
Proof.
  intros Hend.
  split; [intros eps intent0 st Hpre Hneq;
          now apply mismatched_end_raises|].
  intros fuel in_fst sentence0 out_fst before after path' fo st
         Hpre Hneq Ha He.
  set (n := List.length (before ++ (pre ++ sym :: post) :: after)).
  pose proof (mismatched_end_raises replace_tags pre sym post "<eps>" None
                name0 st Hpre Hend Hneq) as Hraise.
  assert (Hbad : is_ok (symbols2intent (pre ++ sym :: post) "<eps>" None
                                       name0 replace_tags) = false)
    by now rewrite Hraise.
  pose proof (decodable_prefix_app name0 replace_tags before _ after Hbad)
    as Hk.
  pose proof (decodable_prefix_le name0 replace_tags before) as Hle.
  exists (decodable_prefix name0 replace_tags before).
  split; [exact Hle|].
  unfold fstaccept. fold (sentence_words sentence0). rewrite Ha, He.
  rewrite decode_paths_prefix. unfold sentence in *.
  rewrite Hk. fold n. cbn [app].
  rewrite firstn_app.
  replace (decodable_prefix name0 replace_tags before
           - List.length before)%nat with 0%nat by lia.
  cbn [firstn]. rewrite app_nil_r.
  assert (Hn : Nat.eqb (decodable_prefix name0 replace_tags before) n
               = false).
  { apply Nat.eqb_neq. unfold n. rewrite length_app. simpl. lia. }
  now rewrite Hn.
Qed.

(** X13.  Recognition does not depend on the case of the letters of the
    sentence nor on white space around it: a sentence and its normal form
    (stripped, lower case) give the same result, log included. *)
Theorem recognition_of_the_normal_form (fuel : nat) (in_fst : Fst)
  (sentence0 : string) (name0 : option string) (replace_tags : bool) :
  fstaccept Compiler_new Compiler_compile compose project fuel in_fst
            (Py.lower (Py.strip sentence0)) name0 replace_tags
  = fstaccept Compiler_new Compiler_compile compose project fuel in_fst
              sentence0 name0 replace_tags.
Proof. unfold fstaccept. now rewrite normalise_idem. Qed.

(** X14.  The acceptor of a sentence fails only as the library fails.
    When the compiler cannot be made, [linear_fst] raises the exception of
    that construction, whatever the elements.  Otherwise, for the words of
    a sentence, it is what the compiler makes of one line per word and a
    last line with the number of words: a sentence always gives at least
    one word, so the unbound loop variable of an empty list of elements is
    never met from [fstaccept], and an exception of [linear_fst] on the
    words of a sentence is one of the compiler. *)
Theorem acceptor_of_a_sentence (in_fst : Fst) (sentence0 : string) :
  let text :=
    (linear_lines 0 (sentence_words sentence0)
       ++ Py.str_nat (List.length (sentence_words sentence0))
       ++ Py.newline)%string in
  let acceptor :=
    linear_fst Compiler_new Compiler_compile (sentence_words sentence0)
               in_fst true in
  (forall (elements : list string) (op : Fst) (keep : bool) (e : exn),
      Compiler_new op keep keep = Raise e ->
      linear_fst Compiler_new Compiler_compile elements op keep = Raise e) /\
  (forall u, Compiler_new in_fst true true = Ok u ->
             acceptor = Compiler_compile in_fst true true text) /\
  (forall e, acceptor = Raise e ->
             Compiler_new in_fst true true = Raise e \/
             Compiler_compile in_fst true true text = Raise e).
Proof.
  intros text acceptor.
  assert (Hw : exists w ws, sentence_words sentence0 = w :: ws).
  { destruct (sentence_words sentence0) as [|w ws] eqn:E;
      [now apply split_never_empty in E|now exists w, ws]. }
  destruct Hw as (w & ws & Hw).
  assert (H1 : forall u, Compiler_new in_fst true true = Ok u ->
                         acceptor = Compiler_compile in_fst true true text).
  { intros u Hu. unfold acceptor, text, linear_fst. now rewrite Hu, Hw. }
  split; [|split; [exact H1|]].
  - intros elements op keep e He. unfold linear_fst. now rewrite He.
  - intros e He.
    destruct (Compiler_new in_fst true true) as [u|e'] eqn:En.
    + right. now rewrite <- (H1 u eq_refl).
    + left. unfold acceptor, linear_fst in He. rewrite En in He.
      now injection He as ->.
Qed.

(** X15.  When composition and enumeration succeed, [fstaccept] returns
    the records of the enumerated paths up to the first path that fails to
    decode, in path order, each with its confidence divided by the number
    of all enumerated paths.  The sentence is logged exactly when some
    path fails to decode, and the list is complete exactly when none
    does. *)
Theorem records_up_to_first_failure (fuel : nat) (in_fst : Fst)
  (sentence0 : string) (name0 : option string) (replace_tags : bool)
  (out_fst : Fst) (out_sentences : list sentence)
  (path' : option (list Arc)) (fo : option string) :
  apply_fst Compiler_new Compiler_compile compose project
            (sentence_words sentence0)
            in_fst true = Ok out_fst ->
  fstprintall fuel out_fst None false None None None 0
  = Some (Ok (out_sentences, path', fo)) ->
  let k := decodable_prefix name0 replace_tags out_sentences in
  let n := List.length out_sentences in
  fstaccept Compiler_new Compiler_compile compose project
            fuel in_fst sentence0 name0
            replace_tags
  = Some (map (decoded name0 replace_tags n) (firstn k out_sentences),
          if Nat.eqb k n then [] else [Py.lower (Py.strip sentence0)])
  /\ (k <= n)%nat
  /\ Forall (fun s => is_ok (symbols2intent s "<eps>" None name0
                                            replace_tags) = true)
            (firstn k out_sentences)
  /\ ((k < n)%nat ->
      exists s, nth_error out_sentences k = Some s /\
                is_ok (symbols2intent s "<eps>" None name0 replace_tags)
                = false).
Proof.
  intros Ha He k n.
  split; [|split; [|split]].
  - unfold fstaccept. fold (sentence_words sentence0). rewrite Ha, He.
    rewrite decode_paths_prefix. fold k n. cbn [app].
    now destruct (Nat.eqb k n).
  - apply decodable_prefix_le.
  - apply decodable_prefix_ok.
  - apply decodable_prefix_stop.
Qed.

Lemma fstaccept_override_name (fuel : nat) (in_fst : Fst)
  (sentence0 : string) (n0 : string) (replace_tags : bool)
  (intents : list Intent) (log : list string) (r : Intent) :
  fstaccept Compiler_new Compiler_compile compose project fuel in_fst sentence0
            (Some n0) replace_tags = Some (intents, log) ->
  In r intents ->
  name (intent r) = if has_tokens r then n0 else "".
Proof.
  unfold fstaccept.
  destruct (apply_fst Compiler_new Compiler_compile compose project
                      _ in_fst true)
    as [out_fst|]; [|intros [= <- _] []].
  destruct (fstprintall fuel out_fst None false None None None 0)
    as [[[[out_sentences path'] fo]|]|];
    [|intros [= <- _] []|discriminate].
  destruct (decode_paths (List.length out_sentences) (Some n0) replace_tags
                         out_sentences []) as [intents' failed] eqn:D.
  intros [= <- _] Hin.
  destruct (decode_paths_origin _ _ _ _ _ _ _ _ D Hin)
    as [[]|(s & r0 & Hs & Hr0 & ->)].
  destruct (symbols2intent_name _ _ _ _ _ _ Hr0) as [Hyes Hno].
  destruct (symbols2intent_tokens _ _ _ _ _ _ Hr0) as [Htok _].
  unfold has_tokens. cbn [divide_confidence tokens intent name].
  rewrite Htok. destruct (literals s) as [|x xs] eqn:El.
  - now rewrite (Hno eq_refl).
  - now destruct (Hyes ltac:(discriminate)) as [-> _].
Qed.

(** X16.  With an intent name passed in, as the command line does, every
    returned record with tokens carries that name, whatever label markers
    the grammar has, and every record without token has the empty name. *)
Theorem override_names_every_record (fuel : nat) (in_fst : Fst)
  (sentence0 : string) (n0 : string) (replace_tags : bool)
  (intents : list Intent) (log : list string) (r : Intent) :
  fstaccept Compiler_new Compiler_compile compose project fuel in_fst sentence0
            (Some n0) replace_tags = Some (intents, log) ->
  In r intents ->
  name (intent r) = if has_tokens r then n0 else "".
Proof. apply fstaccept_override_name. Qed.

(** X17.  The replacement policy changes nothing but entities in the
    result of [fstaccept]: with the other setting the call returns as
    many records, with the same text, tokens, intent name and confidence
    and the same number of entities each, and logs the same. *)
Theorem policy_keeps_records_alike (fuel : nat) (in_fst : Fst)
  (sentence0 : string) (name0 : option string) (rt1 rt2 : bool)
  (intents1 : list Intent) (log : list string) :
  fstaccept Compiler_new Compiler_compile compose project
            fuel in_fst sentence0 name0 rt1
  = Some (intents1, log) ->
  exists intents2,
    fstaccept Compiler_new Compiler_compile compose project
              fuel in_fst sentence0 name0
              rt2 = Some (intents2, log) /\
    Forall2 alike intents1 intents2.
Proof.
  unfold fstaccept.
  destruct (apply_fst Compiler_new Compiler_compile compose project
                      _ in_fst true)
    as [out_fst|].
  2:{ intros [= <- <-]. exists []. split; [reflexivity|constructor]. }
  destruct (fstprintall fuel out_fst None false None None None 0)
    as [[[[out_sentences path'] fo]|]|]; [| |discriminate].
  2:{ intros [= <- <-]. exists []. split; [reflexivity|constructor]. }
  rewrite !decode_paths_prefix. cbn [app].
  rewrite (decodable_prefix_flag name0 rt1 rt2).
  set (k := decodable_prefix name0 rt2 out_sentences).
  set (n := List.length out_sentences).
  intros [= <- <-]. eexists. split; [reflexivity|].
  pose proof (decodable_prefix_ok name0 rt2 out_sentences) as Hok.
  fold k in Hok.
  induction (firstn k out_sentences) as [|s l IH]; cbn [map];
    constructor.
  - pose proof (symbols2intent_flag s "<eps>" None name0 rt1 rt2) as H.
    unfold agree_but_entities, decoded in *.
    destruct (symbols2intent s "<eps>" None name0 rt1) as [r1|],
             (symbols2intent s "<eps>" None name0 rt2) as [r2|];
      try contradiction.
    + destruct H as (H1 & H2 & H3 & H4).
      unfold alike. cbn [divide_confidence text tokens intent entities].
      now rewrite H1, H2, H3, H4.
    + repeat split.
  - apply IH. now inversion Hok.
Qed.

End RecognizerMore.

Lemma acceptor_of_a_sentence_witness :
  linear_fst Examples.compiler_ok Examples.compile_id
             (sentence_words " Go  to Boston ") Examples.tagged true
  = Examples.compile_id Examples.tagged true true
      (linear_lines 0 (sentence_words " Go  to Boston ")
         ++ Py.str_nat (List.length (sentence_words " Go  to Boston "))
         ++ Py.newline)%string.
Proof.
  apply (proj1 (proj2 (acceptor_of_a_sentence
                         Examples.compiler_ok Examples.compile_id
                         Examples.tagged " Go  to Boston ")) tt).
  reflexivity.
Defined.

(** C5, as stated, fails: the error is not confined to the path that
    raised it.  With the paths [__end__x] and [a] the second path decodes
    when taken alone, yet the recognition call returns no record at all:
    the error of the first path ended the call. *)
Lemma mismatched_end_not_confined_counterexample :
  fstprintall 3 MoreExamples.bad_then_good None false None None None 0
  = Some (Ok ([["__end__x"]; ["a"]], None, None))
  /\ symbols2intent ["__end__x"] "<eps>" None None true
     = Raise (AssertionError "Mismatched tags: None x")
  /\ symbols2intent ["a"] "<eps>" None None true
     = Ok (mkIntent "a" (Some ["a"]) (mkIntentInfo "" 1) [])
  /\ fstaccept Examples.compiler_ok Examples.compile_id
               Examples.compose_right Examples.project_id
               3 MoreExamples.bad_then_good "a" None true
     = Some ([], ["a"]).
Proof. repeat split; vm_compute; reflexivity. Qed.

Lemma mismatched_end_ends_the_call_witness :
  symbols2intent (["__begin__a"; "x"] ++ "__end__b" :: ["y"]) "<eps>"
                 None None true
  = Raise (AssertionError "Mismatched tags: a b") /\
  exists k,
    (k <= 1)%nat /\
    fstaccept Examples.compiler_ok Examples.compile_id
              Examples.compose_right Examples.project_id
              3 MoreExamples.good_bad_good "a" None true
    = Some (map (decoded None true 3) (firstn k [["a"]]), ["a"]).
Proof.
  split.
  - apply (proj1 (mismatched_end_ends_the_call
                    Examples.compiler_ok Examples.compile_id
                    Examples.compose_right Examples.project_id
                    true None ["__begin__a"; "x"] "__end__b" ["y"]
                    eq_refl)
                 "<eps>" None
                 (mkLocals (Some "a") ["x"] ["x"] empty_intent None)).
    + reflexivity.
    + discriminate.
  - apply (proj2 (mismatched_end_ends_the_call
                    Examples.compiler_ok Examples.compile_id
                    Examples.compose_right Examples.project_id
                    true None [] "__end__x" [] eq_refl)
                 3 MoreExamples.good_bad_good "a"
                 MoreExamples.good_bad_good [["a"]] [["b"]] None None
                 (init None None)).
    + reflexivity.
    + discriminate.
    + reflexivity.
    + vm_compute. reflexivity.
Defined.

(** ** Bounds of the confidences *)

Local Open Scope Q_scope.

Lemma share_le_one (a n : nat) :
  (a <= n)%nat -> inject_Z (Z.of_nat a) / inject_Z (Z.of_nat n) <= 1.
Proof.
  intros H. destruct n as [|n].
  - assert (a = 0%nat) by lia. subst. unfold Qle. simpl. lia.
  - apply Qle_shift_div_r.
    + unfold Qlt. simpl. lia.
    + rewrite Qmult_1_l. rewrite <- Zle_Qle. lia.
Qed.

Lemma share_nonneg (a n : nat) :
  0 <= inject_Z (Z.of_nat a) / inject_Z (Z.of_nat n).
Proof.
  unfold Qdiv. apply Qmult_le_0_compat.
  - unfold Qle. simpl. lia.
  - apply Qinv_le_0_compat. unfold Qle. simpl. lia.
Qed.

(** Only the share of a single path is 1. *)
Lemma share_one (b : bool) (n : nat) :
  (1 <= n)%nat ->
  (if b then 1 else 0) / inject_Z (Z.of_nat n) == 1 ->
  b = true /\ n = 1%nat.
Proof.
  intros Hn H. destruct b.
  - split; [reflexivity|].
    destruct n as [|n]; [lia|].
    unfold Qdiv, Qeq in H. simpl in H. lia.
  - exfalso. unfold Qdiv in H. rewrite Qmult_0_l in H.
    vm_compute in H. discriminate H.
Qed.

Local Close Scope Q_scope.

Section Bounds.

Variable Compiler_new : Fst -> bool -> bool -> result unit.
Variable Compiler_compile : Fst -> bool -> bool -> string -> result Fst.
Variable compose : Fst -> Fst -> result Fst.
Variable project : Fst -> bool -> result Fst.

(** X18.  Whatever happens during recognition, every returned record has
    a confidence between 0 and 1; and a confidence of 1 tells an
    unambiguous recognition: the record is then the only one returned,
    and nothing was logged. *)
Theorem confidence_within_bounds (fuel : nat) (in_fst : Fst)
  (sentence0 : string) (name0 : option string) (replace_tags : bool)
  (intents : list Intent) (log : list string) (r : Intent) :
  fstaccept Compiler_new Compiler_compile compose project fuel in_fst
            sentence0 name0 replace_tags = Some (intents, log) ->
  In r intents ->
  (0 <= confidence (intent r))%Q /\ (confidence (intent r) <= 1)%Q /\
  ((confidence (intent r) == 1)%Q -> intents = [r] /\ log = []).
Proof.
  unfold fstaccept.
  destruct (apply_fst Compiler_new Compiler_compile compose project _
                      in_fst true)
    as [out_fst|]; [|now intros [= <- _] []].
  destruct (fstprintall fuel out_fst None false None None None 0)
    as [[[[out_sentences path'] fo]|]|];
    [|now intros [= <- _] []|discriminate].
  rewrite decode_paths_prefix. cbn [app].
  set (k := decodable_prefix name0 replace_tags out_sentences).
  set (n := List.length out_sentences).
  intros [= <- <-] Hin.
  pose proof (decodable_prefix_ok name0 replace_tags out_sentences) as Hok.
  pose proof (decodable_prefix_le name0 replace_tags out_sentences) as Hle.
  fold k in Hok, Hle. fold n in Hle.
  assert (Hlen : List.length (map (decoded name0 replace_tags n)
                                  (firstn k out_sentences))
                 = k).
  { rewrite length_map, length_firstn. fold n. lia. }
  assert (Hall : Forall
                   (fun r => confidence (intent r)
                             = ((if has_tokens r then 1 else 0)
                                / inject_Z (Z.of_nat n))%Q)
                   (map (decoded name0 replace_tags n)
                        (firstn k out_sentences))).
  { apply Forall_map. revert Hok. apply Forall_impl.
    intros s Hs. now apply decoded_confidence. }
  rewrite Forall_forall in Hall. rewrite (Hall r Hin).
  assert (Hk : (1 <= k)%nat).
  { rewrite <- Hlen.
    destruct (map (decoded name0 replace_tags n) (firstn k out_sentences));
      [destruct Hin|simpl; lia]. }
  assert (Hn : (1 <= n)%nat) by lia.
  split; [|split].
  - destruct (has_tokens r);
      [apply (share_nonneg 1 n)|apply (share_nonneg 0 n)].
  - destruct (has_tokens r);
      [apply (share_le_one 1 n Hn)|apply (share_le_one 0 n); lia].
  - intros H1. destruct (share_one _ _ Hn H1) as [_ Hn1].
    assert (Hk1 : k = 1%nat) by lia.
    split.
    + destruct (map (decoded name0 replace_tags n)
                    (firstn k out_sentences)) as [|x [|y l]];
        simpl in Hlen; try lia.
      destruct Hin as [->|[]]. reflexivity.
    + rewrite Hk1, Hn1. reflexivity.
Qed.

End Bounds.

Lemma confidence_within_bounds_witness :
  (0 <= confidence (mkIntentInfo "" 1))%Q /\
  (confidence (mkIntentInfo "" 1) <= 1)%Q /\
  ((confidence (mkIntentInfo "" 1) == 1)%Q ->
   [mkIntent "a __foo" (Some ["a"; "__foo"]) (mkIntentInfo "" 1) []]
   = [mkIntent "a __foo" (Some ["a"; "__foo"]) (mkIntentInfo "" 1) []]
   /\ @nil string = []).
Proof.
  apply (confidence_within_bounds
           Examples.compiler_ok Examples.compile_id Examples.compose_right
           Examples.project_id
           3 Examples.dunder "a" None true
           [mkIntent "a __foo" (Some ["a"; "__foo"]) (mkIntentInfo "" 1) []]
           []
           (mkIntent "a __foo" (Some ["a"; "__foo"]) (mkIntentInfo "" 1) [])).
  - vm_compute. reflexivity.
  - left. reflexivity.
Defined.

(** ** The text written by [linear_fst] *)

Lemma all_chars_app p (a b : string) :
  all_chars p (a ++ b) = all_chars p a && all_chars p b.
Proof.
  induction a as [|c a IH]; simpl; [reflexivity|].
  now rewrite IH, andb_assoc.
Qed.

Lemma digits_nonspace (d : Decimal.uint) :
  all_chars nonspace (NilEmpty.string_of_uint d) = true.
Proof. induction d; simpl; auto. Qed.

Lemma str_nat_nonspace (n : nat) : all_chars nonspace (Py.str_nat n) = true.
Proof.
  unfold Py.str_nat, NilZero.string_of_uint.
  destruct (Nat.to_uint n); try reflexivity; apply digits_nonspace.
Qed.

Lemma str_nat_nonempty (n : nat) : Py.str_nat n <> "".
Proof.
  unfold Py.str_nat, NilZero.string_of_uint.
  destruct (Nat.to_uint n); discriminate.
Qed.

Lemma nonspace_not_newline (c : ascii) :
  nonspace c = true -> Ascii.eqb c (ascii_of_nat 10) = false.
Proof.
  intros H. destruct (Ascii.eqb_spec c (ascii_of_nat 10)) as [->|];
    [discriminate|reflexivity].
Qed.

(** A stretch without line feed goes to the current line. *)
Lemma split_lines_stretch (l : string) : forall rest cur,
  all_chars (fun c => negb (Ascii.eqb c (ascii_of_nat 10))) l = true ->
  split_lines_aux (l ++ rest) cur = split_lines_aux rest (cur ++ l).
Proof.
  induction l as [|c l IH]; intros rest cur H; simpl.
  - now rewrite string_app_nil_r.
  - simpl in H. apply andb_true_iff in H. destruct H as [Hc Hl].
    apply negb_true_iff in Hc. rewrite Hc, (IH _ _ Hl).
    now rewrite string_app_assoc.
Qed.

(** A word without white space goes to the current field. *)
Lemma split_fields_word (w : string) : forall rest cur insep,
  all_chars nonspace w = true ->
  Py.re_split_ws_aux (w ++ rest) cur insep =
  Py.re_split_ws_aux rest (cur ++ w)
                     (match w with EmptyString => insep | _ => false end).
Proof.
  induction w as [|c w IH]; intros rest cur insep H; simpl.
  - now rewrite string_app_nil_r.
  - simpl in H. apply andb_true_iff in H. destruct H as [Hc Hw].
    unfold nonspace in Hc. apply negb_true_iff in Hc.
    rewrite Hc, (IH _ _ _ Hw), string_app_assoc. simpl.
    now destruct w.
Qed.

Lemma split_fields_word_nonempty (w rest cur : string) (insep : bool) :
  all_chars nonspace w = true -> w <> "" ->
  Py.re_split_ws_aux (w ++ rest) cur insep =
  Py.re_split_ws_aux rest (cur ++ w) false.
Proof.
  intros H Hne. rewrite (split_fields_word w rest cur insep H).
  destruct w; [congruence|reflexivity].
Qed.

Lemma split_fields_space (rest cur : string) :
  Py.re_split_ws_aux (String " " rest) cur false =
  cur :: Py.re_split_ws_aux rest "" true.
Proof. reflexivity. Qed.

Lemma three_fields (a b w : string) :
  all_chars nonspace a = true -> a <> "" ->
  all_chars nonspace b = true -> b <> "" ->
  all_chars nonspace w = true -> w <> "" ->
  Py.re_split_ws (a ++ " " ++ b ++ " " ++ w) = [a; b; w].
Proof.
  intros Ha Hae Hb Hbe Hw Hwe. unfold Py.re_split_ws.
  change (" " ++ b ++ " " ++ w)%string with (String " " (b ++ String " " w)).
  rewrite (split_fields_word_nonempty a _ _ _ Ha Hae), split_fields_space.
  rewrite (split_fields_word_nonempty b _ _ _ Hb Hbe), split_fields_space.
  rewrite <- (string_app_nil_r w) at 1.
  rewrite (split_fields_word_nonempty w _ _ _ Hw Hwe).
  reflexivity.
Qed.

Lemma one_field (a : string) :
  all_chars nonspace a = true -> a <> "" -> Py.re_split_ws a = [a].
Proof.
  intros Ha Hae. unfold Py.re_split_ws.
  rewrite <- (string_app_nil_r a) at 1.
  now rewrite (split_fields_word_nonempty a _ _ _ Ha Hae).
Qed.

Lemma nonspace_no_newline (s : string) :
  all_chars nonspace s = true ->
  all_chars (fun c => negb (Ascii.eqb c (ascii_of_nat 10))) s = true.
Proof.
  induction s as [|c s IH]; simpl; [reflexivity|].
  intros H. apply andb_true_iff in H. destruct H as [Hc Hs].
  now rewrite (nonspace_not_newline c Hc), (IH Hs).
Qed.

Lemma arc_line_no_newline (a b w : string) :
  all_chars nonspace a = true -> all_chars nonspace b = true ->
  all_chars nonspace w = true ->
  all_chars (fun c => negb (Ascii.eqb c (ascii_of_nat 10)))
            (a ++ " " ++ b ++ " " ++ w) = true.
Proof.
  intros Ha Hb Hw.
  rewrite !all_chars_app, (nonspace_no_newline a Ha),
    (nonspace_no_newline b Hb), (nonspace_no_newline w Hw).
  reflexivity.
Qed.

Lemma linear_lines_read_back (ws : list string) : forall i tail,
  Forall (fun w => w <> "" /\ all_chars nonspace w = true) ws ->
  map Py.re_split_ws (split_lines (linear_lines i ws ++ tail))
  = chain_fields i ws ++ map Py.re_split_ws (split_lines tail).
Proof.
  induction ws as [|w ws IH]; intros i tail Hws.
  - reflexivity.
  - inversion Hws as [|? ? [Hwe Hw] Hrest]; subst.
    cbn [linear_lines chain_fields app].
    unfold split_lines.
    replace ((Py.str_nat i ++ " " ++ Py.str_nat (i + 1) ++ " " ++ w
                ++ Py.newline ++ linear_lines (i + 1) ws) ++ tail)%string
      with ((Py.str_nat i ++ " " ++ Py.str_nat (i + 1) ++ " " ++ w)
              ++ Py.newline ++ (linear_lines (i + 1) ws ++ tail))%string
      by (now rewrite !string_app_assoc).
    rewrite split_lines_stretch
      by (apply arc_line_no_newline;
          auto using str_nat_nonspace).
    cbn [Py.newline append split_lines_aux].
    rewrite Ascii.eqb_refl. cbn [map]. f_equal.
    + apply three_fields; auto using str_nat_nonspace, str_nat_nonempty.
    + apply (IH (i + 1)%nat tail Hrest).
Qed.

(** X19.  The text that [linear_fst] hands to the compiler can be read
    back when the words are not empty and hold no white space (as the
    words of a sentence that is not blank are): cut into lines and the
    lines into fields, it gives for the word of index [i] the three
    fields [i], [i+1] and the word, and a last line with the number of
    words as its only field. *)
Theorem linear_text_reads_back (ws : list string) :
  Forall (fun w => w <> "" /\ all_chars nonspace w = true) ws ->
  map Py.re_split_ws
      (split_lines (linear_lines 0 ws
                      ++ Py.str_nat (List.length ws) ++ Py.newline))
  = chain_fields 0 ws ++ [[Py.str_nat (List.length ws)]].
Proof.
  intros H. rewrite (linear_lines_read_back ws 0 _ H). f_equal.
  unfold split_lines.
  rewrite split_lines_stretch
    by (apply nonspace_no_newline, str_nat_nonspace).
  cbn [Py.newline append split_lines_aux]. rewrite Ascii.eqb_refl.
  cbn [map split_lines_aux]. f_equal.
  apply one_field; [apply str_nat_nonspace|apply str_nat_nonempty].
Qed.

Lemma linear_text_reads_back_witness :
  map Py.re_split_ws
      (split_lines (linear_lines 0 ["turn"; "on"; "the"; "light"]
                      ++ Py.str_nat 4 ++ Py.newline))
  = chain_fields 0 ["turn"; "on"; "the"; "light"] ++ [[Py.str_nat 4]].
Proof.
  apply (linear_text_reads_back ["turn"; "on"; "the"; "light"]).
  repeat (apply Forall_cons; [split; [discriminate|reflexivity]|]).
  apply Forall_nil.
Defined.

(** ** The command line *)

Lemma dict_get_set_same {V : Type} (d : dict V) k v :
  dict_get (dict_set d k v) k = Some v.
Proof.
  induction d as [|[k' v'] d IH]; simpl.
  - now rewrite String.eqb_refl.
  - destruct (String.eqb k' k) eqn:E; simpl.
    + now rewrite String.eqb_refl.
    + now rewrite E.
Qed.

Lemma dict_get_set_other {V : Type} (d : dict V) k k0 v :
  k0 <> k -> dict_get (dict_set d k v) k0 = dict_get d k0.
Proof.
  intros Hne.
  assert (Hk : String.eqb k k0 = false).
  { apply String.eqb_neq. congruence. }
  induction d as [|[k' v'] d IH]; simpl.
  - now rewrite Hk.
  - destruct (String.eqb_spec k' k) as [->|Hk']; simpl.
    + now rewrite Hk.
    + destruct (String.eqb k' k0); [reflexivity|exact IH].
Qed.

Lemma dict_set_keys {V : Type} (d : dict V) k v :
  map fst (dict_set d k v) =
  if existsb (String.eqb k) (map fst d) then map fst d
  else map fst d ++ [k].
Proof.
  induction d as [|[k' v'] d IH]; simpl; [reflexivity|].
  rewrite (String.eqb_sym k k').
  destruct (String.eqb_spec k' k) as [->|Hk]; simpl; [reflexivity|].
  rewrite IH. now destruct (existsb (String.eqb k) (map fst d)).
Qed.

Lemma dict_set_nodup {V : Type} (d : dict V) k v :
  NoDup (map fst d) -> NoDup (map fst (dict_set d k v)).
Proof.
  intros H. rewrite dict_set_keys.
  destruct (existsb (String.eqb k) (map fst d)) eqn:E; [exact H|].
  apply NoDup_app; [exact H|constructor; [intros []|constructor]|].
  intros x Hx [<-|[]].
  assert (existsb (String.eqb k) (map fst d) = true); [|congruence].
  apply existsb_exists. exists k. split; [exact Hx|apply String.eqb_refl].
Qed.

Lemma dict_set_in_keys {V : Type} (d : dict V) k v x :
  In x (map fst (dict_set d k v)) <-> In x (map fst d) \/ x = k.
Proof.
  rewrite dict_set_keys.
  destruct (existsb (String.eqb k) (map fst d)) eqn:E.
  - apply existsb_exists in E. destruct E as (y & Hy & Heq).
    apply String.eqb_eq in Heq. subst y.
    split; [now left|]. intros [H| ->]; assumption.
  - rewrite in_app_iff. simpl. intuition.
Qed.

Section MainProperties.

Variable Compiler_new : Fst -> bool -> bool -> result unit.
Variable Compiler_compile : Fst -> bool -> bool -> string -> result Fst.
Variable compose : Fst -> Fst -> result Fst.
Variable project : Fst -> bool -> result Fst.

Lemma main_loop_spec fuel grammar_fst n0 rt sentences :
  forall results log results' log',
    main_loop Compiler_new Compiler_compile compose project
              fuel grammar_fst n0 rt
              sentences results log = Some (results', log') ->
    (NoDup (map fst results) -> NoDup (map fst results')) /\
    (forall x, In x (map fst results') <->
               In x (map fst results) \/ In x sentences) /\
    (forall x, In x sentences ->
       exists intents lg,
         fstaccept Compiler_new Compiler_compile compose project
                   fuel grammar_fst x
                   (Some n0) rt = Some (intents, lg) /\
         dict_get results' x = Some intents) /\
    (forall x, ~ In x sentences -> dict_get results' x = dict_get results x).
Proof.
  induction sentences as [|s rest IH]; intros results log results' log';
    cbn [main_loop].
  - intros [= <- <-]. repeat split; auto.
    + intros [H|[]]. exact H.
    + intros x [].
  - destruct (fstaccept Compiler_new Compiler_compile compose project
                        fuel grammar_fst s
                        (Some n0) rt) as [[intents lg]|] eqn:E;
      [|discriminate].
    intros H. destruct (IH _ _ _ _ H) as (Hnd & Hkeys & Hval & Hother).
    split; [|split; [|split]].
    + intros Hd. apply Hnd. now apply dict_set_nodup.
    + intros x. rewrite Hkeys, dict_set_in_keys. simpl.
      intuition (subst; auto).
    + intros x Hx.
      destruct (in_dec string_dec x rest) as [Hin|Hnot].
      * now apply Hval.
      * destruct Hx as [<-|Hx]; [|contradiction].
        exists intents, lg. split; [exact E|].
        rewrite (Hother _ Hnot). apply dict_get_set_same.
    + intros x Hx. rewrite Hother by (intros Hin; apply Hx; now right).
      apply dict_get_set_other. intros ->. apply Hx. now left.
Qed.

(** X20.  The dictionary built by [main] has exactly the sentences of the
    command line as keys, each once however often it was given, and maps
    each of them to what [fstaccept] returns for it with the intent name
    taken from the name of the grammar file and the replacement policy
    on unless [--dont-replace] was given. *)
Theorem main_maps_each_sentence (fuel : nat) (grammar_fst : Fst)
  (fst_path : string) (sentences : list string) (dont_replace : bool)
  (results : dict (list Intent)) (log : list string) :
  main_results Compiler_new Compiler_compile compose project
               fuel grammar_fst fst_path
               sentences dont_replace = Some (results, log) ->
  NoDup (map fst results) /\
  (forall x, In x (map fst results) <-> In x sentences) /\
  (forall x, In x sentences ->
     exists intents lg,
       fstaccept Compiler_new Compiler_compile compose project
                 fuel grammar_fst x
                 (Some (OsPath.splitext_root (OsPath.basename fst_path)))
                 (negb dont_replace) = Some (intents, lg) /\
       dict_get results x = Some intents).
Proof.
  unfold main_results. intros H.
  destruct (main_loop_spec _ _ _ _ _ _ _ _ _ H) as (Hnd & Hkeys & Hval & _).
  split; [apply Hnd; constructor|]. split; [|exact Hval].
  intros x. rewrite Hkeys. simpl. intuition.
Qed.

(** X21.  Every record with tokens in the dictionary built by [main]
    carries as intent name the base name of the grammar file without its
    extension, whatever label markers the grammar has; a record without
    token has the empty name. *)
Theorem main_names_records_after_the_file (fuel : nat) (grammar_fst : Fst)
  (fst_path : string) (sentences : list string) (dont_replace : bool)
  (results : dict (list Intent)) (log : list string)
  (x : string) (intents : list Intent) (r : Intent) :
  main_results Compiler_new Compiler_compile compose project
               fuel grammar_fst fst_path
               sentences dont_replace = Some (results, log) ->
  dict_get results x = Some intents ->
  In r intents ->
  name (intent r) =
    if has_tokens r
    then OsPath.splitext_root (OsPath.basename fst_path)
    else "".
Proof.
  unfold main_results. intros H Hget Hin.
  destruct (main_loop_spec _ _ _ _ _ _ _ _ _ H) as (_ & _ & Hval & Hother).
  destruct (in_dec string_dec x sentences) as [Hx|Hx].
  - destruct (Hval x Hx) as (intents' & lg & Hacc & Hget').
    rewrite Hget in Hget'. injection Hget' as <-.
    exact (fstaccept_override_name Compiler_new Compiler_compile compose project
             _ _ _ _ _ _ _ _ Hacc Hin).
  - rewrite (Hother x Hx) in Hget. discriminate.
Qed.

End MainProperties.

Lemma main_maps_each_sentence_witness :
  NoDup (map fst
           [("a", [mkIntent "a" (Some ["a"]) (mkIntentInfo "light" (1 # 2)) []]);
            ("b", @nil Intent)]) /\
  (forall x,
     In x (map fst
             [("a", [mkIntent "a" (Some ["a"]) (mkIntentInfo "light" (1 # 2)) []]);
              ("b", @nil Intent)]) <-> In x ["a"; "b"; "a"]) /\
  (forall x, In x ["a"; "b"; "a"] ->
     exists intents lg,
       fstaccept Examples.compiler_ok MoreExamples.compile_word_a
                 MoreExamples.compose_left
                 Examples.project_id 3 Examples.good_then_bad x
                 (Some (OsPath.splitext_root
                          (OsPath.basename "grammars/light.fst")))
                 (negb false) = Some (intents, lg) /\
       dict_get
         [("a", [mkIntent "a" (Some ["a"]) (mkIntentInfo "light" (1 # 2)) []]);
          ("b", @nil Intent)] x = Some intents).
Proof.
  apply (main_maps_each_sentence
           Examples.compiler_ok MoreExamples.compile_word_a
           MoreExamples.compose_left
           Examples.project_id 3 Examples.good_then_bad
           "grammars/light.fst" ["a"; "b"; "a"] false
           [("a", [mkIntent "a" (Some ["a"]) (mkIntentInfo "light" (1 # 2)) []]);
            ("b", @nil Intent)]
           ["a"; "a"]).
  vm_compute. reflexivity.
Defined.

Lemma main_names_records_after_the_file_witness :
  name (intent (mkIntent "a" (Some ["a"]) (mkIntentInfo "light" (1 # 2)) []))
  = if has_tokens
         (mkIntent "a" (Some ["a"]) (mkIntentInfo "light" (1 # 2)) [])
    then OsPath.splitext_root (OsPath.basename "grammars/light.fst")
    else "".
Proof.
  apply (main_names_records_after_the_file
           Examples.compiler_ok MoreExamples.compile_word_a
           MoreExamples.compose_left
           Examples.project_id 3 Examples.good_then_bad
           "grammars/light.fst" ["a"; "b"; "a"] false
           [("a", [mkIntent "a" (Some ["a"]) (mkIntentInfo "light" (1 # 2)) []]);
            ("b", @nil Intent)]
           ["a"; "a"] "a"
           [mkIntent "a" (Some ["a"]) (mkIntentInfo "light" (1 # 2)) []]).
  - vm_compute. reflexivity.
  - reflexivity.
  - left. reflexivity.
Defined.

(** ** The intent name of a grammar file *)

Lemma contains_app c (a b : string) :
  Py.contains c (a ++ b) = Py.contains c a || Py.contains c b.
Proof.
  induction a as [|x a IH]; simpl; [reflexivity|].
  destruct (Ascii.eqb x c); [reflexivity|exact IH].
Qed.

Lemma basename_no_slash (s : string) :
  Py.contains "/" s = false -> OsPath.basename s = s.
Proof.
  destruct s as [|c s]; [reflexivity|]. simpl.
  destruct (Ascii.eqb c "/"); [discriminate|].
  now intros ->.
Qed.

Lemma basename_after_slash (dir rest : string) :
  Py.contains "/" rest = false ->
  OsPath.basename (dir ++ String "/" rest) = rest.
Proof.
  intros H. induction dir as [|c dir IH]; simpl.
  - now rewrite H.
  - rewrite contains_app. simpl. rewrite orb_true_r. exact IH.
Qed.

Lemma before_last_dot_none (s : string) :
  Py.contains "." s = false -> OsPath.before_last_dot s = None.
Proof.
  induction s as [|c s IH]; simpl; [reflexivity|].
  destruct (Ascii.eqb c "."); [discriminate|].
  now intros H; rewrite (IH H).
Qed.

Lemma before_last_dot_app (nm ext : string) :
  Py.contains "." ext = false ->
  OsPath.before_last_dot (nm ++ String "." ext) = Some nm.
Proof.
  intros H. induction nm as [|c nm IH]; simpl.
  - now rewrite (before_last_dot_none _ H).
  - now rewrite IH.
Qed.

(** X22.  For a grammar file [name.ext], alone or after a directory, the
    intent name that [main] passes on is [name]: what follows the last
    slash, up to its last dot.  ([name] has no slash and is not made of
    dots only, [ext] has neither slash nor dot.) *)
Theorem intent_name_of_grammar_file (dir nm ext : string) :
  Py.contains "/" nm = false ->
  OsPath.only_dots nm = false ->
  Py.contains "/" ext = false ->
  Py.contains "." ext = false ->
  OsPath.splitext_root (OsPath.basename (nm ++ "." ++ ext)) = nm /\
  OsPath.splitext_root (OsPath.basename (dir ++ "/" ++ nm ++ "." ++ ext))
  = nm.
Proof.
  intros Hs Hd Hes Hed.
  change ("." ++ ext)%string with (String "." ext).
  change ("/" ++ nm ++ String "." ext)%string
    with (String "/" (nm ++ String "." ext)).
  assert (Hfile : Py.contains "/" (nm ++ String "." ext) = false).
  { rewrite contains_app, Hs. simpl. exact Hes. }
  assert (Hroot : OsPath.splitext_root (nm ++ String "." ext) = nm).
  { unfold OsPath.splitext_root.
    now rewrite (before_last_dot_app nm ext Hed), Hd. }
  split.
  - now rewrite (basename_no_slash _ Hfile).
  - now rewrite (basename_after_slash dir _ Hfile).
Qed.

Lemma intent_name_of_grammar_file_witness :
  OsPath.splitext_root (OsPath.basename ("turn.on" ++ "." ++ "fst"))
  = "turn.on" /\
  OsPath.splitext_root
    (OsPath.basename ("/home/x.y/grammars" ++ "/" ++ "turn.on" ++ "." ++ "fst"))
  = "turn.on".
Proof.
  apply (intent_name_of_grammar_file "/home/x.y/grammars" "turn.on" "fst");
    reflexivity.
Defined.

(** ** The further properties on concrete inputs *)

Lemma flat_tags_decode_witness :
  exists r,
    symbols2intent
      (flatten [Plain ["go"; "to"; "__label__travel"];
                Tagged "city:Boston" ["boston"];
                Tagged "" ["x"]])
      "<eps>" None None true = Ok r /\
    entities r =
      entities (initial_intent None)
        ++ entities_of true [Plain ["go"; "to"; "__label__travel"];
                             Tagged "city:Boston" ["boston"];
                             Tagged "" ["x"]] /\
    tokens r =
      Some (literals (flatten [Plain ["go"; "to"; "__label__travel"];
                               Tagged "city:Boston" ["boston"];
                               Tagged "" ["x"]])).
Proof.
  apply (flat_tags_decode true
           [Plain ["go"; "to"; "__label__travel"];
            Tagged "city:Boston" ["boston"];
            Tagged "" ["x"]] "<eps>" None None).
  apply Forall_cons;
    [|apply Forall_cons; [|apply Forall_cons; [|apply Forall_nil]]];
    intros sym H; simpl in H;
    repeat (destruct H as [<-|H]; [split; reflexivity|]);
    destruct H.
Defined.

Lemma text_and_tokens_are_literals_witness :
  tokens (mkIntent "x y" (Some ["x"; "y"]) (mkIntentInfo "z" 1)
                   [mkEntity "a" "x"])
  = Some (literals ["__begin__a"; "x"; "__end__a"; "y"; "<eps>";
                    "__label__z"]) /\
  text (mkIntent "x y" (Some ["x"; "y"]) (mkIntentInfo "z" 1)
                 [mkEntity "a" "x"])
  = Py.join " " (literals ["__begin__a"; "x"; "__end__a"; "y"; "<eps>";
                           "__label__z"]).
Proof.
  apply (text_and_tokens_are_literals true
           ["__begin__a"; "x"; "__end__a"; "y"; "<eps>"; "__label__z"]
           "<eps>" None None).
  reflexivity.
Defined.

Lemma intent_name_resolution_witness :
  (literals ["x"; "__label__first"; "__label__second"] <> [] ->
   name (intent (mkIntent "x" (Some ["x"]) (mkIntentInfo "first" 1) []))
   = match @None string with
     | Some n => n
     | None =>
         match first_label ["x"; "__label__first"; "__label__second"] with
         | Some n => n
         | None => ""
         end
     end /\
   confidence (intent (mkIntent "x" (Some ["x"]) (mkIntentInfo "first" 1) []))
   = 1%Q) /\
  (literals ["x"; "__label__first"; "__label__second"] = [] ->
   intent (mkIntent "x" (Some ["x"]) (mkIntentInfo "first" 1) [])
   = intent (initial_intent None)).
Proof.
  apply (intent_name_resolution true
           ["x"; "__label__first"; "__label__second"] "<eps>" None None).
  reflexivity.
Defined.

Lemma no_end_marker_never_raises_witness :
  exists r,
    symbols2intent ["__begin__a"; "x"; "__begin__b"; "__label__l"] "<eps>"
                   None None true = Ok r /\
    entities r = entities (initial_intent None).
Proof.
  apply (no_end_marker_never_raises true
           ["__begin__a"; "x"; "__begin__b"; "__label__l"] "<eps>" None None).
  intros sym H. simpl in H.
  repeat (destruct H as [<-|H]; [reflexivity|]). destruct H.
Defined.

Lemma records_up_to_first_failure_witness :
  let k := decodable_prefix None true [["a"]; ["__end__x"]] in
  let n := List.length [["a"]; ["__end__x"]] in
  fstaccept Examples.compiler_ok Examples.compile_id
            Examples.compose_right Examples.project_id
            3 Examples.good_then_bad " A " None true
  = Some (map (decoded None true n) (firstn k [["a"]; ["__end__x"]]),
          if Nat.eqb k n then [] else [Py.lower (Py.strip " A ")])
  /\ (k <= n)%nat
  /\ Forall (fun s => is_ok (symbols2intent s "<eps>" None None true) = true)
            (firstn k [["a"]; ["__end__x"]])
  /\ ((k < n)%nat ->
      exists s, nth_error [["a"]; ["__end__x"]] k = Some s /\
                is_ok (symbols2intent s "<eps>" None None true) = false).
Proof.
  apply (records_up_to_first_failure
           Examples.compiler_ok Examples.compile_id
           Examples.compose_right Examples.project_id
           3 Examples.good_then_bad " A " None true Examples.good_then_bad
           [["a"]; ["__end__x"]] None None).
  - reflexivity.
  - vm_compute. reflexivity.
Defined.

Lemma override_names_every_record_witness :
  name (intent (mkIntent "boston" (Some ["boston"])
                         (mkIntentInfo "travel" (1 # 2))
                         [mkEntity "city" "Boston"]))
  = if has_tokens (mkIntent "boston" (Some ["boston"])
                            (mkIntentInfo "travel" (1 # 2))
                            [mkEntity "city" "Boston"])
    then "travel" else "".
Proof.
  apply (override_names_every_record
           Examples.compiler_ok Examples.compile_id
           Examples.compose_right Examples.project_id
           5 Examples.tagged "to Boston" "travel" true
           [mkIntent "boston" (Some ["boston"])
                     (mkIntentInfo "travel" (1 # 2))
                     [mkEntity "city" "Boston"];
            mkIntent "a b" (Some ["a"; "b"])
                     (mkIntentInfo "travel" (1 # 2)) []]
           []).
  - vm_compute. reflexivity.
  - left. reflexivity.
Defined.

Lemma policy_keeps_records_alike_witness :
  exists intents2,
    fstaccept Examples.compiler_ok Examples.compile_id
              Examples.compose_right Examples.project_id
              5 Examples.tagged "to Boston" None false
    = Some (intents2, []) /\
    Forall2 alike
      [mkIntent "boston" (Some ["boston"]) (mkIntentInfo "x" (1 # 2))
                [mkEntity "city" "Boston"];
       mkIntent "a b" (Some ["a"; "b"]) (mkIntentInfo "" (1 # 2)) []]
      intents2.
Proof.
  apply (policy_keeps_records_alike
           Examples.compiler_ok Examples.compile_id
           Examples.compose_right Examples.project_id
           5 Examples.tagged "to Boston" None true false).
  vm_compute. reflexivity.
Defined.
